(** * task_tracker: employees, tasks and the two derived listings

    A shallow embedding of [task_tracker/models.py], [task_tracker/serializers.py]
    and [task_tracker/views.py].  The database is a pair of tables (lists of
    rows, in the order the ORM enumerates them); Python exceptions are values
    of an error monad; Python strings are sequences of Unicode code points. *)

From Stdlib Require Import String Ascii Bool Arith NArith ZArith Lia List.
From Stdlib Require Import Sorting.Sorted Sorting.Permutation.
From Stdlib Require Import DecimalString DecimalNat.
Import ListNotations.

Set Implicit Arguments.

(* ================================================================== *)
(** ** Python values *)

Module Py.

(** A [str] is a sequence of Unicode code points. *)
Definition char := N.
Definition str := list char.

(** String literals of the source are written in UTF-8; [decode_utf8] turns
    the bytes of a literal into its code points. *)
Fixpoint decode_utf8 (bs : list N) : str :=
  match bs with
  | [] => []
  | b :: r =>
      if (b <? 128)%N then b :: decode_utf8 r
      else if (b <? 224)%N then
        match r with
        | c1 :: r' => ((b - 192) * 64 + (c1 - 128))%N :: decode_utf8 r'
        | _ => []
        end
      else if (b <? 240)%N then
        match r with
        | c1 :: c2 :: r' =>
            ((b - 224) * 4096 + (c1 - 128) * 64 + (c2 - 128))%N :: decode_utf8 r'
        | _ => []
        end
      else
        match r with
        | c1 :: c2 :: c3 :: r' =>
            ((b - 240) * 262144 + (c1 - 128) * 4096 + (c2 - 128) * 64 + (c3 - 128))%N
              :: decode_utf8 r'
        | _ => []
        end
  end.

Definition u (s : string) : str :=
  decode_utf8 (map N_of_ascii (list_ascii_of_string s)).

(** [==] and [<] on [str]: code point by code point. *)
Fixpoint str_eqb (a b : str) : bool :=
  match a, b with
  | [], [] => true
  | x :: a', y :: b' => (x =? y)%N && str_eqb a' b'
  | _, _ => false
  end.

Fixpoint str_ltb (a b : str) : bool :=
  match a, b with
  | _, [] => false
  | [], _ :: _ => true
  | x :: a', y :: b' => (x <? y)%N || ((x =? y)%N && str_ltb a' b')
  end.

(** [x in xs] for a tuple or list of strings. *)
Definition str_in (x : str) (xs : list str) : bool := existsb (str_eqb x) xs.

(** [sep.join(xs)]. *)
Fixpoint join (sep : str) (xs : list str) : str :=
  match xs with
  | [] => []
  | [x] => x
  | x :: rest => x ++ sep ++ join sep rest
  end.

(** [str.isspace] on one code point: the characters [str.strip()] removes. *)
Definition is_space (c : char) : bool :=
  ((9 <=? c) && (c <=? 13) || (28 <=? c) && (c <=? 32) || (c =? 133) || (c =? 160)
   || (c =? 5760) || (8192 <=? c) && (c <=? 8202) || (c =? 8232) || (c =? 8233)
   || (c =? 8239) || (c =? 8287) || (c =? 12288))%N.

Fixpoint lstrip (s : str) : str :=
  match s with
  | [] => []
  | c :: s' => if is_space c then lstrip s' else s
  end.

Definition rstrip (s : str) : str := rev (lstrip (rev s)).

Definition strip (s : str) : str := rstrip (lstrip s).

(** [str(n)] for a non-negative integer. *)
Definition str_of_nat (n : nat) : str :=
  map N_of_ascii (list_ascii_of_string (NilEmpty.string_of_uint (Nat.to_uint n))).

Section Unicode.

(** The Unicode tables of the interpreter are not part of the program: what
    they say about the characters outside ASCII is a parameter.
    [unicode_alpha c] says whether [c] is a letter; [unicode_lower s i] is the
    lowercase form of the character at position [i] of [s] (the string is
    passed because the lowercase form of a capital sigma depends on where it
    stands). *)
Variable unicode_alpha : char -> bool.
Variable unicode_lower : str -> nat -> str.

Definition is_upper_ascii (c : char) : bool := ((65 <=? c) && (c <=? 90))%N.
Definition is_lower_ascii (c : char) : bool := ((97 <=? c) && (c <=? 122))%N.

Definition isalpha_char (c : char) : bool :=
  if (c <? 128)%N then is_upper_ascii c || is_lower_ascii c else unicode_alpha c.

(** [s.isalpha()]: every character is a letter and there is at least one. *)
Definition isalpha (s : str) : bool :=
  match s with
  | [] => false
  | _ => forallb isalpha_char s
  end.

Fixpoint lower_from (whole : str) (i : nat) (s : str) : str :=
  match s with
  | [] => []
  | c :: s' =>
      (if (c <? 128)%N then [if is_upper_ascii c then (c + 32)%N else c]
       else unicode_lower whole i) ++ lower_from whole (S i) s'
  end.

(** [s.lower()]. *)
Definition lower (s : str) : str := lower_from s 0 s.

End Unicode.

(** [datetime.date]: compared as the triple (year, month, day). *)
Record date := Date { year : nat; month : nat; day : nat }.

Definition date_eqb (a b : date) : bool :=
  (year a =? year b) && (month a =? month b) && (day a =? day b).

Definition date_ltb (a b : date) : bool :=
  (year a <? year b)
  || ((year a =? year b)
      && ((month a <? month b) || ((month a =? month b) && (day a <? day b)))).

(** Exceptions of the program.  A [ValidationError] carries either a list
    with one message (raised in a view) or the messages per field (raised by
    a serializer). *)
#[warnings="-register-all"]
Inductive detail :=
| Messages (ms : list str)
| Fields (errs : list (str * detail)).

Inductive exn :=
| TypeError
| AttributeError
| ValidationError (d : detail)
| Http404.

Inductive result (A : Type) :=
| Ok (a : A)
| Raise (e : exn).

Arguments Ok {A} a.
Arguments Raise {A} e.

Definition bind {A B} (c : result A) (k : A -> result B) : result B :=
  match c with
  | Ok a => k a
  | Raise e => Raise e
  end.

End Py.

Import Py.

Notation "x <- c ;; k" := (Py.bind c (fun x => k))
  (at level 61, c at next level, right associativity).

(* ================================================================== *)
(** ** [sorted(xs, key=f)] *)

Module PySort.

Section Sort.

Variables (A K : Type).
Variable key : A -> K.

(** [lt] is [<] on keys; it may raise. *)
Variable lt : K -> K -> result bool.

(** [sorted] computes every key once and returns the stable arrangement of
    the elements in ascending key order, using [<] only.  The model is a
    stable insertion sort of the decorated list: an element is placed after
    the elements of the sorted tail whose key is strictly smaller. *)
Fixpoint insert (x : K * A) (l : list (K * A)) : result (list (K * A)) :=
  match l with
  | [] => Ok [x]
  | y :: l' =>
      b <- lt (fst y) (fst x) ;;
      if b then (r <- insert x l' ;; Ok (y :: r)) else Ok (x :: y :: l')
  end.

Fixpoint sort (l : list (K * A)) : result (list (K * A)) :=
  match l with
  | [] => Ok []
  | x :: l' => s <- sort l' ;; insert x s
  end.

Definition sorted (l : list A) : result (list A) :=
  s <- sort (map (fun a => (key a, a)) l) ;; Ok (map snd s).

End Sort.

End PySort.

(* ================================================================== *)
(** ** models.py *)

Module Employee.

Record t := Make {
  id : nat;
  last_name : str;
  first_name : str;
  middle_name : option str;
  position : str;
  department : option str;
  hired_date : option date
}.

End Employee.

Module Task.

(** [parent_task] and [assigned_to] are foreign keys: the row holds the
    identity of the row it refers to, or NULL. *)
Record t := Make {
  id : nat;
  name : str;
  description : option str;
  parent_task : option nat;
  assigned_to : option nat;
  due_date : date;
  status : str
}.

Definition STATUS_CHOICES : list str :=
  [u "new"; u "in_progress"; u "completed"; u "on_hold"; u "canceled"; u "overdue"].

Definition set_parent_task (v : option nat) (x : t) : t :=
  Make (id x) (name x) (description x) v (assigned_to x) (due_date x) (status x).

Definition set_assigned_to (v : option nat) (x : t) : t :=
  Make (id x) (name x) (description x) (parent_task x) v (due_date x) (status x).

End Task.

(** The persisted state: the two tables, each in the order in which the
    ORM enumerates its rows. *)
Record DB := MkDB {
  employees : list Employee.t;
  tasks : list Task.t
}.

Definition opt_nat_eqb (a b : option nat) : bool :=
  match a, b with
  | Some x, Some y => x =? y
  | None, None => true
  | _, _ => false
  end.

Module Objects.

(** [Task.objects.filter(assigned_to=employee)] *)
Definition assigned (db : DB) (e : Employee.t) : list Task.t :=
  filter (fun x => opt_nat_eqb (Task.assigned_to x) (Some (Employee.id e))) (tasks db).

(** [Task.objects.filter(assigned_to=employee, status__in=['new', 'in_progress'])] *)
Definition active (db : DB) (e : Employee.t) : list Task.t :=
  filter (fun x => str_in (Task.status x) [u "new"; u "in_progress"]) (assigned db e).

(** The rows of the [subtasks] reverse relation of [x]. *)
Definition subtasks (db : DB) (x : Task.t) : list Task.t :=
  filter (fun c => opt_nat_eqb (Task.parent_task c) (Some (Task.id x))) (tasks db).

(** The rows [parent_task] joins [x] with: the rows whose identity is the
    one [x] refers to; no row when the reference is NULL. *)
Definition parents (db : DB) (x : Task.t) : list Task.t :=
  match Task.parent_task x with
  | None => []
  | Some pid => filter (fun p => Task.id p =? pid) (tasks db)
  end.

(** [on_delete=models.SET_NULL] on [Task.assigned_to]: deleting an employee
    first clears the reference of every task that points to it, then removes
    the employee's row. *)
Definition delete_employee (pk : nat) (db : DB) : DB :=
  MkDB (filter (fun e => negb (Employee.id e =? pk)) (employees db))
       (map (fun x => if opt_nat_eqb (Task.assigned_to x) (Some pk)
                      then Task.set_assigned_to None x else x) (tasks db)).

(** [on_delete=models.SET_NULL] on [Task.parent_task]: deleting a task first
    clears the reference of every task that points to it, then removes the
    task's row. *)
Definition delete_task (pk : nat) (db : DB) : DB :=
  MkDB (employees db)
       (filter (fun x => negb (Task.id x =? pk))
          (map (fun x => if opt_nat_eqb (Task.parent_task x) (Some pk)
                         then Task.set_parent_task None x else x) (tasks db))).

End Objects.

(* ================================================================== *)
(** ** views.py: BusyEmployeesListAPIView *)

Module BusyEmployeesListAPIView.

(** The second component of the sort key: a date, or the string the source
    puts in place of [None]. *)
Inductive date_or_str :=
| KDate (d : date)
| KStr (s : str).

(** One entry of [employee_task_data]. *)
Record entry := Entry {
  employee : Employee.t;
  entry_tasks : list Task.t;
  active_task_count : nat;
  earliest_due_date : option date
}.

(** The loop over [active_tasks] that finds the earliest due date. *)
Fixpoint earliest_loop (ts : list Task.t) (earliest : option date) : option date :=
  match ts with
  | [] => earliest
  | x :: ts' =>
      earliest_loop ts'
        (match earliest with
         | None => Some (Task.due_date x)
         | Some d => if date_ltb (Task.due_date x) d then Some (Task.due_date x) else Some d
         end)
  end.

Definition make_entry (db : DB) (e : Employee.t) : entry :=
  let active_tasks := Objects.active db e in
  Entry e active_tasks (length active_tasks) (earliest_loop active_tasks None).

(** [x['earliest_due_date'] or '9999-12-31'] *)
Definition date_or_sentinel (d : option date) : date_or_str :=
  match d with
  | Some d => KDate d
  | None => KStr (u "9999-12-31")
  end.

Definition sort_key (x : entry) : Z * date_or_str :=
  ((- Z.of_nat (active_task_count x))%Z, date_or_sentinel (earliest_due_date x)).

(** [==] and [<] between a date and a string: [==] is false, [<] raises. *)
Definition dos_eqb (a b : date_or_str) : bool :=
  match a, b with
  | KDate x, KDate y => date_eqb x y
  | KStr x, KStr y => str_eqb x y
  | _, _ => false
  end.

Definition dos_lt (a b : date_or_str) : result bool :=
  match a, b with
  | KDate x, KDate y => Ok (date_ltb x y)
  | KStr x, KStr y => Ok (str_ltb x y)
  | _, _ => Raise TypeError
  end.

(** [<] on the key tuples: the first components that differ decide. *)
Definition key_lt (a b : Z * date_or_str) : result bool :=
  if (fst a =? fst b)%Z then
    if dos_eqb (snd a) (snd b) then Ok false else dos_lt (snd a) (snd b)
  else Ok (fst a <? fst b)%Z.

Definition get_queryset (db : DB) : result (list Employee.t) :=
  let employee_task_data := map (make_entry db) (employees db) in
  sorted_employee_data <- PySort.sorted sort_key key_lt employee_task_data ;;
  Ok (map employee sorted_employee_data).

End BusyEmployeesListAPIView.

(* ================================================================== *)
(** ** serializers.py *)

Notation "' pat <- c ;; k" := (Py.bind c (fun x => match x with pat => k end))
  (at level 61, pat pattern, c at next level, right associativity).

(** *** The fields of the framework

    A [ModelSerializer] builds one field of the framework for each model
    field it lists, with the options the model field declares: a model field
    with [null=True] gives [allow_null]; one with [blank=True], [null=True] or
    a default is not required; a [CharField] or [TextField] with [blank=True]
    gives [allow_blank]; [max_length] is kept; a field with [choices] becomes
    a [ChoiceField]; a [ForeignKey] becomes a [PrimaryKeyRelatedField].  The
    body of a request is a JSON object, in which a field is absent, null, or
    has another JSON value, or it is form-encoded, all its values being
    strings.  The messages are those of the framework in its own
    language. *)
Module Field.

(** A JSON value.  A number and a compound value (a list or an object) come
    with their [str()]. *)
Inductive json :=
| JNull
| JString (s : str)
| JNumber (text : str)
| JBool (b : bool)
| JCompound (text : str).

(** [str(data)] *)
Definition str_of (data : json) : str :=
  match data with
  | JNull => u "None"
  | JString s => s
  | JNumber text => text
  | JBool true => u "True"
  | JBool false => u "False"
  | JCompound text => text
  end.

(** What [run_validation] of a field comes to: [SkipField] (the field stays
    out of the validated data), a [ValidationError] with its messages, or the
    value of the field, [None] for null. *)
Inductive outcome (A : Type) :=
| Skipped
| Refused (messages : list str)
| Value (value : option A).

Arguments Skipped {A}.
Arguments Refused {A} messages.
Arguments Value {A} value.

(** The options of a field. *)
Record options := Options { required : bool; allow_null : bool; allow_blank : bool }.

(** [Field.get_value]: the value of the field in the body, absent when the
    body has no such key.  In a form-encoded body ([html]) an empty string
    stands for null on a field with [allow_null] and for an absent value on a
    field that is not required, unless the field has [allow_blank]. *)
Definition get_value (html : bool) (o : options) (data : option json) : option json :=
  match data with
  | Some (JString []) =>
      if html then
        if allow_null o then (if allow_blank o then data else Some JNull)
        else if negb (required o) then (if allow_blank o then data else None)
        else data
      else data
  | _ => data
  end.

(** [Field.run_validation]: [validate_empty_values], then the conversion and
    the validators of the field class ([to_internal_value], [run_validators]).
    [partial] is set on a PATCH request. *)
Definition run_validation {A} (o : options) (convert : json -> outcome A)
           (partial : bool) (data : option json) : outcome A :=
  match data with
  | None =>
      if partial then Skipped
      else if required o then Refused [u "This field is required."]
      else Skipped
  | Some JNull =>
      if allow_null o then Value None else Refused [u "This field may not be null."]
  | Some value => convert value
  end.

(** [MaxLengthValidator] *)
Definition max_length_errors (max_length : option nat) (value : str) : list str :=
  match max_length with
  | Some n =>
      if n <? List.length value
      then [u "Ensure this field has no more than " ++ str_of_nat n ++ u " characters."]
      else []
  | None => []
  end.

(** [CharField] with [trim_whitespace=True]: a value that is blank once
    trimmed is refused, or is the empty string where [allow_blank] is set; a
    string or a number is trimmed and passed to the validators; another value
    is refused.  [validators] gives the messages of the validators the
    framework attaches to every [CharField] besides the one of
    [max_length]. *)
Definition CharField (o : options) (max_length : option nat) (validators : str -> list str)
  : bool -> option json -> outcome str :=
  run_validation o
    (fun data =>
       match strip (str_of data) with
       | [] =>
           if allow_blank o then Value (Some [])
           else Refused [u "This field may not be blank."]
       | value =>
           match data with
           | JString _ | JNumber _ =>
               match max_length_errors max_length value ++ validators value with
               | [] => Value (Some value)
               | errors => Refused errors
               end
           | _ => Refused [u "Not a valid string."]
           end
       end).

(** [DateField] with the ISO 8601 input format; [parse_date] is the parser
    of the framework. *)
Definition DateField (o : options) (parse_date : str -> option date)
  : bool -> option json -> outcome date :=
  let invalid :=
    Refused [u "Date has wrong format. Use one of these formats instead: YYYY-MM-DD."] in
  run_validation o
    (fun data =>
       match data with
       | JString s =>
           match parse_date s with
           | Some d => Value (Some d)
           | None => invalid
           end
       | _ => invalid
       end).

(** [ChoiceField]: [str(data)] is looked up among the choices. *)
Definition ChoiceField (o : options) (choices : list str)
  : bool -> option json -> outcome str :=
  run_validation o
    (fun data =>
       if str_in (str_of data) choices then Value (Some (str_of data))
       else Refused [[34%N] ++ str_of data ++ [34%N] ++ u " is not a valid choice."]).

(** [PrimaryKeyRelatedField]: an empty string is taken for null; [get] is
    [queryset.get(pk=data)], the identity of the row or the messages of the
    field when there is no such row. *)
Definition PrimaryKeyRelatedField (o : options) (get : json -> nat + list str)
           (partial : bool) (data : option json) : outcome nat :=
  run_validation o
    (fun value =>
       match get value with
       | inl pk => Value (Some pk)
       | inr messages => Refused messages
       end)
    partial
    (match data with
     | Some (JString []) => Some JNull
     | _ => data
     end).

End Field.

Import Field.

(** A [validate_<field>] method written for a string or a date, called with
    the value the field produced: on [None] the method raises, [AttributeError]
    for [value.isalpha()] and [TypeError] for a comparison with a date. *)
Definition on_value {A} (e : exn) (validate : A -> result A) (value : option A)
  : result (option A) :=
  match value with
  | None => Raise e
  | Some x => y <- validate x ;; Ok (Some y)
  end.

(** One turn of the loop of a serializer's [to_internal_value]: the field is
    run; a skipped field is left out; the messages of a refused field are kept
    under its name; otherwise [validate_<field>], when the serializer has one,
    is called with the value, its [ValidationError] is kept under the name of
    the field and any other exception goes through. *)
Definition run_field {A} (field_name : str) (field : outcome A)
           (validate_method : option (option A -> result (option A)))
  : result (option (option A) * list (str * detail)) :=
  match field with
  | Skipped => Ok (None, [])
  | Refused messages => Ok (None, [(field_name, Messages messages)])
  | Value value =>
      match validate_method with
      | None => Ok (Some value, [])
      | Some validate =>
          match validate value with
          | Ok validated_value => Ok (Some validated_value, [])
          | Raise (ValidationError d) => Ok (None, [(field_name, d)])
          | Raise e => Raise e
          end
      end
  end.

Module EmployeeSerializer.

(** The writable fields of a request. *)
Record data := Data {
  last_name : option json;
  first_name : option json;
  middle_name : option json;
  position : option json;
  department : option json;
  hired_date : option json
}.

(** The validated data: a field is left out, or has a value, [None] for
    null. *)
Module Validated.

Record t := Make {
  last_name : option (option str);
  first_name : option (option str);
  middle_name : option (option str);
  position : option (option str);
  department : option (option str);
  hired_date : option (option date)
}.

End Validated.

Section Validators.

Variable unicode_alpha : char -> bool.

(** [datetime.date.today()] *)
Variable today : date.

Definition validate_first_name (value : str) : result str :=
  if negb (isalpha unicode_alpha value)
  then Raise (ValidationError (Messages [u "Имя должно содержать только буквы."]))
  else Ok value.

Definition validate_last_name (value : str) : result str :=
  if negb (isalpha unicode_alpha value)
  then Raise (ValidationError (Messages [u "Фамилия должна содержать только буквы."]))
  else Ok value.

Definition validate_middle_name (value : str) : result str :=
  if negb (isalpha unicode_alpha value)
  then Raise (ValidationError (Messages [u "Отчество должно содержать только буквы."]))
  else Ok value.

Definition validate_hired_date (value : date) : result date :=
  if date_ltb today value
  then Raise (ValidationError (Messages [u "Дата приема на работу не может быть в будущем."]))
  else Ok value.

(** The validators the framework attaches to a [CharField], by field name,
    and its parser of dates. *)
Variable validators : str -> str -> list str.
Variable parse_date : str -> option date.

Section Fields.

(** The request: form-encoded or JSON, PATCH or not, and its body. *)
Variables html partial : bool.
Variable d : data.

(** The fields built from [models.Employee], each on its value in the
    body. *)
Definition last_name_field : outcome str :=
  let o := Options true false false in
  CharField o (Some 30) (validators (u "last_name")) partial (get_value html o (last_name d)).

Definition first_name_field : outcome str :=
  let o := Options true false false in
  CharField o (Some 30) (validators (u "first_name")) partial (get_value html o (first_name d)).

Definition middle_name_field : outcome str :=
  let o := Options false true true in
  CharField o (Some 30) (validators (u "middle_name")) partial
            (get_value html o (middle_name d)).

Definition position_field : outcome str :=
  let o := Options true false false in
  CharField o (Some 100) (validators (u "position")) partial (get_value html o (position d)).

Definition department_field : outcome str :=
  let o := Options false true true in
  CharField o (Some 100) (validators (u "department")) partial
            (get_value html o (department d)).

Definition hired_date_field : outcome date :=
  let o := Options false true false in
  DateField o parse_date partial (get_value html o (hired_date d)).

(** The fields in the order of [Meta.fields]; [id] and [active_task_count]
    are read-only. *)
Definition to_internal_value : result Validated.t :=
  '(ln, e1) <- run_field (u "last_name") last_name_field
                         (Some (on_value AttributeError validate_last_name)) ;;
  '(fn, e2) <- run_field (u "first_name") first_name_field
                         (Some (on_value AttributeError validate_first_name)) ;;
  '(mn, e3) <- run_field (u "middle_name") middle_name_field
                         (Some (on_value AttributeError validate_middle_name)) ;;
  '(ps, e4) <- run_field (u "position") position_field None ;;
  '(dp, e5) <- run_field (u "department") department_field None ;;
  '(hd, e6) <- run_field (u "hired_date") hired_date_field
                         (Some (on_value TypeError validate_hired_date)) ;;
  match e1 ++ e2 ++ e3 ++ e4 ++ e5 ++ e6 with
  | [] => Ok (Validated.Make ln fn mn ps dp hd)
  | errors => Raise (ValidationError (Fields errors))
  end.

End Fields.

End Validators.

(** [get_active_task_count] *)
Definition get_active_task_count (db : DB) (employee : Employee.t) : nat :=
  List.length (Objects.active db employee).

End EmployeeSerializer.

Module TaskSummarySerializer.

Record parent_repr := ParentRepr {
  parent_id : nat;
  parent_name : str;
  parent_due_date : date
}.

Record repr := Repr {
  id : nat;
  name : str;
  due_date : date;
  status : str;
  parent_task : option parent_repr
}.

(** [task.parent_task] is the row the reference points to, or [None]. *)
Definition get_parent_task (db : DB) (task : Task.t) : option parent_repr :=
  match Objects.parents db task with
  | p :: _ => Some (ParentRepr (Task.id p) (Task.name p) (Task.due_date p))
  | [] => None
  end.

Definition to_representation (db : DB) (task : Task.t) : repr :=
  Repr (Task.id task) (Task.name task) (Task.due_date task) (Task.status task)
       (get_parent_task db task).

End TaskSummarySerializer.

Module BusyEmployeeSerializer.

Record repr := Repr {
  id : nat;
  last_name : str;
  first_name : str;
  middle_name : option str;
  position : str;
  hired_date : option date;
  active_task_count : nat;
  tasks : list TaskSummarySerializer.repr
}.

Definition get_tasks (db : DB) (employee : Employee.t) : list TaskSummarySerializer.repr :=
  map (TaskSummarySerializer.to_representation db) (Objects.active db employee).

Definition get_active_task_count (db : DB) (employee : Employee.t) : nat :=
  List.length (Objects.active db employee).

Definition to_representation (db : DB) (e : Employee.t) : repr :=
  Repr (Employee.id e) (Employee.last_name e) (Employee.first_name e)
       (Employee.middle_name e) (Employee.position e) (Employee.hired_date e)
       (get_active_task_count db e) (get_tasks db e).

End BusyEmployeeSerializer.

Module TaskSerializer.

(** The writable fields of a request. *)
Record data := Data {
  name : option json;
  description : option json;
  parent_task : option json;
  assigned_to : option json;
  due_date : option json;
  status : option json
}.

(** The validated data; a related row is given by its identity. *)
Module Validated.

Record t := Make {
  name : option (option str);
  description : option (option str);
  parent_task : option (option nat);
  assigned_to : option (option nat);
  due_date : option (option date);
  status : option (option str)
}.

End Validated.

Section Validators.

Variable today : date.

Definition validate_due_date (value : date) : result date :=
  if date_ltb value today
  then Raise (ValidationError (Messages [u "Срок выполнения задачи не может быть в прошлом."]))
  else Ok value.

(** The validators the framework attaches to a [CharField], by field name,
    its parser of dates, and the look-up of a task and of an employee by
    primary key. *)
Variable validators : str -> str -> list str.
Variable parse_date : str -> option date.
Variable get_task : json -> nat + list str.
Variable get_employee : json -> nat + list str.

Section Fields.

(** The request: form-encoded or JSON, PATCH or not, and its body. *)
Variables html partial : bool.
Variable d : data.

(** The fields built from [models.Task], each on its value in the body. *)
Definition name_field : outcome str :=
  let o := Options true false false in
  CharField o (Some 200) (validators (u "name")) partial (get_value html o (name d)).

Definition description_field : outcome str :=
  let o := Options false true true in
  CharField o None (validators (u "description")) partial (get_value html o (description d)).

Definition parent_task_field : outcome nat :=
  let o := Options false true false in
  PrimaryKeyRelatedField o get_task partial (get_value html o (parent_task d)).

Definition assigned_to_field : outcome nat :=
  let o := Options false true false in
  PrimaryKeyRelatedField o get_employee partial (get_value html o (assigned_to d)).

Definition due_date_field : outcome date :=
  let o := Options true false false in
  DateField o parse_date partial (get_value html o (due_date d)).

Definition status_field : outcome str :=
  let o := Options false false false in
  ChoiceField o Task.STATUS_CHOICES partial (get_value html o (status d)).

(** [fields = '__all__']: the fields in the order of the model; [id] is
    read-only. *)
Definition to_internal_value : result Validated.t :=
  '(nm, e1) <- run_field (u "name") name_field None ;;
  '(ds, e2) <- run_field (u "description") description_field None ;;
  '(pt, e3) <- run_field (u "parent_task") parent_task_field None ;;
  '(asg, e4) <- run_field (u "assigned_to") assigned_to_field None ;;
  '(dd, e5) <- run_field (u "due_date") due_date_field
                         (Some (on_value TypeError validate_due_date)) ;;
  '(st, e6) <- run_field (u "status") status_field None ;;
  match e1 ++ e2 ++ e3 ++ e4 ++ e5 ++ e6 with
  | [] => Ok (Validated.Make nm ds pt asg dd st)
  | errors => Raise (ValidationError (Fields errors))
  end.

End Fields.

End Validators.

End TaskSerializer.

Module ImportantTaskSerializer.

Record repr := Repr {
  id : nat;
  name : str;
  due_date : date;
  potential_employees : list str
}.

(** [Task.objects.filter(assigned_to=employee).count()] *)
Definition task_count (db : DB) (employee : Employee.t) : nat :=
  List.length (Objects.assigned db employee).

(** The first loop: the least [task_count] over the employees. *)
Fixpoint min_loop (db : DB) (es : list Employee.t) (min_task_count : option nat) : option nat :=
  match es with
  | [] => min_task_count
  | employee :: es' =>
      let task_count := task_count db employee in
      min_loop db es'
        (match min_task_count with
         | None => Some task_count
         | Some m => if task_count <? m then Some task_count else Some m
         end)
  end.

(** [Task.objects.filter(parent_task=task, assigned_to=employee).exists()] *)
Definition parent_task_employee (db : DB) (task : Task.t) (employee : Employee.t) : bool :=
  existsb (fun x => opt_nat_eqb (Task.parent_task x) (Some (Task.id task))
                    && opt_nat_eqb (Task.assigned_to x) (Some (Employee.id employee)))
          (tasks db).

(** The label of an employee in the output.  [employee.middle_name or '']
    is the middle name, or the empty string when it is [None] or empty. *)
Definition employee_name (employee : Employee.t) : str :=
  strip (Employee.last_name employee ++ u " " ++ Employee.first_name employee ++ u " "
         ++ match Employee.middle_name employee with
            | Some m => m
            | None => u ""
            end
         ++ u ". ID:" ++ str_of_nat (Employee.id employee)).

Definition suitable (db : DB) (task : Task.t) (min_task_count : nat) (employee : Employee.t) : bool :=
  let task_count := task_count db employee in
  (task_count =? min_task_count)
  || (parent_task_employee db task employee && (task_count <=? min_task_count + 2)).

(** The second loop: the labels of the suitable employees, each once. *)
Fixpoint select_loop (db : DB) (task : Task.t) (min_task_count : nat)
         (es : list Employee.t) (suitable_employees : list str) : list str :=
  match es with
  | [] => suitable_employees
  | employee :: es' =>
      select_loop db task min_task_count es'
        (if suitable db task min_task_count employee
         then let employee_name := employee_name employee in
              if negb (str_in employee_name suitable_employees)
              then suitable_employees ++ [employee_name]
              else suitable_employees
         else suitable_employees)
  end.

Definition get_potential_employees (db : DB) (task : Task.t) : list str :=
  match employees db with
  | [] => []
  | es =>
      match min_loop db es None with
      | None => []
      | Some min_task_count => select_loop db task min_task_count es []
      end
  end.

Definition to_representation (db : DB) (task : Task.t) : repr :=
  Repr (Task.id task) (Task.name task) (Task.due_date task) (get_potential_employees db task).

End ImportantTaskSerializer.

(* ================================================================== *)
(** ** views.py *)

(** [request.query_params]: the pairs of the query string, in order. *)
Definition query_params := list (str * str).

Module QueryParams.

(** [query_params.get(k)]: the last value given for [k], or [None]. *)
Definition get (k : str) (q : query_params) : option str :=
  fold_left (fun acc kv => if str_eqb (fst kv) k then Some (snd kv) else acc) q None.

(** [set(xs)] as the list of the distinct elements of [xs]; the order in
    which a Python set is enumerated is not fixed, the model enumerates in
    order of first occurrence. *)
Fixpoint to_set (xs : list str) : list str :=
  match xs with
  | [] => []
  | x :: xs' => x :: filter (fun y => negb (str_eqb y x)) (to_set xs')
  end.

(** [set(query_params.keys())] *)
Definition keys (q : query_params) : list str := to_set (map fst q).

(** [a - b] on sets. *)
Definition difference (a b : list str) : list str :=
  filter (fun x => negb (str_in x b)) a.

End QueryParams.

(** [DjangoFilterBackend]: for each field of [filterset_fields] that the
    query gives a value, the value is cleaned by the field's form field and
    the rows are restricted to those that match; parameters that are not in
    [filterset_fields] are not looked at.  Cleaning and matching belong to
    the filter library and are a parameter: [clean field value] is the
    predicate on rows, or the error for a value the form field refuses. *)
Section FilterBackend.

Variable Row : Type.
Variable clean : str -> str -> result (Row -> bool).

Fixpoint filter_queryset (filterset_fields : list str) (q : query_params)
         (queryset : list Row) : result (list Row) :=
  match filterset_fields with
  | [] => Ok queryset
  | f :: fields =>
      match QueryParams.get f q with
      | None => filter_queryset fields q queryset
      | Some v =>
          p <- clean f v ;;
          filter_queryset fields q (filter p queryset)
      end
  end.

End FilterBackend.

Module EmployeeListAPIView.

Definition filterset_fields : list str := [u "position"; u "department"; u "hired_date"].

Definition list (clean : str -> str -> result (Employee.t -> bool))
           (db : DB) (q : query_params) : result (list Employee.t) :=
  filter_queryset clean filterset_fields q (employees db).

End EmployeeListAPIView.

Module TaskListAPIView.

Definition filterset_fields : list str :=
  [u "assigned_to"; u "status"; u "parent_task"; u "due_date"].

(** [order_by('id')] *)
Fixpoint insert_by_id (x : Task.t) (l : list Task.t) : list Task.t :=
  match l with
  | [] => [x]
  | y :: l' => if Task.id y <? Task.id x then y :: insert_by_id x l' else x :: y :: l'
  end.

Definition order_by_id (l : list Task.t) : list Task.t :=
  fold_right insert_by_id [] l.

Definition opt_eqb {A} (eqb : A -> A -> bool) (a b : option A) : bool :=
  match a, b with
  | Some x, Some y => eqb x y
  | None, None => true
  | _, _ => false
  end.

(** Two rows of a result set are the same when all their columns are. *)
Definition row_eqb (a b : Task.t) : bool :=
  (Task.id a =? Task.id b) && str_eqb (Task.name a) (Task.name b)
  && opt_eqb str_eqb (Task.description a) (Task.description b)
  && opt_nat_eqb (Task.parent_task a) (Task.parent_task b)
  && opt_nat_eqb (Task.assigned_to a) (Task.assigned_to b)
  && date_eqb (Task.due_date a) (Task.due_date b)
  && str_eqb (Task.status a) (Task.status b).

(** [.distinct()] *)
Fixpoint distinct (rows : list Task.t) : list Task.t :=
  match rows with
  | [] => []
  | x :: rows' => x :: filter (fun y => negb (row_eqb y x)) (distinct rows')
  end.

(** [filter(subtasks__isnull=False)]: the join with the [subtasks] relation
    has one row per subtask; [filter(subtasks__isnull=True)] keeps the rows
    the outer join pairs with no subtask. *)
Definition filter_subtasks_isnull (db : DB) (isnull : bool) (queryset : list Task.t)
  : list Task.t :=
  if isnull
  then filter (fun x => match Objects.subtasks db x with [] => true | _ => false end) queryset
  else flat_map (fun x => map (fun _ => x) (Objects.subtasks db x)) queryset.

(** [filter(parent_task__isnull=...)] *)
Definition filter_parent_task_isnull (isnull : bool) (queryset : list Task.t) : list Task.t :=
  filter (fun x => match Task.parent_task x with
                   | None => isnull
                   | Some _ => negb isnull
                   end) queryset.

Section View.

Variable unicode_lower : str -> nat -> str.

Definition get_queryset (db : DB) (q : query_params) : result (list Task.t) :=
  let queryset := order_by_id (tasks db) in
  let allowed_filters := QueryParams.to_set filterset_fields in
  let requested_filters :=
    QueryParams.difference (QueryParams.keys q) [u "subtasks"; u "has_parent"] in
  let invalid_filters := QueryParams.difference requested_filters allowed_filters in
  match invalid_filters with
  | _ :: _ =>
      Raise (ValidationError (Messages
        [u "Фильтрация по полю(-ям) " ++ join (u ", ") invalid_filters
         ++ u " невозможна. "
         ++ u "Доступные поля для фильтрации: " ++ join (u ", ") allowed_filters]))
  | [] =>
      let queryset :=
        match QueryParams.get (u "subtasks") q with
        | Some subtasks_param =>
            if str_in (lower unicode_lower subtasks_param) [u "true"; u "1"]
            then distinct (filter_subtasks_isnull db false queryset)
            else if str_in (lower unicode_lower subtasks_param) [u "false"; u "0"]
            then distinct (filter_subtasks_isnull db true queryset)
            else queryset
        | None => queryset
        end in
      let queryset :=
        match QueryParams.get (u "has_parent") q with
        | Some has_parent_param =>
            if str_in (lower unicode_lower has_parent_param) [u "true"; u "1"]
            then filter_parent_task_isnull false queryset
            else if str_in (lower unicode_lower has_parent_param) [u "false"; u "0"]
            then filter_parent_task_isnull true queryset
            else queryset
        | None => queryset
        end in
      Ok queryset
  end.

Variable clean : str -> str -> result (Task.t -> bool).

(** [ListAPIView.list]: the filter backend is applied to the result of
    [get_queryset]. *)
Definition list (db : DB) (q : query_params) : result (list Task.t) :=
  queryset <- get_queryset db q ;;
  filter_queryset clean filterset_fields q queryset.

End View.

End TaskListAPIView.

Module ImportantTasksListAPIView.

(** [Task.objects.filter(status='new', parent_task__status='in_progress')]:
    the inner join of the tasks with their parent rows. *)
Definition get_queryset (db : DB) : list Task.t :=
  flat_map
    (fun x => map (fun _ => x)
                  (filter (fun p => str_eqb (Task.status p) (u "in_progress"))
                          (Objects.parents db x)))
    (filter (fun x => str_eqb (Task.status x) (u "new")) (tasks db)).

Definition list (db : DB) : list ImportantTaskSerializer.repr :=
  map (ImportantTaskSerializer.to_representation db) (get_queryset db).

End ImportantTasksListAPIView.

Module BusyEmployeesList.

(** The response of the busy-employees endpoint: the rows of
    [BusyEmployeesListAPIView.get_queryset], each through
    [BusyEmployeeSerializer]. *)
Definition list (db : DB) : result (list BusyEmployeeSerializer.repr) :=
  queryset <- BusyEmployeesListAPIView.get_queryset db ;;
  Ok (map (BusyEmployeeSerializer.to_representation db) queryset).

End BusyEmployeesList.

(** The generic create, update and destroy views.  A view is a function of
    the persisted state that returns its outcome and the state it leaves.
    Writing a validated row is the ORM's work and is a parameter. *)
Module Generic.

Section Views.

Variable Data : Type.
Variable Validated : Type.

(** The serializer on a request: form-encoded or JSON, partial or not. *)
Variable to_internal_value : bool -> bool -> Data -> result Validated.
Variable perform_create : Validated -> DB -> DB.
Variable has_object : nat -> DB -> bool.
Variable perform_update : nat -> Validated -> DB -> DB.
Variable perform_destroy : nat -> DB -> DB.

(** [CreateAPIView]: [is_valid(raise_exception=True)], then [save()]. *)
Definition create (html : bool) (d : Data) (db : DB) : result Validated * DB :=
  match to_internal_value html false d with
  | Ok validated_data => (Ok validated_data, perform_create validated_data db)
  | Raise e => (Raise e, db)
  end.

(** [UpdateAPIView]: [get_object()], [is_valid(raise_exception=True)], then
    [save()]; the serializer is partial on PATCH and not on PUT. *)
Definition update (pk : nat) (html partial : bool) (d : Data) (db : DB)
  : result Validated * DB :=
  if has_object pk db then
    match to_internal_value html partial d with
    | Ok validated_data => (Ok validated_data, perform_update pk validated_data db)
    | Raise e => (Raise e, db)
    end
  else (Raise Http404, db).

(** [DestroyAPIView]: [get_object()], then [instance.delete()]. *)
Definition destroy (pk : nat) (db : DB) : result unit * DB :=
  if has_object pk db then (Ok tt, perform_destroy pk db) else (Raise Http404, db).

End Views.

End Generic.

Definition has_employee (pk : nat) (db : DB) : bool :=
  existsb (fun e => Employee.id e =? pk) (employees db).

Definition has_task (pk : nat) (db : DB) : bool :=
  existsb (fun x => Task.id x =? pk) (tasks db).

Module EmployeeDestroyAPIView.

Definition destroy : nat -> DB -> result unit * DB :=
  Generic.destroy has_employee Objects.delete_employee.

End EmployeeDestroyAPIView.

Module TaskDestroyAPIView.

Definition destroy : nat -> DB -> result unit * DB :=
  Generic.destroy has_task Objects.delete_task.

End TaskDestroyAPIView.

Section WriteViews.

Variable unicode_alpha : char -> bool.
Variable today : date.

(** The framework: the validators of a [CharField], the parser of dates and
    the look-up of a row by primary key. *)
Variable validators : str -> str -> list str.
Variable parse_date : str -> option date.
Variable get_task : json -> nat + list str.
Variable get_employee : json -> nat + list str.

(** The ORM's INSERT and UPDATE of a validated row. *)
Variable save_new_employee : EmployeeSerializer.Validated.t -> DB -> DB.
Variable save_employee : nat -> EmployeeSerializer.Validated.t -> DB -> DB.
Variable save_new_task : TaskSerializer.Validated.t -> DB -> DB.
Variable save_task : nat -> TaskSerializer.Validated.t -> DB -> DB.

Definition EmployeeCreateAPIView_create
  : bool -> EmployeeSerializer.data -> DB -> result EmployeeSerializer.Validated.t * DB :=
  Generic.create
    (EmployeeSerializer.to_internal_value unicode_alpha today validators parse_date)
    save_new_employee.

Definition EmployeeUpdateAPIView_update
  : nat -> bool -> bool -> EmployeeSerializer.data -> DB
    -> result EmployeeSerializer.Validated.t * DB :=
  Generic.update
    (EmployeeSerializer.to_internal_value unicode_alpha today validators parse_date)
    has_employee save_employee.

Definition TaskCreateAPIView_create
  : bool -> TaskSerializer.data -> DB -> result TaskSerializer.Validated.t * DB :=
  Generic.create
    (TaskSerializer.to_internal_value today validators parse_date get_task get_employee)
    save_new_task.

Definition TaskUpdateAPIView_update
  : nat -> bool -> bool -> TaskSerializer.data -> DB
    -> result TaskSerializer.Validated.t * DB :=
  Generic.update
    (TaskSerializer.to_internal_value today validators parse_date get_task get_employee)
    has_task save_task.

End WriteViews.

(* ================================================================== *)
(** ** models.py: the string forms *)

Module Display.

(** [Task.STATUS_CHOICES], each value with its label. *)
Definition STATUS_CHOICES : list (str * str) :=
  [(u "new", u "Новая");
   (u "in_progress", u "В работе");
   (u "completed", u "Завершена");
   (u "on_hold", u "На паузе");
   (u "canceled", u "Отменена");
   (u "overdue", u "Просрочена")].

(** [dict(choices).get(value, value)] *)
Fixpoint choice_label (choices : list (str * str)) (value : str) : str :=
  match choices with
  | [] => value
  | (v, label) :: rest => if str_eqb v value then label else choice_label rest value
  end.

(** [Task.get_status_display]: the label of the status, or the status
    itself when it is not one of the choices. *)
Definition get_status_display (x : Task.t) : str :=
  choice_label STATUS_CHOICES (Task.status x).

(** [Task.__str__] *)
Definition Task__str__ (x : Task.t) : str :=
  Task.name x ++ u " - " ++ get_status_display x.

(** [Employee.__str__] *)
Definition Employee__str__ (e : Employee.t) : str :=
  Employee.last_name e ++ u " " ++ Employee.first_name e ++ u " "
  ++ match Employee.middle_name e with
     | Some m => m
     | None => u ""
     end
  ++ u " - " ++ Employee.position e.

End Display.

(* ================================================================== *)
(** * Vocabulary of the properties *)

(** [a < b] on dates, as a proposition. *)
Definition date_lt (a b : date) : Prop :=
  year a < year b
  \/ (year a = year b
      /\ (month a < month b \/ (month a = month b /\ day a < day b))).

(** [a <= b] on dates. *)
Definition date_le (a b : date) : Prop := ~ date_lt b a.

Section SortVocabulary.

Variables (A K : Type).
Variable key : A -> K.
Variable P : A -> Prop.
Variable R : A -> A -> Prop.

(** A decorated element carries the key of its element, of which [P] holds. *)
Definition decorated (p : K * A) : Prop := fst p = key (snd p) /\ P (snd p).

(** [R] on the elements of two decorated elements. *)
Definition decorated_before (p q : K * A) : Prop := R (snd p) (snd q).

End SortVocabulary.

(** A task is active for an employee when it is assigned to the employee
    and its status is "new" or "in_progress". *)
Definition is_active (e : Employee.t) (x : Task.t) : Prop :=
  Task.assigned_to x = Some (Employee.id e)
  /\ (Task.status x = u "new" \/ Task.status x = u "in_progress").

(** [d] is the earliest due date of the tasks [ts]: absent when there is no
    task, otherwise the due date of one of them that none of them precedes. *)
Definition is_earliest (ts : list Task.t) (d : option date) : Prop :=
  match d with
  | None => ts = []
  | Some d =>
      (exists x, In x ts /\ Task.due_date x = d)
      /\ forall x, In x ts -> date_le d (Task.due_date x)
  end.

(** The order on earliest dates: ascending, an absent date last. *)
Definition opt_date_le (a b : option date) : Prop :=
  match a, b with
  | Some x, Some y => date_le x y
  | _, None => True
  | None, Some _ => False
  end.

(** What holds of every entry of [employee_task_data]: it is the entry
    the view makes for its employee. *)
Definition entry_ok (db : DB) (x : BusyEmployeesListAPIView.entry) : Prop :=
  x = BusyEmployeesListAPIView.make_entry db (BusyEmployeesListAPIView.employee x).

(** [a] may stand before [b] in the sorted data. *)
Definition entry_before (a b : BusyEmployeesListAPIView.entry) : Prop :=
  let count := BusyEmployeesListAPIView.active_task_count in
  let earliest := BusyEmployeesListAPIView.earliest_due_date in
  count b <= count a
  /\ (count a = count b -> opt_date_le (earliest a) (earliest b)).

(** The number of active tasks of an employee. *)
Definition active_count (db : DB) (e : Employee.t) : nat :=
  List.length (Objects.active db e).

(** [a] is ranked before [b]: [a] has at least as many active tasks, and
    when they have as many, the earliest due date of [a]'s active tasks is
    not after that of [b]'s, an employee without active tasks coming last. *)
Definition ranked_before (db : DB) (a b : Employee.t) : Prop :=
  active_count db b <= active_count db a
  /\ (active_count db a = active_count db b ->
      forall da db',
        is_earliest (Objects.active db a) da ->
        is_earliest (Objects.active db b) db' ->
        opt_date_le da db').

(** The table with one task that is its own parent. *)
Definition self_parent_db : DB :=
  MkDB [] [Task.Make 1 (u "P") None (Some 1) None (Date 2024 9 1) (u "new")].

(** [x] has at least one subtask. *)
Definition has_children (db : DB) (x : Task.t) : Prop :=
  exists c, In c (tasks db) /\ Task.parent_task c = Some (Task.id x).

(** The query gives the parameter [k] one of the values [vals]. *)
Definition param_is (q : query_params) (k : str) (vals : list str) : Prop :=
  exists v, QueryParams.get k q = Some v /\ In v vals.

Section BooleanParameters.

Variable unicode_lower : str -> nat -> str.

(** How the view reads a boolean parameter: set, cleared, or not
    restricting (absent or not recognised). *)
Definition flag (v : option str) : option bool :=
  match v with
  | None => None
  | Some s =>
      if str_in (lower unicode_lower s) [u "true"; u "1"] then Some true
      else if str_in (lower unicode_lower s) [u "false"; u "0"] then Some false
      else None
  end.

(** What the [subtasks] parameter of the query asks of a task. *)
Definition subtasks_restriction (db : DB) (q : query_params) (x : Task.t) : Prop :=
  match flag (QueryParams.get (u "subtasks") q) with
  | Some true => has_children db x
  | Some false => ~ has_children db x
  | None => True
  end.

(** What the [has_parent] parameter of the query asks of a task. *)
Definition has_parent_restriction (q : query_params) (x : Task.t) : Prop :=
  match flag (QueryParams.get (u "has_parent") q) with
  | Some true => Task.parent_task x <> None
  | Some false => Task.parent_task x = None
  | None => True
  end.

End BooleanParameters.

(** [s] occurs in [m]. *)
Definition substring (s m : str) : Prop := exists pre post, m = pre ++ s ++ post.

(** A field the task list refuses: a key of the query that is neither one
    of the two boolean parameters nor one of [filterset_fields]. *)
Definition offending (q : query_params) (k : str) : Prop :=
  In k (map fst q)
  /\ ~ In k [u "subtasks"; u "has_parent"]
  /\ ~ In k TaskListAPIView.filterset_fields.

(** The value a field contributes to the validated data. *)
Definition validated_value {A} (field : outcome A) : option (option A) :=
  match field with
  | Value value => Some value
  | _ => None
  end.

(** The field produced a value and the value is [bad]. *)
Definition field_violation {A} (bad : A -> Prop) (field : outcome A) : Prop :=
  exists x, field = Value (Some x) /\ bad x.

(** [det] is reported under [f] because the framework refuses the field
    [name]: [det] holds the messages of the framework. *)
Definition field_refusal {A} (name : str) (field : outcome A) (f : str) (det : detail)
  : Prop :=
  f = name /\ exists messages, field = Refused messages /\ det = Messages messages.

(** [det] is reported under [f] for the field [name] with a validator:
    the framework refuses the field, or the value of the field is [bad] and
    [det] is the message [msg] of the validator. *)
Definition field_report {A} (name : str) (field : outcome A) (bad : A -> Prop) (msg : str)
           (f : str) (det : detail) : Prop :=
  field_refusal name field f det
  \/ (f = name /\ field_violation bad field /\ det = Messages [msg]).

Section Violations.

Variable unicode_alpha : char -> bool.
Variable today : date.

(** An alphabetic-only string: it has at least one character and all its
    characters are letters. *)
Definition alphabetic_only (s : str) : Prop :=
  s <> [] /\ Forall (fun c => isalpha_char unicode_alpha c = true) s.

Variable validators : str -> str -> list str.
Variable parse_date : str -> option date.
Variable get_task : json -> nat + list str.
Variable get_employee : json -> nat + list str.

(** What the answer to an employee request reports, field by field: a name
    that is not an alphabetic-only string and a hire date after today are
    reported with the message of the validator. *)
Definition employee_report (html partial : bool) (d : EmployeeSerializer.data)
           (f : str) (det : detail) : Prop :=
  field_report (u "last_name") (EmployeeSerializer.last_name_field validators html partial d)
               (fun v => ~ alphabetic_only v)
               (u "Фамилия должна содержать только буквы.") f det
  \/ field_report (u "first_name")
                  (EmployeeSerializer.first_name_field validators html partial d)
                  (fun v => ~ alphabetic_only v)
                  (u "Имя должно содержать только буквы.") f det
  \/ field_report (u "middle_name")
                  (EmployeeSerializer.middle_name_field validators html partial d)
                  (fun v => ~ alphabetic_only v)
                  (u "Отчество должно содержать только буквы.") f det
  \/ field_refusal (u "position")
                   (EmployeeSerializer.position_field validators html partial d) f det
  \/ field_refusal (u "department")
                   (EmployeeSerializer.department_field validators html partial d) f det
  \/ field_report (u "hired_date")
                  (EmployeeSerializer.hired_date_field parse_date html partial d)
                  (fun v => date_lt today v)
                  (u "Дата приема на работу не может быть в будущем.") f det.

(** The validated data of an accepted employee request. *)
Definition employee_validated (html partial : bool) (d : EmployeeSerializer.data)
  : EmployeeSerializer.Validated.t :=
  EmployeeSerializer.Validated.Make
    (validated_value (EmployeeSerializer.last_name_field validators html partial d))
    (validated_value (EmployeeSerializer.first_name_field validators html partial d))
    (validated_value (EmployeeSerializer.middle_name_field validators html partial d))
    (validated_value (EmployeeSerializer.position_field validators html partial d))
    (validated_value (EmployeeSerializer.department_field validators html partial d))
    (validated_value (EmployeeSerializer.hired_date_field parse_date html partial d)).


(** What the answer to a task request reports: a due date before today is
    reported with the message of the validator. *)
Definition task_report (html partial : bool) (d : TaskSerializer.data)
           (f : str) (det : detail) : Prop :=
  field_refusal (u "name") (TaskSerializer.name_field validators html partial d) f det
  \/ field_refusal (u "description")
                   (TaskSerializer.description_field validators html partial d) f det
  \/ field_refusal (u "parent_task")
                   (TaskSerializer.parent_task_field get_task html partial d) f det
  \/ field_refusal (u "assigned_to")
                   (TaskSerializer.assigned_to_field get_employee html partial d) f det
  \/ field_report (u "due_date") (TaskSerializer.due_date_field parse_date html partial d)
                  (fun v => date_lt v today)
                  (u "Срок выполнения задачи не может быть в прошлом.") f det
  \/ field_refusal (u "status") (TaskSerializer.status_field html partial d) f det.

(** The validated data of an accepted task request. *)
Definition task_validated (html partial : bool) (d : TaskSerializer.data)
  : TaskSerializer.Validated.t :=
  TaskSerializer.Validated.Make
    (validated_value (TaskSerializer.name_field validators html partial d))
    (validated_value (TaskSerializer.description_field validators html partial d))
    (validated_value (TaskSerializer.parent_task_field get_task html partial d))
    (validated_value (TaskSerializer.assigned_to_field get_employee html partial d))
    (validated_value (TaskSerializer.due_date_field parse_date html partial d))
    (validated_value (TaskSerializer.status_field html partial d)).

End Violations.

(** The request gives no null for the middle name or the hire date, the two
    nullable fields with a validator; in a form-encoded body the empty string
    stands for a null hire date. *)
Definition no_null (html : bool) (d : EmployeeSerializer.data) : Prop :=
  EmployeeSerializer.middle_name d <> Some JNull
  /\ EmployeeSerializer.hired_date d <> Some JNull
  /\ ~ (html = true /\ EmployeeSerializer.hired_date d = Some (JString [])).

(** The outcome [r] of validating a request of which [report] says what is
    reported and [v] is the validated data: accepted with [v] when nothing is
    reported, otherwise refused with exactly what is reported, each under its
    field. *)
Definition validated {V} (report : str -> detail -> Prop) (v : V) (r : result V) : Prop :=
  ((forall f det, ~ report f det) /\ r = Ok v)
  \/ (exists errs,
        r = Raise (ValidationError (Fields errs))
        /\ errs <> []
        /\ forall f det, In (f, det) errs <-> report f det).

(** The outcome [out] of a create or update view on the state [db]: when
    nothing is reported the request is accepted and [v] written; otherwise it
    is refused with exactly what is reported, each under its field, and the
    state is the one before the request. *)
Definition write_gated {V} (report : str -> detail -> Prop) (v : V) (write : V -> DB -> DB)
           (db : DB) (out : result V * DB) : Prop :=
  ((forall f det, ~ report f det) /\ out = (Ok v, write v db))
  \/ (exists errs,
        out = (Raise (ValidationError (Fields errs)), db)
        /\ errs <> []
        /\ forall f det, In (f, det) errs <-> report f det).

(** [m] is the least number of tasks assigned to one of the employees [es]. *)
Definition is_min_task_count (db : DB) (es : list Employee.t) (m : nat) : Prop :=
  (exists e, In e es /\ ImportantTaskSerializer.task_count db e = m)
  /\ forall e, In e es -> m <= ImportantTaskSerializer.task_count db e.

(** The employee is assigned a subtask of [task]: what the query
    [filter(parent_task=task, assigned_to=employee)] looks for. *)
Definition assigned_subtask_of (db : DB) (task : Task.t) (e : Employee.t) : Prop :=
  exists x, In x (tasks db)
            /\ Task.parent_task x = Some (Task.id task)
            /\ Task.assigned_to x = Some (Employee.id e).

(** The employee is assigned the parent of [task]. *)
Definition assigned_parent_of (db : DB) (task : Task.t) (e : Employee.t) : Prop :=
  exists p, In p (tasks db)
            /\ Task.parent_task task = Some (Task.id p)
            /\ Task.assigned_to p = Some (Employee.id e).

(** A decimal digit. *)
Definition is_digit (c : char) : bool := ((48 <=? c) && (c <=? 57))%N.

(** Two employees, Ivanov without task and Petrov with one task; Petrov's
    task is in progress and is the parent of a new, unassigned task. *)
Definition ivanov : Employee.t :=
  Employee.Make 1 (u "Иванов") (u "Иван") None (u "Менеджер") None None.

Definition petrov : Employee.t :=
  Employee.Make 2 (u "Петров") (u "Петр") None (u "Менеджер") None None.

Definition parent_in_progress : Task.t :=
  Task.Make 1 (u "Родительская задача в работе") None None (Some 2)
            (Date 2024 9 1) (u "in_progress").

Definition important_task : Task.t :=
  Task.Make 2 (u "Важная задача") None (Some 1) None (Date 2024 9 10) (u "new").

Definition parent_assignee_db : DB :=
  MkDB [ivanov; petrov] [parent_in_progress; important_task].

(** ** Data of the test-suite *)

Module TestData.

Definition employee (pk : nat) (first_name last_name : string) : Employee.t :=
  Employee.Make pk (u last_name) (u first_name) None (u "") None None.

Definition task (pk : nat) (name : string) (parent_task assigned_to : option nat)
           (due_date : date) (status : string) : Task.t :=
  Task.Make pk (u name) None parent_task assigned_to due_date (u status).

Definition ivan : Employee.t := employee 1 "Иван" "Иванов".
Definition petr : Employee.t := employee 2 "Петр" "Петров".
Definition anna : Employee.t := employee 3 "Анна" "Сидорова".

(** [BusyEmployeesListAPITestCase.setUp] *)
Definition busy_db : DB :=
  MkDB [ivan; petr; anna]
       [task 1 "Задача 1" None (Some 1) (Date 2024 9 1) "new";
        task 2 "Задача 2" None (Some 1) (Date 2024 9 10) "in_progress";
        task 3 "Задача 3" None (Some 2) (Date 2024 9 15) "new";
        task 4 "Задача 4" None (Some 3) (Date 2024 8 1) "new";
        task 5 "Задача 5" None (Some 3) (Date 2024 8 15) "in_progress"].

(** [test_employees_with_equal_tasks] *)
Definition equal_tasks_db : DB :=
  MkDB [ivan; petr; anna]
       [task 1 "Задача 1" None (Some 1) (Date 2024 8 5) "new";
        task 2 "Задача 2" None (Some 2) (Date 2024 8 10) "new";
        task 3 "Задача 3" None (Some 3) (Date 2024 8 1) "new"].

(** [test_task_list_with_subtasks_filter_true] *)
Definition parent_row : Task.t :=
  task 1 "Родительская задача" None (Some 1) (Date 2024 9 1) "new".

Definition subtask_row : Task.t :=
  task 2 "Подзадача" (Some 1) (Some 1) (Date 2024 9 2) "new".

Definition subtask_db : DB := MkDB [ivan] [parent_row; subtask_row].

(** [ImportantTasksListAPITestCase.setUp] *)
Definition important_db : DB :=
  MkDB [ivan]
       [task 1 "Родительская задача в работе" None (Some 1) (Date 2024 9 1) "in_progress";
        task 2 "Важная задача" (Some 1) (Some 1) (Date 2024 9 10) "new";
        task 3 "Неважная задача" None (Some 1) (Date 2024 9 15) "new"].

(** A Unicode table for the examples: the letters of the Russian alphabet
    are letters, and lowercasing leaves the characters outside ASCII as they
    are. *)
Definition cyrillic_alpha (c : char) : bool :=
  ((1040 <=? c) && (c <=? 1103) || (c =? 1025) || (c =? 1105))%N.

Definition keep_case (s : str) (i : nat) : str :=
  match nth_error s i with
  | Some c => [c]
  | None => []
  end.

(** The framework in the examples: no further validator of a [CharField]
    objects, a date is written YYYY-MM-DD, and a row is looked up by the
    decimal form of its identity. *)
Definition no_errors (field value : str) : list str := [].

Definition digit (c : char) : option nat :=
  if ((48 <=? c) && (c <=? 57))%N then Some (N.to_nat (c - 48)) else None.

Fixpoint number (s : str) (acc : nat) : option nat :=
  match s with
  | [] => Some acc
  | c :: s' =>
      match digit c with
      | Some k => number s' (10 * acc + k)
      | None => None
      end
  end.

Definition leap (y : nat) : bool :=
  (y mod 4 =? 0) && (negb (y mod 100 =? 0) || (y mod 400 =? 0)).

Definition days_in_month (y m : nat) : nat :=
  match m with
  | 2 => if leap y then 29 else 28
  | 4 | 6 | 9 | 11 => 30
  | _ => 31
  end.

Definition is_hyphen (c : option char) : bool :=
  match c with
  | Some c => (c =? 45)%N
  | None => false
  end.

Definition parse_date (s : str) : option date :=
  match number (firstn 4 s) 0, number (firstn 2 (skipn 5 s)) 0, number (skipn 8 s) 0 with
  | Some y, Some m, Some d =>
      if (List.length s =? 10) && is_hyphen (nth_error s 4) && is_hyphen (nth_error s 7)
         && (1 <=? y) && (1 <=? m) && (m <=? 12) && (1 <=? d) && (d <=? days_in_month y m)
      then Some (Date y m d)
      else None
  | _, _, _ => None
  end.

Definition get_row (ids : list nat) (data : json) : nat + list str :=
  match find (fun pk => str_eqb (str_of_nat pk) (str_of data)) ids with
  | Some pk => inl pk
  | None =>
      inr [u "Invalid pk " ++ [34%N] ++ str_of data ++ [34%N] ++ u " - object does not exist."]
  end.

(** The day of the examples. *)
Definition today : date := Date 2024 8 20.

(** The body of a request with all the fields of an employee. *)
Definition employee_request (first_name last_name middle_name position department
                             hired_date : string) : EmployeeSerializer.data :=
  EmployeeSerializer.Data
    (Some (JString (u last_name))) (Some (JString (u first_name)))
    (Some (JString (u middle_name))) (Some (JString (u position)))
    (Some (JString (u department))) (Some (JString (u hired_date))).

(** The body of [test_employee_create] without [position]. *)
Definition without_position : EmployeeSerializer.data :=
  EmployeeSerializer.Data
    (Some (JString (u "Сидоров"))) (Some (JString (u "Алексей")))
    (Some (JString (u "Игоревич"))) None
    (Some (JString (u "Маркетинг"))) (Some (JString (u "2022-02-01"))).

(** A JSON body with a null middle name, and one with a null hire date. *)
Definition null_middle_name : EmployeeSerializer.data :=
  EmployeeSerializer.Data
    (Some (JString (u "Сидоров"))) (Some (JString (u "Алексей"))) (Some JNull)
    (Some (JString (u "Менеджер"))) None None.

Definition null_hired_date : EmployeeSerializer.data :=
  EmployeeSerializer.Data
    (Some (JString (u "Сидоров"))) (Some (JString (u "Алексей"))) None
    (Some (JString (u "Менеджер"))) None (Some JNull).

(** The body of a request with the fields of [test_task_create]. *)
Definition task_request (name description assigned_to due_date status : string)
  : TaskSerializer.data :=
  TaskSerializer.Data
    (Some (JString (u name))) (Some (JString (u description))) None
    (Some (JString (u assigned_to))) (Some (JString (u due_date)))
    (Some (JString (u status))).

(** An INSERT for the examples: the new employee gets the next identity, a
    column without a value is empty. *)
Definition text (v : option (option str)) : str :=
  match v with
  | Some (Some s) => s
  | _ => []
  end.

Definition column {A} (v : option (option A)) : option A :=
  match v with
  | Some x => x
  | None => None
  end.

Definition insert_employee (v : EmployeeSerializer.Validated.t) (db : DB) : DB :=
  MkDB (employees db
        ++ [Employee.Make (S (list_max (map Employee.id (employees db))))
                          (text (EmployeeSerializer.Validated.last_name v))
                          (text (EmployeeSerializer.Validated.first_name v))
                          (column (EmployeeSerializer.Validated.middle_name v))
                          (text (EmployeeSerializer.Validated.position v))
                          (column (EmployeeSerializer.Validated.department v))
                          (column (EmployeeSerializer.Validated.hired_date v))])
       (tasks db).

(** An UPDATE for the examples: the validated fields replace the columns of
    the row. *)
Definition update_employee (pk : nat) (v : EmployeeSerializer.Validated.t) (db : DB) : DB :=
  MkDB (map (fun e =>
               if Employee.id e =? pk then
                 Employee.Make
                   (Employee.id e)
                   (match EmployeeSerializer.Validated.last_name v with
                    | Some (Some s) => s
                    | _ => Employee.last_name e
                    end)
                   (match EmployeeSerializer.Validated.first_name v with
                    | Some (Some s) => s
                    | _ => Employee.first_name e
                    end)
                   (match EmployeeSerializer.Validated.middle_name v with
                    | Some x => x
                    | None => Employee.middle_name e
                    end)
                   (match EmployeeSerializer.Validated.position v with
                    | Some (Some s) => s
                    | _ => Employee.position e
                    end)
                   (match EmployeeSerializer.Validated.department v with
                    | Some x => x
                    | None => Employee.department e
                    end)
                   (match EmployeeSerializer.Validated.hired_date v with
                    | Some x => x
                    | None => Employee.hired_date e
                    end)
               else e)
            (employees db))
       (tasks db).

End TestData.

(** ** Vocabulary of the further properties *)

(** The rows of a table have pairwise different identities. *)
Definition unique_ids {A} (pk : A -> nat) (rows : list A) : Prop := NoDup (map pk rows).

(** The order of two tasks by identity. *)
Definition id_le (a b : Task.t) : Prop := Task.id a <= Task.id b.

Definition id_lt (a b : Task.t) : Prop := Task.id a < Task.id b.

(** Every reference of a task points to a row of the state. *)
Definition refs_ok (db : DB) : Prop :=
  forall x, In x (tasks db) ->
    (forall i, Task.assigned_to x = Some i -> has_employee i db = true)
    /\ (forall j, Task.parent_task x = Some j -> has_task j db = true).

(** [s] with its ASCII capitals replaced by small letters. *)
Definition ascii_lower (s : str) : str :=
  map (fun c => if is_upper_ascii c then (c + 32)%N else c) s.

(** A string of ASCII characters. *)
Definition is_ascii (s : str) : Prop := Forall (fun c => (c < 128)%N) s.

(** How a boolean parameter with an ASCII value is read. *)
Definition ascii_flag (v : option str) : option bool :=
  match v with
  | None => None
  | Some s =>
      if str_in (ascii_lower s) [u "true"; u "1"] then Some true
      else if str_in (ascii_lower s) [u "false"; u "0"] then Some false
      else None
  end.

(** What a boolean parameter read as [f] asks of a row for which [P] says
    whether it has the property. *)
Definition asks (f : option bool) (P : Prop) : Prop :=
  match f with
  | Some true => P
  | Some false => ~ P
  | None => True
  end.

Definition opt_date_eqb (a b : option date) : bool :=
  match a, b with
  | Some x, Some y => date_eqb x y
  | None, None => true
  | _, _ => false
  end.

(** Two employees have the same number of active tasks and the same
    earliest due date. *)
Definition same_rank (db : DB) (a b : Employee.t) : bool :=
  (BusyEmployeesListAPIView.active_task_count (BusyEmployeesListAPIView.make_entry db a)
   =? BusyEmployeesListAPIView.active_task_count (BusyEmployeesListAPIView.make_entry db b))
  && opt_date_eqb
       (BusyEmployeesListAPIView.earliest_due_date (BusyEmployeesListAPIView.make_entry db a))
       (BusyEmployeesListAPIView.earliest_due_date (BusyEmployeesListAPIView.make_entry db b)).

(** One entry of the busy-employees response may stand before another: it
    reports at least as many active tasks, and when they report as many,
    every task of the second is due no earlier than some task of the first. *)
Definition repr_before (r1 r2 : BusyEmployeeSerializer.repr) : Prop :=
  BusyEmployeeSerializer.active_task_count r2 <= BusyEmployeeSerializer.active_task_count r1
  /\ (BusyEmployeeSerializer.active_task_count r1 = BusyEmployeeSerializer.active_task_count r2 ->
      forall t2, In t2 (BusyEmployeeSerializer.tasks r2) ->
        exists t1, In t1 (BusyEmployeeSerializer.tasks r1)
                   /\ date_le (TaskSummarySerializer.due_date t1)
                              (TaskSummarySerializer.due_date t2)).

(** The row of a task after the employee [pk] is deleted. *)
Definition clear_assignee (pk : nat) (x : Task.t) : Task.t :=
  if opt_nat_eqb (Task.assigned_to x) (Some pk) then Task.set_assigned_to None x else x.

(** The task is new and a row of the table that it refers to as parent is
    in progress. *)
Definition is_important (db : DB) (x : Task.t) : bool :=
  str_eqb (Task.status x) (u "new")
  && existsb (fun p => opt_nat_eqb (Task.parent_task x) (Some (Task.id p))
                       && str_eqb (Task.status p) (u "in_progress"))
             (tasks db).

(* ================================================================== *)
(** * Properties *)

(** ** Strings and dates *)

Lemma str_eqb_eq (a b : str) : str_eqb a b = true <-> a = b.
Proof.
  revert b; induction a as [|x a IH]; intros [|y b]; simpl; split;
    try discriminate; try reflexivity.
  - rewrite andb_true_iff, N.eqb_eq, IH. intros [-> ->]; reflexivity.
  - intros [= -> ->]. rewrite N.eqb_refl. simpl. apply IH; reflexivity.
Qed.

Lemma str_eqb_refl (a : str) : str_eqb a a = true.
Proof. apply str_eqb_eq; reflexivity. Qed.

Lemma str_eqb_neq (a b : str) : str_eqb a b = false <-> a <> b.
Proof.
  rewrite <- str_eqb_eq. destruct (str_eqb a b); split; congruence.
Qed.

Lemma str_in_In (x : str) (xs : list str) : str_in x xs = true <-> In x xs.
Proof.
  unfold str_in. rewrite existsb_exists. split.
  - intros (y & Hy & E). apply str_eqb_eq in E. subst; assumption.
  - intros H. exists x. split; [assumption | apply str_eqb_refl].
Qed.

Lemma str_in_not_In (x : str) (xs : list str) : str_in x xs = false <-> ~ In x xs.
Proof.
  rewrite <- str_in_In. destruct (str_in x xs); split; congruence.
Qed.

Lemma opt_nat_eqb_eq (a b : option nat) : opt_nat_eqb a b = true <-> a = b.
Proof.
  destruct a as [x|], b as [y|]; simpl; split; try discriminate; try reflexivity.
  - intros H. apply Nat.eqb_eq in H. subst; reflexivity.
  - intros [= ->]. apply Nat.eqb_refl.
Qed.

Lemma date_ltb_lt (a b : date) : date_ltb a b = true <-> date_lt a b.
Proof.
  unfold date_ltb, date_lt.
  rewrite !orb_true_iff, !andb_true_iff, !orb_true_iff, !andb_true_iff,
    !Nat.ltb_lt, !Nat.eqb_eq.
  reflexivity.
Qed.

Lemma date_ltb_ge (a b : date) : date_ltb a b = false <-> date_le b a.
Proof.
  unfold date_le. rewrite <- date_ltb_lt. destruct (date_ltb a b); split; congruence.
Qed.

Lemma date_eqb_eq (a b : date) : date_eqb a b = true <-> a = b.
Proof.
  destruct a as [y1 m1 d1], b as [y2 m2 d2]. unfold date_eqb; simpl.
  rewrite !andb_true_iff, !Nat.eqb_eq. split.
  - intros [[-> ->] ->]; reflexivity.
  - intros [= -> -> ->]; auto.
Qed.

Lemma date_le_refl (a : date) : date_le a a.
Proof. unfold date_le, date_lt. lia. Qed.

Lemma date_le_trans (a b c : date) : date_le a b -> date_le b c -> date_le a c.
Proof. unfold date_le, date_lt. lia. Qed.

Lemma date_lt_le (a b : date) : date_lt a b -> date_le a b.
Proof. unfold date_le, date_lt. lia. Qed.

(** ** The model of [sorted] *)

Section SortFacts.

Variables (A K : Type).
Variable key : A -> K.
Variable lt : K -> K -> result bool.

(** [P] holds of the elements that are sorted; [R a b] says that [a] may
    stand before [b]. *)
Variable P : A -> Prop.
Variable R : A -> A -> Prop.

Hypothesis lt_total : forall a b, P a -> P b -> exists c, lt (key a) (key b) = Ok c.
Hypothesis lt_true : forall a b, P a -> P b -> lt (key a) (key b) = Ok true -> R a b.
Hypothesis lt_false : forall a b, P a -> P b -> lt (key a) (key b) = Ok false -> R b a.
Hypothesis R_trans : forall a b c, R a b -> R b c -> R a c.

Lemma insert_total x l :
  (decorated key P) x -> Forall (decorated key P) l -> exists r, PySort.insert lt x l = Ok r.
Proof.
  intros [Hx Px]. induction l as [|y l IH]; intros Hl; simpl.
  - eexists; reflexivity.
  - inversion Hl as [|? ? [Hy Py] Hl']; subst.
    destruct (lt_total Py Px) as [c Hc].
    rewrite Hy, Hx, Hc. simpl. destruct c.
    + destruct (IH Hl') as [r Hr]. rewrite Hr. simpl. eexists; reflexivity.
    + eexists; reflexivity.
Qed.

Lemma insert_perm (x : K * A) l r : PySort.insert lt x l = Ok r -> Permutation (x :: l) r.
Proof.
  revert r; induction l as [|y l IH]; simpl; intros r H.
  - injection H as <-. apply Permutation_refl.
  - destruct (lt (fst y) (fst x)) as [[|]|]; simpl in H; try discriminate.
    + destruct (PySort.insert lt x l) as [r'|] eqn:E; simpl in H; try discriminate.
      injection H as <-.
      eapply perm_trans; [apply perm_swap|]. apply perm_skip. apply IH; reflexivity.
    + injection H as <-. apply Permutation_refl.
Qed.

Lemma insert_sorted x l r :
  (decorated key P) x -> Forall (decorated key P) l -> StronglySorted (decorated_before R) l ->
  PySort.insert lt x l = Ok r -> StronglySorted (decorated_before R) r.
Proof.
  intros [Hx Px]. revert r; induction l as [|y l IH]; simpl; intros r Hl Hs H.
  - injection H as <-. constructor; constructor.
  - inversion Hl as [|? ? [Hy Py] Hl']; subst.
    inversion Hs as [|? ? Hs' Hall]; subst.
    rewrite Hy, Hx in H.
    destruct (lt (key (snd y)) (key (snd x))) as [[|]|] eqn:E; simpl in H; try discriminate.
    + destruct (PySort.insert lt x l) as [r'|] eqn:E'; simpl in H; try discriminate.
      injection H as <-. constructor.
      * apply IH; auto.
      * apply insert_perm in E'.
        eapply Permutation_Forall; [exact E'|].
        constructor; [|assumption]. apply (lt_true Py Px E).
    + injection H as <-. constructor; [assumption|].
      assert (Hxy : decorated_before R x y) by apply (lt_false Py Px E).
      constructor; [assumption|].
      eapply Forall_impl; [|exact Hall].
      intros z Hz. unfold decorated_before in *. eapply R_trans; eassumption.
Qed.

Lemma sort_perm (l : list (K * A)) r : PySort.sort lt l = Ok r -> Permutation l r.
Proof.
  revert r; induction l as [|y l IH]; simpl; intros s Hs.
  - injection Hs as <-. constructor.
  - destruct (PySort.sort lt l) as [s'|]; simpl in Hs; try discriminate.
    apply insert_perm in Hs. eapply perm_trans; [|exact Hs].
    apply perm_skip. apply IH; reflexivity.
Qed.

Lemma sort_total l : Forall (decorated key P) l -> exists r, PySort.sort lt l = Ok r.
Proof.
  induction l as [|x l IH]; simpl; intros Hl.
  - eexists; reflexivity.
  - inversion Hl as [|? ? Hx Hl']; subst.
    destruct (IH Hl') as [s Hs]. rewrite Hs. simpl.
    apply insert_total; [assumption|].
    eapply Permutation_Forall; [apply sort_perm; exact Hs|assumption].
Qed.

Lemma sort_sorted l r :
  Forall (decorated key P) l -> PySort.sort lt l = Ok r -> StronglySorted (decorated_before R) r.
Proof.
  revert r; induction l as [|x l IH]; simpl; intros r Hl H.
  - injection H as <-. constructor.
  - inversion Hl as [|? ? Hx Hl']; subst.
    destruct (PySort.sort lt l) as [s|] eqn:E; simpl in H; try discriminate.
    eapply insert_sorted; [exact Hx| |apply IH; [assumption|reflexivity]|exact H].
    eapply Permutation_Forall; [apply sort_perm; exact E|assumption].
Qed.

Lemma decorate_all l :
  Forall P l -> Forall (decorated key P) (map (fun a => (key a, a)) l).
Proof.
  induction 1; simpl; constructor; auto. split; simpl; auto.
Qed.

Lemma sorted_total l : Forall P l -> exists r, PySort.sorted key lt l = Ok r.
Proof.
  intros Hl. unfold PySort.sorted.
  destruct (sort_total (decorate_all Hl)) as [s Hs]. rewrite Hs. simpl.
  eexists; reflexivity.
Qed.

Lemma sorted_perm l r : PySort.sorted key lt l = Ok r -> Permutation l r.
Proof.
  unfold PySort.sorted. intros H.
  destruct (PySort.sort lt _) as [s|] eqn:E; simpl in H; try discriminate.
  injection H as <-. apply sort_perm in E.
  apply (Permutation_map snd) in E. rewrite map_map in E. simpl in E.
  rewrite map_id in E. exact E.
Qed.

Lemma sorted_sorted l r :
  Forall P l -> PySort.sorted key lt l = Ok r -> StronglySorted R r.
Proof.
  unfold PySort.sorted. intros Hl H.
  destruct (PySort.sort lt _) as [s|] eqn:E; simpl in H; try discriminate.
  injection H as <-.
  apply sort_sorted in E; [|apply decorate_all; assumption].
  clear - E. induction E as [|p s Hs IH Hall]; simpl; constructor; auto.
  rewrite Forall_map. exact Hall.
Qed.

End SortFacts.

(** ** The busy-employees ranking *)

Section Ranking.

Import BusyEmployeesListAPIView.

Lemma active_In db e x :
  In x (Objects.active db e) <-> In x (tasks db) /\ is_active e x.
Proof.
  unfold Objects.active, Objects.assigned, is_active.
  rewrite !filter_In, opt_nat_eqb_eq, str_in_In. simpl. intuition.
Qed.

Lemma opt_date_le_trans a b c : opt_date_le a b -> opt_date_le b c -> opt_date_le a c.
Proof.
  destruct a, b, c; simpl; try tauto. apply date_le_trans.
Qed.

Lemma earliest_loop_some ts d0 :
  exists d, earliest_loop ts (Some d0) = Some d
            /\ (d = d0 \/ exists x, In x ts /\ Task.due_date x = d)
            /\ date_le d d0
            /\ forall x, In x ts -> date_le d (Task.due_date x).
Proof.
  revert d0; induction ts as [|y ts IH]; intros d0; simpl.
  - exists d0. repeat split; auto using date_le_refl. intros x [].
  - destruct (date_ltb (Task.due_date y) d0) eqn:E.
    + destruct (IH (Task.due_date y)) as (d & Hd & Hin & Hle & Hall).
      exists d. repeat split; [assumption| | |].
      * right. destruct Hin as [->|(x & Hx & Ex)]; eauto.
      * apply date_ltb_lt in E. eapply date_le_trans; [exact Hle|].
        apply date_lt_le; assumption.
      * intros x [<-|Hx]; auto.
    + destruct (IH d0) as (d & Hd & Hin & Hle & Hall).
      exists d. repeat split; [assumption| |assumption|].
      * destruct Hin as [->|(x & Hx & Ex)]; eauto.
      * intros x [<-|Hx]; auto. apply date_ltb_ge in E.
        eapply date_le_trans; eassumption.
Qed.

Lemma earliest_loop_is_earliest ts : is_earliest ts (earliest_loop ts None).
Proof.
  destruct ts as [|y ts]; simpl; [reflexivity|].
  destruct (earliest_loop_some ts (Task.due_date y)) as (d & Hd & Hin & Hle & Hall).
  rewrite Hd. simpl. split.
  - destruct Hin as [->|(x & Hx & Ex)]; eauto.
  - intros x [<-|Hx]; auto.
Qed.

(** Two earliest dates of the same tasks are each before the other. *)
Lemma is_earliest_le ts a b : is_earliest ts a -> is_earliest ts b -> opt_date_le a b.
Proof.
  destruct a as [a|], b as [b|]; simpl; auto.
  - intros [_ Ha] [(x & Hx & <-) _]. auto.
  - intros -> [(x & [] & _) _].
Qed.

Lemma entry_ok_make db e : entry_ok db (make_entry db e).
Proof. reflexivity. Qed.

Lemma entry_count_zero db x :
  entry_ok db x -> (earliest_due_date x = None <-> active_task_count x = 0).
Proof.
  intros ->. simpl. pose proof (earliest_loop_is_earliest (Objects.active db (employee x))) as H.
  destruct (Objects.active db (employee x)) as [|y ts]; simpl in *.
  - tauto.
  - destruct (earliest_loop_some ts (Task.due_date y)) as (d & Hd & _).
    rewrite Hd. split; discriminate.
Qed.

Lemma entry_before_trans a b c : entry_before a b -> entry_before b c -> entry_before a c.
Proof.
  unfold entry_before. intros [H1 H2] [H3 H4]. split; [lia|].
  intros E. eapply opt_date_le_trans; [apply H2|apply H4]; lia.
Qed.

Lemma key_lt_total db a b :
  entry_ok db a -> entry_ok db b -> exists c, key_lt (sort_key a) (sort_key b) = Ok c.
Proof.
  intros Ha Hb. unfold key_lt, sort_key; simpl.
  destruct (Z.eqb_spec (- Z.of_nat (active_task_count a)) (- Z.of_nat (active_task_count b)))
    as [E|E]; [|eexists; reflexivity].
  destruct (dos_eqb _ _); [eexists; reflexivity|].
  pose proof (entry_count_zero Ha) as Za. pose proof (entry_count_zero Hb) as Zb.
  destruct (earliest_due_date a), (earliest_due_date b); simpl; try (eexists; reflexivity).
  - assert (active_task_count b = 0) by (apply Zb; reflexivity).
    assert (active_task_count a = 0) by lia.
    apply Za in H0. discriminate.
  - assert (active_task_count a = 0) by (apply Za; reflexivity).
    assert (active_task_count b = 0) by lia.
    apply Zb in H0. discriminate.
Qed.

Lemma key_lt_true db a b :
  entry_ok db a -> entry_ok db b ->
  key_lt (sort_key a) (sort_key b) = Ok true -> entry_before a b.
Proof.
  intros Ha Hb. unfold key_lt, sort_key, entry_before; simpl.
  destruct (Z.eqb_spec (- Z.of_nat (active_task_count a)) (- Z.of_nat (active_task_count b)))
    as [E|E].
  - destruct (dos_eqb _ _) eqn:Q; [discriminate|].
    destruct (earliest_due_date a), (earliest_due_date b); simpl in *; try discriminate.
    + intros [= H]. apply date_ltb_lt in H. split; [lia|]. intros _. apply date_lt_le; assumption.
  - intros [= H]. apply Z.ltb_lt in H. split; lia.
Qed.

Lemma key_lt_false db a b :
  entry_ok db a -> entry_ok db b ->
  key_lt (sort_key a) (sort_key b) = Ok false -> entry_before b a.
Proof.
  intros Ha Hb. unfold key_lt, sort_key, entry_before; simpl.
  destruct (Z.eqb_spec (- Z.of_nat (active_task_count a)) (- Z.of_nat (active_task_count b)))
    as [E|E].
  - destruct (dos_eqb _ _) eqn:Q.
    + intros _. split; [lia|]. intros _.
      destruct (earliest_due_date a), (earliest_due_date b); simpl in *; try discriminate; auto.
      apply date_eqb_eq in Q. subst. apply date_le_refl.
    + destruct (earliest_due_date a), (earliest_due_date b); simpl in *; try discriminate.
      intros [= H]. apply date_ltb_ge in H. split; [lia|]. intros _. assumption.
  - intros [= H]. apply Z.ltb_ge in H. split; lia.
Qed.

Lemma employee_task_data_ok db es : Forall (entry_ok db) (map (make_entry db) es).
Proof.
  induction es; simpl; constructor; auto using entry_ok_make.
Qed.

(** The sort of the view never fails, and its result is the sorted
    arrangement of the entries of all employees. *)
Lemma sorted_employee_data db :
  exists s, PySort.sorted sort_key key_lt (map (make_entry db) (employees db)) = Ok s
            /\ Permutation (map (make_entry db) (employees db)) s
            /\ StronglySorted entry_before s.
Proof.
  pose proof (employee_task_data_ok db (employees db)) as Hall.
  destruct (sorted_total sort_key key_lt (P := entry_ok db) (@key_lt_total db) Hall) as [s Hs].
  exists s. split; [exact Hs|]. split.
  - eapply sorted_perm; exact Hs.
  - eapply sorted_sorted with (P := entry_ok db); eauto using key_lt_true, key_lt_false,
      entry_before_trans, key_lt_total.
Qed.

Lemma get_queryset_perm db :
  exists out, get_queryset db = Ok out /\ Permutation (employees db) out.
Proof.
  destruct (sorted_employee_data db) as (s & Hs & Hp & _).
  unfold get_queryset. rewrite Hs. simpl. eexists; split; [reflexivity|].
  apply (Permutation_map employee) in Hp. rewrite map_map in Hp. simpl in Hp.
  rewrite map_id in Hp. exact Hp.
Qed.

End Ranking.

Section RankingClaims.

Import BusyEmployeesListAPIView.

Lemma entry_before_ranked db a b :
  entry_ok db a -> entry_ok db b -> entry_before a b ->
  ranked_before db (employee a) (employee b).
Proof.
  intros Ha Hb [Hc Hd]. rewrite Ha, Hb in Hc, Hd. simpl in Hc, Hd.
  split; [exact Hc|]. intros E da db' Hda Hdb.
  eapply opt_date_le_trans.
  - eapply is_earliest_le; [exact Hda|apply earliest_loop_is_earliest].
  - eapply opt_date_le_trans; [apply Hd; exact E|].
    eapply is_earliest_le; [apply earliest_loop_is_earliest|exact Hdb].
Qed.

Lemma sorted_map_employee db s :
  Forall (entry_ok db) s -> StronglySorted entry_before s ->
  StronglySorted (ranked_before db) (map employee s).
Proof.
  intros Hok Hs. induction Hs as [|x s Hs IH Hall]; simpl; constructor.
  - apply IH. inversion Hok; assumption.
  - inversion Hok as [|? ? Hx Hok']; subst. rewrite Forall_map.
    rewrite Forall_forall in *. intros y Hy.
    apply entry_before_ranked; auto.
Qed.


(** C9: every employee appears in the busy-employees response, once for
    each of its rows, and an employee without active tasks is reported with
    [active_task_count] 0 and an empty list of tasks. *)
Theorem busy_employees_all_listed (db : DB) :
  exists out,
    BusyEmployeesList.list db = Ok out
    /\ Permutation (map (BusyEmployeeSerializer.to_representation db) (employees db)) out
    /\ forall e, In e (employees db) ->
         In (BusyEmployeeSerializer.to_representation db e) out
         /\ BusyEmployeeSerializer.id (BusyEmployeeSerializer.to_representation db e)
            = Employee.id e
         /\ ((forall x, In x (tasks db) -> ~ is_active e x) ->
             BusyEmployeeSerializer.active_task_count
               (BusyEmployeeSerializer.to_representation db e) = 0
             /\ BusyEmployeeSerializer.tasks
                  (BusyEmployeeSerializer.to_representation db e) = []).
Proof.
  destruct (get_queryset_perm db) as (qs & Hq & Hp).
  exists (map (BusyEmployeeSerializer.to_representation db) qs).
  unfold BusyEmployeesList.list. rewrite Hq. simpl.
  split; [reflexivity|]. split; [apply Permutation_map; exact Hp|].
  intros e He. split; [|split].
  - apply in_map. eapply Permutation_in; eassumption.
  - reflexivity.
  - intros Hnone. simpl.
    unfold BusyEmployeeSerializer.get_active_task_count, BusyEmployeeSerializer.get_tasks.
    assert (E : Objects.active db e = []).
    { destruct (Objects.active db e) as [|x l] eqn:E; [reflexivity|].
      exfalso. assert (Hx : In x (Objects.active db e)) by (rewrite E; left; reflexivity).
      apply active_In in Hx. destruct Hx as [Hx Ha]. exact (Hnone x Hx Ha). }
    rewrite E. split; reflexivity.
Qed.

(** C10: in the ranking the earliest due date of an employee is absent
    exactly when the employee has no active task; two employees with the
    same number of active tasks therefore both have a date or both have the
    string '9999-12-31' as second key component, the comparison of the keys
    of any two employees is defined, and the sort returns a result on every
    input. *)
Theorem busy_employees_sort_key_total (db : DB) :
  (forall e, earliest_due_date (make_entry db e) = None
             <-> active_task_count (make_entry db e) = 0)
  /\ (forall e1 e2,
        active_task_count (make_entry db e1) = active_task_count (make_entry db e2) ->
        (exists d1 d2, snd (sort_key (make_entry db e1)) = KDate d1
                       /\ snd (sort_key (make_entry db e2)) = KDate d2)
        \/ (snd (sort_key (make_entry db e1)) = KStr (u "9999-12-31")
            /\ snd (sort_key (make_entry db e2)) = KStr (u "9999-12-31")))
  /\ (forall e1 e2, exists c,
        key_lt (sort_key (make_entry db e1)) (sort_key (make_entry db e2)) = Ok c)
  /\ exists out, get_queryset db = Ok out.
Proof.
  split; [|split; [|split]].
  - intros e. apply entry_count_zero with (db := db). apply entry_ok_make.
  - intros e1 e2 E.
    pose proof (entry_count_zero (entry_ok_make db e1)) as Z1.
    pose proof (entry_count_zero (entry_ok_make db e2)) as Z2.
    unfold sort_key. cbn [snd].
    destruct (earliest_due_date (make_entry db e1)) as [d1|],
             (earliest_due_date (make_entry db e2)) as [d2|]; cbn [date_or_sentinel].
    + left; eauto.
    + exfalso. assert (H : active_task_count (make_entry db e2) = 0) by (apply Z2; reflexivity).
      rewrite <- E in H. apply Z1 in H. discriminate.
    + exfalso. assert (H : active_task_count (make_entry db e1) = 0) by (apply Z1; reflexivity).
      rewrite E in H. apply Z2 in H. discriminate.
    + right; split; reflexivity.
  - intros e1 e2. eapply key_lt_total; apply entry_ok_make.
  - destruct (get_queryset_perm db) as (out & H & _). eauto.
Qed.

End RankingClaims.

(** ** Important tasks *)

Lemma parents_In db x p :
  In p (Objects.parents db x) <-> In p (tasks db) /\ Task.parent_task x = Some (Task.id p).
Proof.
  unfold Objects.parents. destruct (Task.parent_task x) as [pid|].
  - rewrite filter_In, Nat.eqb_eq. split.
    + intros [H <-]. auto.
    + intros [H [= ->]]. auto.
  - simpl. split; [tauto|]. intros [_ H]; discriminate.
Qed.

(** C2: a task is in the important-tasks queryset if and only if its
    status is exactly "new" and it has a parent task whose status is exactly
    "in_progress"; a task without parent is never in it. *)
Theorem important_tasks_iff (db : DB) (x : Task.t) :
  (In x (ImportantTasksListAPIView.get_queryset db)
   <-> In x (tasks db)
       /\ Task.status x = u "new"
       /\ exists p, In p (tasks db)
                    /\ Task.parent_task x = Some (Task.id p)
                    /\ Task.status p = u "in_progress")
  /\ (Task.parent_task x = None -> ~ In x (ImportantTasksListAPIView.get_queryset db)).
Proof.
  assert (Hiff : In x (ImportantTasksListAPIView.get_queryset db)
   <-> In x (tasks db)
       /\ Task.status x = u "new"
       /\ exists p, In p (tasks db)
                    /\ Task.parent_task x = Some (Task.id p)
                    /\ Task.status p = u "in_progress").
  { unfold ImportantTasksListAPIView.get_queryset. rewrite in_flat_map. split.
    - intros (y & Hy & Hx). apply filter_In in Hy. destruct Hy as [Hy Hs].
      apply in_map_iff in Hx. destruct Hx as (p & -> & Hp).
      apply filter_In in Hp. destruct Hp as [Hp Hps].
      apply parents_In in Hp. destruct Hp as [Hp Hpar].
      apply str_eqb_eq in Hs, Hps. eauto 8.
    - intros (Hx & Hs & p & Hp & Hpar & Hps). exists x. split.
      + apply filter_In. split; [assumption|]. apply str_eqb_eq; assumption.
      + apply in_map_iff. exists p. split; [reflexivity|].
        apply filter_In. split; [apply parents_In; auto|]. apply str_eqb_eq; assumption. }
  split; [exact Hiff|].
  intros Hnone Hin. apply Hiff in Hin. destruct Hin as (_ & _ & p & _ & Hpar & _).
  congruence.
Qed.

(** ** Deleting rows *)

Lemma destroy_employee_state db pk :
  has_employee pk db = true ->
  EmployeeDestroyAPIView.destroy pk db = (Ok tt, Objects.delete_employee pk db).
Proof.
  intros H. unfold EmployeeDestroyAPIView.destroy, Generic.destroy. rewrite H. reflexivity.
Qed.

Lemma has_employee_In db e : In e (employees db) -> has_employee (Employee.id e) db = true.
Proof.
  intros H. unfold has_employee. apply existsb_exists. exists e.
  split; [assumption|apply Nat.eqb_refl].
Qed.

Lemma has_task_In db x : In x (tasks db) -> has_task (Task.id x) db = true.
Proof.
  intros H. unfold has_task. apply existsb_exists. exists x.
  split; [assumption|apply Nat.eqb_refl].
Qed.

(** C5: deleting an employee leaves every task that was assigned to the
    employee in the table, with [assigned_to] cleared and every other column
    as it was; no task is removed and the tasks of other employees are not
    touched. *)
Theorem delete_employee_keeps_tasks (db : DB) (e : Employee.t) (x : Task.t) :
  In e (employees db) ->
  In x (tasks db) ->
  Task.assigned_to x = Some (Employee.id e) ->
  let db' := snd (EmployeeDestroyAPIView.destroy (Employee.id e) db) in
  In (Task.Make (Task.id x) (Task.name x) (Task.description x) (Task.parent_task x)
                None (Task.due_date x) (Task.status x)) (tasks db')
  /\ map Task.id (tasks db') = map Task.id (tasks db)
  /\ (forall y, In y (tasks db) -> Task.assigned_to y <> Some (Employee.id e) ->
                In y (tasks db')).
Proof.
  intros He Hx Ha db'. subst db'.
  rewrite (destroy_employee_state _ _ (has_employee_In _ _ He)). simpl.
  split; [|split].
  - apply in_map_iff. exists x. split; [|assumption].
    rewrite Ha. simpl. rewrite Nat.eqb_refl. reflexivity.
  - rewrite map_map. apply map_ext. intros y.
    destruct (opt_nat_eqb _ _); reflexivity.
  - intros y Hy Hne. apply in_map_iff. exists y. split; [|assumption].
    destruct (opt_nat_eqb (Task.assigned_to y) (Some (Employee.id e))) eqn:E;
      [|reflexivity].
    apply opt_nat_eqb_eq in E. contradiction.
Qed.

(** C6, as stated, fails on a task that is its own parent: the task refers
    to the deleted task as its parent and is not left in the table. *)
Lemma delete_own_parent_removes_child :
  let p := Task.Make 1 (u "P") None (Some 1) None (Date 2024 9 1) (u "new") in
  In p (tasks self_parent_db)
  /\ Task.parent_task p = Some (Task.id p)
  /\ TaskDestroyAPIView.destroy (Task.id p) self_parent_db = (Ok tt, MkDB [] []).
Proof.
  cbv zeta. split; [left; reflexivity|]. split; reflexivity.
Qed.

(** C6: deleting a task leaves every other task that had it as parent in
    the table, with [parent_task] cleared and every other column as it was;
    only the deleted task leaves the table, and the tasks that did not refer
    to it are not touched. *)
Theorem delete_task_keeps_subtasks (db : DB) (p c : Task.t) :
  In p (tasks db) ->
  In c (tasks db) ->
  Task.parent_task c = Some (Task.id p) ->
  Task.id c <> Task.id p ->
  let db' := snd (TaskDestroyAPIView.destroy (Task.id p) db) in
  In (Task.Make (Task.id c) (Task.name c) (Task.description c) None
                (Task.assigned_to c) (Task.due_date c) (Task.status c)) (tasks db')
  /\ map Task.id (tasks db')
     = filter (fun i => negb (i =? Task.id p)) (map Task.id (tasks db))
  /\ (forall y, In y (tasks db) -> Task.parent_task y <> Some (Task.id p) ->
                Task.id y <> Task.id p -> In y (tasks db')).
Proof.
  intros Hp Hc Hpar Hne db'. subst db'.
  unfold TaskDestroyAPIView.destroy, Generic.destroy.
  rewrite (has_task_In _ _ Hp). simpl.
  split; [|split].
  - apply filter_In. split.
    + apply in_map_iff. exists c. split; [|assumption].
      rewrite Hpar. simpl. rewrite Nat.eqb_refl. reflexivity.
    + simpl. apply negb_true_iff, Nat.eqb_neq. assumption.
  - clear Hp Hc. induction (tasks db) as [|y l IH]; simpl; [reflexivity|].
    assert (E : Task.id (if opt_nat_eqb (Task.parent_task y) (Some (Task.id p))
                         then Task.set_parent_task None y else y) = Task.id y)
      by (destruct (opt_nat_eqb _ _); reflexivity).
    rewrite E. destruct (Task.id y =? Task.id p); simpl; rewrite ?E, IH; reflexivity.
  - intros y Hy Hnp Hny. apply filter_In. split.
    + apply in_map_iff. exists y. split; [|assumption].
      destruct (opt_nat_eqb (Task.parent_task y) (Some (Task.id p))) eqn:E; [|reflexivity].
      apply opt_nat_eqb_eq in E. contradiction.
    + apply negb_true_iff, Nat.eqb_neq. assumption.
Qed.

(** ** The task list: query parameters *)

Section TaskList.

Variable unicode_lower : str -> nat -> str.

Lemma insert_by_id_In x y l : In x (TaskListAPIView.insert_by_id y l) <-> x = y \/ In x l.
Proof.
  induction l as [|z l IH]; simpl.
  - intuition.
  - destruct (Task.id z <? Task.id y); simpl; rewrite ?IH; intuition.
Qed.

Lemma order_by_id_In x l : In x (TaskListAPIView.order_by_id l) <-> In x l.
Proof.
  unfold TaskListAPIView.order_by_id. induction l as [|y l IH]; simpl; [tauto|].
  rewrite insert_by_id_In, IH. intuition.
Qed.

Lemma opt_eqb_eq {A} (eqb : A -> A -> bool) (a b : option A) :
  (forall x y, eqb x y = true -> x = y) -> TaskListAPIView.opt_eqb eqb a b = true -> a = b.
Proof.
  intros H. destruct a, b; simpl; try discriminate; auto.
  intros E. apply H in E. congruence.
Qed.

Lemma row_eqb_eq a b : TaskListAPIView.row_eqb a b = true -> a = b.
Proof.
  destruct a, b. unfold TaskListAPIView.row_eqb; simpl.
  rewrite !andb_true_iff. intros [[[[[[H1 H2] H3] H4] H5] H6] H7].
  apply Nat.eqb_eq in H1. apply str_eqb_eq in H2, H7.
  apply opt_eqb_eq in H3; [|intros ? ?; apply str_eqb_eq].
  apply opt_nat_eqb_eq in H4, H5. apply date_eqb_eq in H6.
  congruence.
Qed.

Lemma distinct_In x l : In x (TaskListAPIView.distinct l) <-> In x l.
Proof.
  induction l as [|y l IH]; simpl; [tauto|].
  rewrite filter_In, IH. split.
  - intros [H|[H _]]; auto.
  - intros [H|H]; auto.
    destruct (TaskListAPIView.row_eqb x y) eqn:E.
    + left. symmetry. apply row_eqb_eq; assumption.
    + right. split; [assumption|reflexivity].
Qed.

Lemma subtasks_nonempty db x : Objects.subtasks db x <> [] <-> has_children db x.
Proof.
  unfold has_children, Objects.subtasks. split.
  - destruct (filter _ _) as [|c l] eqn:E; [congruence|]. intros _.
    assert (Hc : In c (c :: l)) by (left; reflexivity). rewrite <- E in Hc.
    apply filter_In in Hc. destruct Hc as [Hc Hp]. apply opt_nat_eqb_eq in Hp. eauto.
  - intros (c & Hc & Hp) E.
    assert (H : In c (filter (fun c => opt_nat_eqb (Task.parent_task c) (Some (Task.id x)))
                             (tasks db))).
    { apply filter_In. split; [assumption|]. apply opt_nat_eqb_eq; assumption. }
    rewrite E in H. destruct H.
Qed.

Lemma filter_subtasks_isnull_In db isnull qs x :
  In x (TaskListAPIView.filter_subtasks_isnull db isnull qs)
  <-> In x qs /\ (if isnull then ~ has_children db x else has_children db x).
Proof.
  unfold TaskListAPIView.filter_subtasks_isnull. destruct isnull.
  - rewrite filter_In, <- subtasks_nonempty.
    destruct (Objects.subtasks db x); split; intros [H1 H2]; split; auto; try congruence.
    exfalso. apply H2. discriminate.
  - rewrite in_flat_map, <- subtasks_nonempty. split.
    + intros (y & Hy & Hx). apply in_map_iff in Hx. destruct Hx as (c & -> & Hc).
      split; [assumption|]. intros E. rewrite E in Hc. destruct Hc.
    + intros [Hx Hne]. exists x. split; [assumption|].
      destruct (Objects.subtasks db x) as [|c l]; [congruence|]. left; reflexivity.
Qed.

Lemma filter_parent_task_isnull_In isnull qs x :
  In x (TaskListAPIView.filter_parent_task_isnull isnull qs)
  <-> In x qs /\ (if isnull then Task.parent_task x = None else Task.parent_task x <> None).
Proof.
  unfold TaskListAPIView.filter_parent_task_isnull. rewrite filter_In.
  destruct (Task.parent_task x), isnull; simpl; intuition congruence.
Qed.

(** The queryset of an accepted query: the tasks that meet what the two
    boolean parameters ask. *)
Lemma Ok_inj {A} (a b : A) : Ok a = Ok b -> a = b.
Proof. intros [= H]; exact H. Qed.

Lemma get_queryset_In db q out x :
  TaskListAPIView.get_queryset unicode_lower db q = Ok out ->
  (In x out <-> In x (tasks db) /\ subtasks_restriction unicode_lower db q x /\ has_parent_restriction unicode_lower q x).
Proof.
  unfold TaskListAPIView.get_queryset, subtasks_restriction, has_parent_restriction, flag.
  destruct (QueryParams.difference _ _); [|discriminate].
  intros H. apply Ok_inj in H. subst out.
  destruct (QueryParams.get (u "has_parent") q) as [hp|];
    destruct (QueryParams.get (u "subtasks") q) as [st|];
    try destruct (str_in (lower unicode_lower hp) [u "true"; u "1"]);
    try destruct (str_in (lower unicode_lower hp) [u "false"; u "0"]);
    try destruct (str_in (lower unicode_lower st) [u "true"; u "1"]);
    try destruct (str_in (lower unicode_lower st) [u "false"; u "0"]);
    rewrite ?filter_parent_task_isnull_In, ?distinct_In, ?filter_subtasks_isnull_In,
      ?order_by_id_In;
    cbv iota; tauto.
Qed.

Lemma flag_true v : In v [u "true"; u "1"] -> flag unicode_lower (Some v) = Some true.
Proof. intros [<-|[<-|[]]]; reflexivity. Qed.

Lemma flag_false v : In v [u "false"; u "0"] -> flag unicode_lower (Some v) = Some false.
Proof. intros [<-|[<-|[]]]; reflexivity. Qed.

(** C8: on an accepted task-list query, [subtasks] with the value true or 1
    restricts the result to the tasks that have at least one subtask, and
    with false or 0 to those that have none; [has_parent] with true or 1
    restricts it to the tasks whose parent reference is not null, and with
    false or 0 to those whose parent reference is null.  In each case the
    result holds exactly the tasks that also meet what the other parameter
    asks. *)
Theorem task_list_boolean_parameters (db : DB) (q : query_params) (out : list Task.t) :
  TaskListAPIView.get_queryset unicode_lower db q = Ok out ->
  (param_is q (u "subtasks") [u "true"; u "1"] ->
   forall x, In x out <-> In x (tasks db) /\ has_children db x /\ has_parent_restriction unicode_lower q x)
  /\ (param_is q (u "subtasks") [u "false"; u "0"] ->
      forall x, In x out
                <-> In x (tasks db) /\ ~ has_children db x /\ has_parent_restriction unicode_lower q x)
  /\ (param_is q (u "has_parent") [u "true"; u "1"] ->
      forall x, In x out
                <-> In x (tasks db) /\ Task.parent_task x <> None
                    /\ subtasks_restriction unicode_lower db q x)
  /\ (param_is q (u "has_parent") [u "false"; u "0"] ->
      forall x, In x out
                <-> In x (tasks db) /\ Task.parent_task x = None
                    /\ subtasks_restriction unicode_lower db q x).
Proof.
  intros Hq.
  split; [|split; [|split]]; intros (v & Hv & Hin) x;
    rewrite (@get_queryset_In db q out x Hq);
    unfold subtasks_restriction, has_parent_restriction.
  - rewrite Hv, (@flag_true v Hin). tauto.
  - rewrite Hv, (@flag_false v Hin). tauto.
  - rewrite Hv, (@flag_true v Hin). tauto.
  - rewrite Hv, (@flag_false v Hin). tauto.
Qed.

End TaskList.

(** ** Filter fields of the list endpoints *)

Lemma substring_app_l s a b : substring s a -> substring s (a ++ b).
Proof.
  intros (pre & post & ->). exists pre, (post ++ b). rewrite <- !app_assoc. reflexivity.
Qed.

Lemma substring_app_r s a b : substring s b -> substring s (a ++ b).
Proof.
  intros (pre & post & ->). exists (a ++ pre), post. rewrite <- !app_assoc. reflexivity.
Qed.

Lemma substring_refl s : substring s s.
Proof. exists [], []. rewrite app_nil_r. reflexivity. Qed.

Lemma join_substring sep x xs : In x xs -> substring x (join sep xs).
Proof.
  induction xs as [|y xs IH]; simpl; [tauto|].
  intros [->|H].
  - destruct xs; [apply substring_refl|]. apply substring_app_l, substring_refl.
  - destruct xs as [|z xs]; [destruct H|].
    apply substring_app_r, substring_app_r, IH, H.
Qed.

Lemma to_set_In x l : In x (QueryParams.to_set l) <-> In x l.
Proof.
  induction l as [|y l IH]; simpl; [tauto|].
  rewrite filter_In, IH. split.
  - intros [H|[H _]]; auto.
  - intros [H|H]; auto.
    destruct (str_eqb x y) eqn:E.
    + left. symmetry. apply str_eqb_eq; assumption.
    + right. split; [assumption|reflexivity].
Qed.

Lemma difference_In x a b : In x (QueryParams.difference a b) <-> In x a /\ ~ In x b.
Proof.
  unfold QueryParams.difference. rewrite filter_In, negb_true_iff, str_in_not_In. tauto.
Qed.

(** The part of C4 that the code has: the task list refuses a query that
    names a field outside the allowed ones, with one message that names every
    offending field and every allowed field, and returns no rows. *)
Lemma task_list_rejects_unknown_filter
      (unicode_lower : str -> nat -> str) (clean : str -> str -> result (Task.t -> bool))
      (db : DB) (q : query_params) (k : str) :
  offending q k ->
  exists msg,
    TaskListAPIView.get_queryset unicode_lower db q = Raise (ValidationError (Messages [msg]))
    /\ TaskListAPIView.list unicode_lower clean db q = Raise (ValidationError (Messages [msg]))
    /\ (forall k', offending q k' -> substring k' msg)
    /\ (forall a, In a TaskListAPIView.filterset_fields -> substring a msg).
Proof.
  intros Hk.
  assert (Hoff : forall k', offending q k' <->
            In k' (QueryParams.difference
                     (QueryParams.difference (QueryParams.keys q) [u "subtasks"; u "has_parent"])
                     (QueryParams.to_set TaskListAPIView.filterset_fields))).
  { intros k'. unfold offending, QueryParams.keys.
    rewrite !difference_In, !to_set_In. tauto. }
  unfold TaskListAPIView.list, TaskListAPIView.get_queryset.
  destruct (QueryParams.difference (QueryParams.difference _ _) _) as [|i invalid] eqn:E.
  - apply Hoff in Hk. destruct Hk.
  - eexists. split; [reflexivity|]. split; [reflexivity|]. split.
    + intros k' Hk'. apply Hoff in Hk'.
      apply substring_app_r, substring_app_l, join_substring. exact Hk'.
    + intros a Ha.
      do 4 apply substring_app_r. apply join_substring. apply to_set_In. exact Ha.
Qed.

Lemma employee_list_unfiltered (clean : str -> str -> result (Employee.t -> bool))
      (db : DB) (q : query_params) :
  (forall f, In f EmployeeListAPIView.filterset_fields -> QueryParams.get f q = None) ->
  EmployeeListAPIView.list clean db q = Ok (employees db).
Proof.
  unfold EmployeeListAPIView.list. generalize (employees db) as rows.
  induction EmployeeListAPIView.filterset_fields as [|f fs IH]; intros rows H; simpl.
  - reflexivity.
  - rewrite (H f (or_introl eq_refl)). apply IH. intros g Hg. apply H. right; exact Hg.
Qed.

(** C4: a query that names the field [invalid_field] is refused by the task
    list, with a message that names the field, but is answered by the
    employee list with all employees: the employee list does not check the
    names of the filter fields. *)
Theorem employee_list_accepts_unknown_filter
        (unicode_lower : str -> nat -> str)
        (clean_employee : str -> str -> result (Employee.t -> bool))
        (clean_task : str -> str -> result (Task.t -> bool)) (db : DB) :
  EmployeeListAPIView.list clean_employee db [(u "invalid_field", u "some_value")]
  = Ok (employees db)
  /\ exists msg,
       TaskListAPIView.list unicode_lower clean_task db [(u "invalid_field", u "some_value")]
       = Raise (ValidationError (Messages [msg]))
       /\ substring (u "invalid_field") msg.
Proof.
  split.
  - apply employee_list_unfiltered.
    intros f [<-|[<-|[<-|[]]]]; reflexivity.
  - assert (Hoff : offending [(u "invalid_field", u "some_value")] (u "invalid_field")).
    { split; [left; reflexivity|]. split.
      - intros [H|[H|[]]]; vm_compute in H; discriminate.
      - intros [H|[H|[H|[H|[]]]]]; vm_compute in H; discriminate. }
    destruct (task_list_rejects_unknown_filter unicode_lower clean_task db Hoff)
      as (msg & _ & Hl & Hall & _).
    exists msg. split; [exact Hl|]. apply Hall. exact Hoff.
Qed.

(** ** Field validation *)

Lemma run_validation_value {A} (o : options) (convert : json -> outcome A)
      (partial : bool) (data : option json) :
  (forall v, convert v <> Value None) ->
  allow_null o = false \/ data <> Some JNull ->
  run_validation o convert partial data <> Value None.
Proof.
  intros Hc H. unfold run_validation. destruct data as [[]|]; try apply Hc.
  - destruct (allow_null o); [destruct H; congruence|discriminate].
  - destruct partial; [discriminate|]. destruct (required o); discriminate.
Qed.

Lemma run_validation_null {A} (o : options) (convert : json -> outcome A) (partial : bool) :
  allow_null o = true -> run_validation o convert partial (Some JNull) = Value None.
Proof. intros H. unfold run_validation. rewrite H. reflexivity. Qed.

Lemma CharField_value o max_length validators partial data :
  allow_null o = false \/ data <> Some JNull ->
  CharField o max_length validators partial data <> Value None.
Proof.
  apply run_validation_value. intros v. cbv beta.
  destruct (strip (str_of v)) as [|c s]; [destruct (allow_blank o); discriminate|].
  destruct v; cbv iota zeta; try discriminate;
    destruct (max_length_errors max_length (c :: s) ++ validators (c :: s)); discriminate.
Qed.

Lemma DateField_value o parse_date partial data :
  allow_null o = false \/ data <> Some JNull ->
  DateField o parse_date partial data <> Value None.
Proof.
  apply run_validation_value. intros v. cbv beta zeta.
  destruct v; try discriminate. destruct (parse_date s); discriminate.
Qed.

Section Validation.

Variable unicode_alpha : char -> bool.
Variable today : date.
Variable validators : str -> str -> list str.
Variable parse_date : str -> option date.
Variable get_task : json -> nat + list str.
Variable get_employee : json -> nat + list str.

Lemma isalpha_alphabetic_only s : isalpha unicode_alpha s = true <-> alphabetic_only unicode_alpha s.
Proof.
  unfold isalpha, alphabetic_only. destruct s as [|c s].
  - split; [discriminate|]. intros [H _]. congruence.
  - rewrite forallb_forall, Forall_forall. split.
    + intros H. split; [discriminate|exact H].
    + intros [_ H]; exact H.
Qed.

(** A field with a validator of the form "raise the message when the value
    is bad, otherwise return the value", on a value that is not null. *)
Lemma run_field_checked {A} (name msg : str) (e : exn) (badb : A -> bool) (bad : A -> Prop)
      (validate : A -> result A) (field : outcome A) :
  (forall x, validate x = if badb x then Raise (ValidationError (Messages [msg])) else Ok x) ->
  (forall x, badb x = true <-> bad x) ->
  field <> Value None ->
  exists v errs,
    run_field name field (Some (on_value e validate)) = Ok (v, errs)
    /\ (forall f det, In (f, det) errs <-> field_report name field bad msg f det)
    /\ (errs = [] -> v = validated_value field).
Proof.
  intros Hv Hb Hn. unfold field_report, field_refusal, field_violation.
  destruct field as [|messages|[x|]]; [| | |congruence]; cbn [run_field on_value].
  - do 2 eexists. split; [reflexivity|]. split; [|reflexivity].
    intros f det. simpl. split; [tauto|].
    intros [(_ & ms & H & _)|(_ & (x & H & _) & _)]; discriminate.
  - do 2 eexists. split; [reflexivity|]. split; [|discriminate].
    intros f det. simpl. split.
    + intros [[= <- <-]|[]]. left. split; [reflexivity|]. eexists; split; reflexivity.
    + intros [(-> & ms & [= <-] & ->)|(_ & (x & H & _) & _)]; [left; reflexivity|discriminate].
  - rewrite Hv. destruct (badb x) eqn:E; cbn [Py.bind].
    + do 2 eexists. split; [reflexivity|]. split; [|discriminate].
      intros f det. simpl. split.
      * intros [[= <- <-]|[]]. right. split; [reflexivity|]. split; [|reflexivity].
        exists x. split; [reflexivity|]. apply Hb; exact E.
      * intros [(_ & ms & H & _)|(-> & _ & ->)]; [discriminate|left; reflexivity].
    + do 2 eexists. split; [reflexivity|]. split; [|reflexivity].
      intros f det. simpl. split; [tauto|].
      intros [(_ & ms & H & _)|(_ & (y & [= <-] & Hy) & _)]; [discriminate|].
      apply Hb in Hy. congruence.
Qed.

(** A field without a validator. *)
Lemma run_field_plain {A} (name : str) (field : outcome A) :
  exists v errs,
    run_field name field None = Ok (v, errs)
    /\ (forall f det, In (f, det) errs <-> field_refusal name field f det)
    /\ (errs = [] -> v = validated_value field).
Proof.
  unfold field_refusal. destruct field as [|messages|x]; cbn [run_field].
  - do 2 eexists. split; [reflexivity|]. split; [|reflexivity].
    intros f det. simpl. split; [tauto|]. intros (_ & ms & H & _); discriminate.
  - do 2 eexists. split; [reflexivity|]. split; [|discriminate].
    intros f det. simpl. split.
    + intros [[= <- <-]|[]]. split; [reflexivity|]. eexists; split; reflexivity.
    + intros (-> & ms & [= <-] & ->). left; reflexivity.
  - do 2 eexists. split; [reflexivity|]. split; [|reflexivity].
    intros f det. simpl. split; [tauto|]. intros (_ & ms & H & _); discriminate.
Qed.

Lemma not_alpha_bad x : negb (isalpha unicode_alpha x) = true <-> ~ alphabetic_only unicode_alpha x.
Proof.
  rewrite negb_true_iff, <- isalpha_alphabetic_only.
  destruct (isalpha unicode_alpha x); split; congruence.
Qed.

(** The end of [to_internal_value]: the validated data when no field left
    an error, otherwise the errors. *)
Lemma validated_of_errors {V} (report : str -> detail -> Prop) (v v' : V)
      (errs : list (str * detail)) :
  (forall f det, In (f, det) errs <-> report f det) ->
  (errs = [] -> v' = v) ->
  validated report v
    match errs with
    | [] => Ok v'
    | p :: errors => Raise (ValidationError (Fields (p :: errors)))
    end.
Proof.
  intros Hin Hv. destruct errs as [|p errs].
  - left. split.
    + intros f det H. apply Hin in H. destruct H.
    + rewrite (Hv eq_refl). reflexivity.
  - right. exists (p :: errs). split; [reflexivity|]. split; [discriminate|exact Hin].
Qed.

Lemma last_name_field_value html partial d :
  EmployeeSerializer.last_name_field validators html partial d <> Value None.
Proof. apply CharField_value. left; reflexivity. Qed.

Lemma first_name_field_value html partial d :
  EmployeeSerializer.first_name_field validators html partial d <> Value None.
Proof. apply CharField_value. left; reflexivity. Qed.

Lemma due_date_field_value html partial d :
  TaskSerializer.due_date_field parse_date html partial d <> Value None.
Proof. apply DateField_value. left; reflexivity. Qed.

(** When the body gives null: a JSON null, or for the hire date the empty
    string of a form. *)
Lemma middle_name_field_null html partial d :
  EmployeeSerializer.middle_name_field validators html partial d = Value None
  <-> EmployeeSerializer.middle_name d = Some JNull.
Proof.
  unfold EmployeeSerializer.middle_name_field. cbv zeta. split.
  - intros H. destruct (EmployeeSerializer.middle_name d) as [j|] eqn:E.
    + destruct j; [reflexivity|exfalso..];
        (eapply CharField_value; [|exact H]); right;
        try discriminate.
      destruct s; [destruct html|]; discriminate.
    + exfalso. eapply CharField_value; [|exact H]. right. discriminate.
  - intros ->. reflexivity.
Qed.

Lemma hired_date_field_null html partial d :
  EmployeeSerializer.hired_date_field parse_date html partial d = Value None
  <-> EmployeeSerializer.hired_date d = Some JNull
      \/ (html = true /\ EmployeeSerializer.hired_date d = Some (JString [])).
Proof.
  unfold EmployeeSerializer.hired_date_field. cbv zeta. split.
  - intros H. destruct (EmployeeSerializer.hired_date d) as [j|] eqn:E.
    + destruct j; [left; reflexivity|..|exfalso|exfalso|exfalso];
        try (eapply DateField_value; [|exact H]; right; discriminate).
      destruct s; [destruct html; [right; split; reflexivity|]|]; exfalso;
        (eapply DateField_value; [|exact H]); right; discriminate.
    + exfalso. eapply DateField_value; [|exact H]. right. discriminate.
  - intros [->|[-> ->]]; reflexivity.
Qed.

Lemma no_null_fields html partial d :
  no_null html d ->
  EmployeeSerializer.middle_name_field validators html partial d <> Value None
  /\ EmployeeSerializer.hired_date_field parse_date html partial d <> Value None.
Proof.
  intros (Hm & Hh & Hf). split.
  - rewrite middle_name_field_null. exact Hm.
  - rewrite hired_date_field_null. intros [H|H]; [exact (Hh H)|exact (Hf H)].
Qed.

Lemma employee_to_internal_value html partial d :
  no_null html d ->
  validated (employee_report unicode_alpha today validators parse_date html partial d)
            (employee_validated validators parse_date html partial d)
            (EmployeeSerializer.to_internal_value unicode_alpha today validators parse_date
                                                  html partial d).
Proof.
  intros Hn. destruct (no_null_fields partial Hn) as [Hm Hh].
  unfold EmployeeSerializer.to_internal_value.
  destruct (@run_field_checked _ (u "last_name") (u "Фамилия должна содержать только буквы.")
              AttributeError (fun x => negb (isalpha unicode_alpha x)) _
              (EmployeeSerializer.validate_last_name unicode_alpha)
              (EmployeeSerializer.last_name_field validators html partial d)
              (fun x => eq_refl) not_alpha_bad (last_name_field_value html partial d))
    as (ln & e1 & -> & H1 & N1).
  destruct (@run_field_checked _ (u "first_name") (u "Имя должно содержать только буквы.")
              AttributeError (fun x => negb (isalpha unicode_alpha x)) _
              (EmployeeSerializer.validate_first_name unicode_alpha)
              (EmployeeSerializer.first_name_field validators html partial d)
              (fun x => eq_refl) not_alpha_bad (first_name_field_value html partial d))
    as (fn & e2 & -> & H2 & N2).
  destruct (@run_field_checked _ (u "middle_name") (u "Отчество должно содержать только буквы.")
              AttributeError (fun x => negb (isalpha unicode_alpha x)) _
              (EmployeeSerializer.validate_middle_name unicode_alpha)
              (EmployeeSerializer.middle_name_field validators html partial d)
              (fun x => eq_refl) not_alpha_bad Hm)
    as (mn & e3 & -> & H3 & N3).
  destruct (@run_field_plain _ (u "position")
              (EmployeeSerializer.position_field validators html partial d))
    as (ps & e4 & -> & H4 & N4).
  destruct (@run_field_plain _ (u "department")
              (EmployeeSerializer.department_field validators html partial d))
    as (dp & e5 & -> & H5 & N5).
  destruct (@run_field_checked _ (u "hired_date")
              (u "Дата приема на работу не может быть в будущем.")
              TypeError (fun x => date_ltb today x) _
              (EmployeeSerializer.validate_hired_date today)
              (EmployeeSerializer.hired_date_field parse_date html partial d)
              (fun x => eq_refl) (date_ltb_lt today) Hh)
    as (hd & e6 & -> & H6 & N6).
  cbn [Py.bind].
  apply validated_of_errors.
  - intros f det. unfold employee_report.
    rewrite !in_app_iff, H1, H2, H3, H4, H5, H6. reflexivity.
  - intros E.
    apply app_eq_nil in E. destruct E as [E1 E].
    apply app_eq_nil in E. destruct E as [E2 E].
    apply app_eq_nil in E. destruct E as [E3 E].
    apply app_eq_nil in E. destruct E as [E4 E].
    apply app_eq_nil in E. destruct E as [E5 E6].
    rewrite (N1 E1), (N2 E2), (N3 E3), (N4 E4), (N5 E5), (N6 E6). reflexivity.
Qed.

Lemma task_to_internal_value html partial d :
  validated (task_report today validators parse_date get_task get_employee html partial d)
            (task_validated validators parse_date get_task get_employee html partial d)
            (TaskSerializer.to_internal_value today validators parse_date get_task get_employee
                                              html partial d).
Proof.
  unfold TaskSerializer.to_internal_value.
  destruct (@run_field_plain _ (u "name") (TaskSerializer.name_field validators html partial d))
    as (nm & e1 & -> & H1 & N1).
  destruct (@run_field_plain _ (u "description")
              (TaskSerializer.description_field validators html partial d))
    as (ds & e2 & -> & H2 & N2).
  destruct (@run_field_plain _ (u "parent_task")
              (TaskSerializer.parent_task_field get_task html partial d))
    as (pt & e3 & -> & H3 & N3).
  destruct (@run_field_plain _ (u "assigned_to")
              (TaskSerializer.assigned_to_field get_employee html partial d))
    as (asg & e4 & -> & H4 & N4).
  destruct (@run_field_checked _ (u "due_date")
              (u "Срок выполнения задачи не может быть в прошлом.")
              TypeError (fun x => date_ltb x today) _
              (TaskSerializer.validate_due_date today)
              (TaskSerializer.due_date_field parse_date html partial d)
              (fun x => eq_refl) (fun x => date_ltb_lt x today)
              (due_date_field_value html partial d))
    as (dd & e5 & -> & H5 & N5).
  destruct (@run_field_plain _ (u "status") (TaskSerializer.status_field html partial d))
    as (st & e6 & -> & H6 & N6).
  cbn [Py.bind].
  apply validated_of_errors.
  - intros f det. unfold task_report.
    rewrite !in_app_iff, H1, H2, H3, H4, H5, H6. reflexivity.
  - intros E.
    apply app_eq_nil in E. destruct E as [E1 E].
    apply app_eq_nil in E. destruct E as [E2 E].
    apply app_eq_nil in E. destruct E as [E3 E].
    apply app_eq_nil in E. destruct E as [E4 E].
    apply app_eq_nil in E. destruct E as [E5 E6].
    rewrite (N1 E1), (N2 E2), (N3 E3), (N4 E4), (N5 E5), (N6 E6). reflexivity.
Qed.

(** A null middle name reaches [validate_middle_name], whose [value.isalpha()]
    raises; the errors of the fields before it are lost. *)
Lemma null_middle_name_raises html partial d :
  EmployeeSerializer.middle_name_field validators html partial d = Value None ->
  EmployeeSerializer.to_internal_value unicode_alpha today validators parse_date html partial d
  = Raise AttributeError.
Proof.
  intros Hm. unfold EmployeeSerializer.to_internal_value.
  destruct (@run_field_checked _ (u "last_name") (u "Фамилия должна содержать только буквы.")
              AttributeError (fun x => negb (isalpha unicode_alpha x)) _
              (EmployeeSerializer.validate_last_name unicode_alpha)
              (EmployeeSerializer.last_name_field validators html partial d)
              (fun x => eq_refl) not_alpha_bad (last_name_field_value html partial d))
    as (ln & e1 & -> & _).
  destruct (@run_field_checked _ (u "first_name") (u "Имя должно содержать только буквы.")
              AttributeError (fun x => negb (isalpha unicode_alpha x)) _
              (EmployeeSerializer.validate_first_name unicode_alpha)
              (EmployeeSerializer.first_name_field validators html partial d)
              (fun x => eq_refl) not_alpha_bad (first_name_field_value html partial d))
    as (fn & e2 & -> & _).
  rewrite Hm. reflexivity.
Qed.

(** A null hire date reaches [validate_hired_date], whose comparison
    raises. *)
Lemma null_hired_date_raises html partial d :
  EmployeeSerializer.middle_name_field validators html partial d <> Value None ->
  EmployeeSerializer.hired_date_field parse_date html partial d = Value None ->
  EmployeeSerializer.to_internal_value unicode_alpha today validators parse_date html partial d
  = Raise TypeError.
Proof.
  intros Hm Hh. unfold EmployeeSerializer.to_internal_value.
  destruct (@run_field_checked _ (u "last_name") (u "Фамилия должна содержать только буквы.")
              AttributeError (fun x => negb (isalpha unicode_alpha x)) _
              (EmployeeSerializer.validate_last_name unicode_alpha)
              (EmployeeSerializer.last_name_field validators html partial d)
              (fun x => eq_refl) not_alpha_bad (last_name_field_value html partial d))
    as (ln & e1 & -> & _).
  destruct (@run_field_checked _ (u "first_name") (u "Имя должно содержать только буквы.")
              AttributeError (fun x => negb (isalpha unicode_alpha x)) _
              (EmployeeSerializer.validate_first_name unicode_alpha)
              (EmployeeSerializer.first_name_field validators html partial d)
              (fun x => eq_refl) not_alpha_bad (first_name_field_value html partial d))
    as (fn & e2 & -> & _).
  destruct (@run_field_checked _ (u "middle_name") (u "Отчество должно содержать только буквы.")
              AttributeError (fun x => negb (isalpha unicode_alpha x)) _
              (EmployeeSerializer.validate_middle_name unicode_alpha)
              (EmployeeSerializer.middle_name_field validators html partial d)
              (fun x => eq_refl) not_alpha_bad Hm)
    as (mn & e3 & -> & _).
  destruct (@run_field_plain _ (u "position")
              (EmployeeSerializer.position_field validators html partial d))
    as (ps & e4 & -> & _).
  destruct (@run_field_plain _ (u "department")
              (EmployeeSerializer.department_field validators html partial d))
    as (dp & e5 & -> & _).
  rewrite Hh. reflexivity.
Qed.

End Validation.

(** ** Creating and updating rows *)

Lemma create_gated {D V} (report : str -> detail -> Prop) (tiv : bool -> bool -> D -> result V)
      (write : V -> DB -> DB) (v : V) (html : bool) (d : D) (db : DB) :
  validated report v (tiv html false d) ->
  write_gated report v write db (Generic.create tiv write html d db).
Proof.
  unfold Generic.create. intros [[Hn ->]|(errs & -> & Hne & Hin)].
  - left. split; [exact Hn|reflexivity].
  - right. exists errs. split; [reflexivity|]. split; assumption.
Qed.

Lemma update_gated {D V} (report : str -> detail -> Prop) (tiv : bool -> bool -> D -> result V)
      (has_object : nat -> DB -> bool) (write : nat -> V -> DB -> DB)
      (v : V) (pk : nat) (html partial : bool) (d : D) (db : DB) :
  has_object pk db = true ->
  validated report v (tiv html partial d) ->
  write_gated report v (write pk) db (Generic.update tiv has_object write pk html partial d db).
Proof.
  unfold Generic.update. intros -> [[Hn ->]|(errs & -> & Hne & Hin)].
  - left. split; [exact Hn|reflexivity].
  - right. exists errs. split; [reflexivity|]. split; assumption.
Qed.

(** C7, as stated, fails in both directions on the checks of the framework.
    The body of [test_employee_create] without [position] keeps the three
    rules (alphabetic names, a hire date that is not after today) and is
    refused for the missing field; and a first name with a space after it
    is not an alphabetic-only string, yet the request is accepted, the name
    being stored trimmed. *)
Lemma request_within_rules_refused :
  (alphabetic_only TestData.cyrillic_alpha (u "Сидоров")
   /\ alphabetic_only TestData.cyrillic_alpha (u "Алексей")
   /\ alphabetic_only TestData.cyrillic_alpha (u "Игоревич")
   /\ TestData.parse_date (u "2022-02-01") = Some (Date 2022 2 1)
   /\ date_le (Date 2022 2 1) TestData.today
   /\ EmployeeCreateAPIView_create
        TestData.cyrillic_alpha TestData.today TestData.no_errors TestData.parse_date
        TestData.insert_employee false TestData.without_position TestData.busy_db
      = (Raise (ValidationError
                  (Fields [(u "position", Messages [u "This field is required."])])),
         TestData.busy_db))
  /\ (~ alphabetic_only TestData.cyrillic_alpha (u "Алексей ")
      /\ option_map EmployeeSerializer.Validated.first_name
           (match EmployeeCreateAPIView_create
                    TestData.cyrillic_alpha TestData.today TestData.no_errors
                    TestData.parse_date TestData.insert_employee false
                    (TestData.employee_request "Алексей " "Сидоров" "Игоревич" "Менеджер"
                                               "Маркетинг" "2022-02-01")
                    TestData.busy_db with
            | (Ok v, _) => Some v
            | _ => None
            end)
         = Some (Some (Some (u "Алексей")))
      /\ map Employee.first_name
           (employees
              (snd (EmployeeCreateAPIView_create
                      TestData.cyrillic_alpha TestData.today TestData.no_errors
                      TestData.parse_date TestData.insert_employee false
                      (TestData.employee_request "Алексей " "Сидоров" "Игоревич" "Менеджер"
                                                 "Маркетинг" "2022-02-01")
                      TestData.busy_db)))
         = [u "Иван"; u "Петр"; u "Анна"; u "Алексей"]).
Proof.
  split; [|split; [|split]].
  - split; [apply isalpha_alphabetic_only; vm_compute; reflexivity|].
    split; [apply isalpha_alphabetic_only; vm_compute; reflexivity|].
    split; [apply isalpha_alphabetic_only; vm_compute; reflexivity|].
    split; [vm_compute; reflexivity|].
    split; [apply date_ltb_ge; vm_compute; reflexivity|].
    vm_compute; reflexivity.
  - apply not_alpha_bad. vm_compute; reflexivity.
  - vm_compute; reflexivity.
  - vm_compute; reflexivity.
Qed.

(** C7, as the code has it: the framework first runs each field of a create
    or update request (required, null, blank, trimming, length, format,
    choice, related row).  When neither the middle name nor the hire date is
    given as null, the request is refused exactly when the framework refuses
    a field or the value of a field breaks its rule: a name that is not an
    alphabetic-only string, a hire date after today, a due date before today.
    The answer then holds, under the name of each such field, the messages
    of the framework or the message of the rule, and the persisted state is
    unchanged; otherwise the validated data is written. *)
Theorem field_validation_gates_writes
        (unicode_alpha : char -> bool) (today : date)
        (validators : str -> str -> list str) (parse_date : str -> option date)
        (get_task get_employee : json -> nat + list str)
        (save_new_employee : EmployeeSerializer.Validated.t -> DB -> DB)
        (save_employee : nat -> EmployeeSerializer.Validated.t -> DB -> DB)
        (save_new_task : TaskSerializer.Validated.t -> DB -> DB)
        (save_task : nat -> TaskSerializer.Validated.t -> DB -> DB)
        (db : DB) :
  (forall html d,
      no_null html d ->
      write_gated (employee_report unicode_alpha today validators parse_date html false d)
        (employee_validated validators parse_date html false d) save_new_employee db
        (EmployeeCreateAPIView_create unicode_alpha today validators parse_date
                                      save_new_employee html d db))
  /\ (forall pk html partial d,
         has_employee pk db = true ->
         no_null html d ->
         write_gated (employee_report unicode_alpha today validators parse_date html partial d)
           (employee_validated validators parse_date html partial d) (save_employee pk) db
           (EmployeeUpdateAPIView_update unicode_alpha today validators parse_date
                                         save_employee pk html partial d db))
  /\ (forall html d,
         write_gated (task_report today validators parse_date get_task get_employee html false d)
           (task_validated validators parse_date get_task get_employee html false d)
           save_new_task db
           (TaskCreateAPIView_create today validators parse_date get_task get_employee
                                     save_new_task html d db))
  /\ (forall pk html partial d,
         has_task pk db = true ->
         write_gated
           (task_report today validators parse_date get_task get_employee html partial d)
           (task_validated validators parse_date get_task get_employee html partial d)
           (save_task pk) db
           (TaskUpdateAPIView_update today validators parse_date get_task get_employee
                                     save_task pk html partial d db)).
Proof.
  split; [|split; [|split]].
  - intros html d H. apply create_gated, employee_to_internal_value; exact H.
  - intros pk html partial d H Hn.
    apply update_gated; [exact H|apply employee_to_internal_value; exact Hn].
  - intros html d. apply create_gated, task_to_internal_value.
  - intros pk html partial d H. apply update_gated; [exact H|apply task_to_internal_value].
Qed.

(** ** Potential employees of an important task *)

Section PotentialEmployees.

Import ImportantTaskSerializer.

Lemma min_loop_some db es a :
  exists m, min_loop db es (Some a) = Some m
            /\ m <= a
            /\ (forall e, In e es -> m <= task_count db e)
            /\ (m = a \/ exists e, In e es /\ task_count db e = m).
Proof.
  revert a; induction es as [|e es IH]; intros a; simpl.
  - exists a. repeat split; auto. intros e [].
  - destruct (Nat.ltb_spec (task_count db e) a) as [L|L].
    + destruct (IH (task_count db e)) as (m & Hm & Hle & Hall & Hex).
      exists m. repeat split; [assumption|lia| |].
      * intros e' [<-|H]; auto.
      * right. destruct Hex as [->|(e' & He' & E)]; eauto.
    + destruct (IH a) as (m & Hm & Hle & Hall & Hex).
      exists m. repeat split; [assumption|assumption| |].
      * intros e' [<-|H]; auto. lia.
      * destruct Hex as [->|(e' & He' & E)]; eauto.
Qed.

Lemma min_loop_is_min db es :
  es <> [] -> exists m, min_loop db es None = Some m /\ is_min_task_count db es m.
Proof.
  destruct es as [|e es]; [congruence|]. intros _. simpl.
  destruct (min_loop_some db es (task_count db e)) as (m & Hm & Hle & Hall & Hex).
  exists m. split; [assumption|]. split.
  - destruct Hex as [->|(e' & He' & E)].
    + exists e. split; [left; reflexivity|reflexivity].
    + exists e'. split; [right; assumption|assumption].
  - intros e' [<-|H]; auto.
Qed.

Lemma parent_task_employee_spec db task e :
  parent_task_employee db task e = true <-> assigned_subtask_of db task e.
Proof.
  unfold parent_task_employee, assigned_subtask_of. rewrite existsb_exists.
  split; intros (x & Hx & H); exists x; split; try assumption.
  - apply andb_true_iff in H. rewrite !opt_nat_eqb_eq in H. exact H.
  - apply andb_true_iff. rewrite !opt_nat_eqb_eq. exact H.
Qed.

Lemma select_loop_In db task m es acc lbl :
  In lbl (select_loop db task m es acc)
  <-> In lbl acc
      \/ exists e, In e es /\ suitable db task m e = true /\ employee_name e = lbl.
Proof.
  revert acc; induction es as [|e es IH]; intros acc; simpl.
  - split; [auto|]. intros [H|(e & [] & _)]. exact H.
  - rewrite IH. destruct (suitable db task m e) eqn:S.
    + destruct (str_in (employee_name e) acc) eqn:I; simpl.
      * apply str_in_In in I. split.
        -- intros [H|(e' & He' & H)]; eauto 6.
        -- intros [H|(e' & [<-|He'] & S' & <-)]; eauto 6.
      * rewrite in_app_iff. simpl. split.
        -- intros [[H|[<-|[]]]|(e' & He' & H)]; eauto 6.
        -- intros [H|(e' & [<-|He'] & S' & <-)]; eauto 6.
    + split.
      * intros [H|(e' & He' & H)]; eauto 6.
      * intros [H|(e' & [<-|He'] & S' & <-)]; eauto 6. congruence.
Qed.

(** What [get_potential_employees] computes when there is an employee: the
    labels of the employees whose number of assigned tasks is the least one,
    or who are assigned a subtask of the task and have at most two tasks more
    than the least number. *)
Lemma potential_employees_In db task lbl :
  employees db <> [] ->
  exists m,
    is_min_task_count db (employees db) m
    /\ (In lbl (get_potential_employees db task)
        <-> exists e, In e (employees db)
                      /\ employee_name e = lbl
                      /\ (task_count db e = m
                          \/ (assigned_subtask_of db task e /\ task_count db e <= m + 2))).
Proof.
  intros Hne. destruct (min_loop_is_min db Hne) as (m & Hm & Hmin).
  exists m. split; [exact Hmin|].
  unfold get_potential_employees. destruct (employees db) as [|e0 es] eqn:E; [congruence|].
  rewrite Hm, select_loop_In. simpl In at 1.
  split.
  - intros [[]|(e & He & S & L)]. exists e. split; [exact He|]. split; [exact L|].
    unfold suitable in S. apply orb_true_iff in S. destruct S as [S|S].
    + left. apply Nat.eqb_eq; exact S.
    + right. apply andb_true_iff in S. destruct S as [S1 S2].
      split; [apply parent_task_employee_spec; exact S1|apply Nat.leb_le; exact S2].
  - intros (e & He & L & S). right. exists e. split; [exact He|]. split; [|exact L].
    unfold suitable. apply orb_true_iff. destruct S as [S|[S1 S2]].
    + left. apply Nat.eqb_eq; exact S.
    + right. apply andb_true_iff.
      split; [apply parent_task_employee_spec; exact S1|apply Nat.leb_le; exact S2].
Qed.

(** The label of an employee ends with the employee's identity, so the
    labels of two employees are the same only if their identities are. *)
Lemma uint_digits d :
  Forall (fun c => is_digit c = true)
         (map N_of_ascii (list_ascii_of_string (NilEmpty.string_of_uint d))).
Proof.
  induction d; simpl; constructor; try reflexivity; assumption.
Qed.

Lemma to_lu_not_nil n : Unsigned.to_lu n <> Decimal.Nil.
Proof.
  destruct n as [|n]; simpl; [discriminate|].
  destruct (Unsigned.to_lu n); discriminate.
Qed.

Lemma str_of_nat_not_empty n : str_of_nat n <> [].
Proof.
  unfold str_of_nat. rewrite Unsigned.to_uint_alt.
  destruct (Decimal.rev (Unsigned.to_lu n)) eqn:E; simpl; try discriminate.
  apply DecimalFacts.rev_nil_inv in E. exfalso. exact (to_lu_not_nil n E).
Qed.

Lemma str_of_nat_inj n1 n2 : str_of_nat n1 = str_of_nat n2 -> n1 = n2.
Proof.
  unfold str_of_nat. intros H.
  apply (f_equal (map ascii_of_N)) in H. rewrite !map_map in H.
  rewrite !(map_ext _ (fun a => a) ascii_N_embedding), !map_id in H.
  apply (f_equal string_of_list_ascii) in H.
  rewrite !string_of_list_ascii_of_string in H.
  apply (f_equal NilEmpty.uint_of_string) in H. rewrite !NilEmpty.usu in H.
  injection H as H. apply Unsigned.to_uint_inj; exact H.
Qed.

Lemma digit_not_space c : is_digit c = true -> is_space c = false.
Proof.
  unfold is_digit. rewrite andb_true_iff, !N.leb_le. intros [H1 H2].
  destruct (is_space c) eqn:E; [|reflexivity]. exfalso.
  unfold is_space in E.
  rewrite !orb_true_iff, !andb_true_iff, !N.leb_le, !N.eqb_eq in E. lia.
Qed.

Lemma digit_not_colon d : Forall (fun c => is_digit c = true) d -> ~ In 58%N d.
Proof.
  intros H Hin. rewrite Forall_forall in H. apply H in Hin. discriminate.
Qed.

Lemma lstrip_app a c b : is_space c = false -> lstrip (a ++ c :: b) = lstrip a ++ c :: b.
Proof.
  intros Hc. induction a as [|x a IH]; simpl.
  - rewrite Hc. reflexivity.
  - destruct (is_space x); [exact IH|reflexivity].
Qed.

Lemma rstrip_last a c : is_space c = false -> rstrip (a ++ [c]) = a ++ [c].
Proof.
  intros Hc. unfold rstrip. rewrite rev_app_distr. simpl. rewrite Hc.
  simpl. rewrite rev_involutive. reflexivity.
Qed.

Lemma strip_before_digits (a rest d : str) (c0 : char) :
  is_space c0 = false -> d <> [] -> Forall (fun c => is_digit c = true) d ->
  strip (a ++ (c0 :: rest) ++ d) = lstrip a ++ (c0 :: rest) ++ d.
Proof.
  intros H0 Hd Hall. unfold strip. simpl. rewrite lstrip_app by exact H0.
  destruct (exists_last Hd) as (ds & c & ->).
  apply Forall_app in Hall. destruct Hall as [_ Hc].
  inversion Hc as [|? ? Hc' _]; subst.
  replace (lstrip a ++ c0 :: rest ++ ds ++ [c]) with ((lstrip a ++ c0 :: rest ++ ds) ++ [c])
    by (rewrite <- app_assoc; simpl; rewrite <- app_assoc; reflexivity).
  apply rstrip_last, digit_not_space, Hc'.
Qed.

Lemma employee_name_shape e :
  exists pre, employee_name e = pre ++ 58%N :: str_of_nat (Employee.id e).
Proof.
  unfold employee_name.
  change (u ". ID:") with (46%N :: [32; 73; 68; 58]%N).
  assert (E : forall a b c d e f g : str,
             a ++ b ++ c ++ d ++ e ++ f ++ g = (a ++ b ++ c ++ d ++ e) ++ f ++ g)
    by (intros; rewrite <- !app_assoc; reflexivity).
  rewrite E. rewrite strip_before_digits.
  - eexists (_ ++ [46; 32; 73; 68]%N). rewrite <- app_assoc. reflexivity.
  - reflexivity.
  - apply str_of_nat_not_empty.
  - apply uint_digits.
Qed.

Lemma after_last_colon (a1 a2 d1 d2 : str) :
  ~ In 58%N d1 -> ~ In 58%N d2 -> a1 ++ 58%N :: d1 = a2 ++ 58%N :: d2 -> d1 = d2.
Proof.
  intros H1 H2. revert a2; induction a1 as [|x a1 IH]; intros [|y a2]; simpl; intros E.
  - injection E as E; exact E.
  - injection E as _ E. exfalso. apply H1. rewrite E. apply in_or_app. right; left; reflexivity.
  - injection E as _ E. exfalso. apply H2. rewrite <- E. apply in_or_app. right; left; reflexivity.
  - injection E as _ E. apply IH with a2; exact E.
Qed.

Lemma employee_name_inj e1 e2 :
  employee_name e1 = employee_name e2 -> Employee.id e1 = Employee.id e2.
Proof.
  destruct (employee_name_shape e1) as (p1 & ->).
  destruct (employee_name_shape e2) as (p2 & ->).
  intros E. apply after_last_colon in E.
  - apply str_of_nat_inj; exact E.
  - apply digit_not_colon, uint_digits.
  - apply digit_not_colon, uint_digits.
Qed.

(** X1: for an employee of the table, its label is in the list of potential
    employees exactly when the number of its tasks is the least one, or it
    is assigned a subtask of the task and has at most two tasks more than the
    least number. *)
Lemma potential_employee_iff db task e :
  In e (employees db) ->
  exists m,
    is_min_task_count db (employees db) m
    /\ (In (employee_name e) (get_potential_employees db task)
        <-> task_count db e = m
            \/ (assigned_subtask_of db task e /\ task_count db e <= m + 2)).
Proof.
  intros He.
  assert (Hne : employees db <> []) by (intros E; rewrite E in He; destruct He).
  destruct (potential_employees_In db task (employee_name e) Hne) as (m & Hmin & Hiff).
  exists m. split; [exact Hmin|]. rewrite Hiff. split.
  - intros (e' & He' & L & S). apply employee_name_inj in L.
    unfold task_count, Objects.assigned, assigned_subtask_of in *.
    rewrite L in S. exact S.
  - intros S. exists e. auto.
Qed.

(** C1: on [parent_assignee_db] the important task is [important_task];
    Petrov is assigned its parent and has one task, the least number being 0,
    so that the claim lists him; the code lists Ivanov only. *)
Theorem potential_employees_misses_parent_assignee :
  ImportantTasksListAPIView.get_queryset parent_assignee_db = [important_task]
  /\ assigned_parent_of parent_assignee_db important_task petrov
  /\ is_min_task_count parent_assignee_db (employees parent_assignee_db) 0
  /\ task_count parent_assignee_db petrov = 1
  /\ get_potential_employees parent_assignee_db important_task = [employee_name ivanov]
  /\ ~ In (employee_name petrov)
          (get_potential_employees parent_assignee_db important_task).
Proof.
  split; [vm_compute; reflexivity|].
  split; [exists parent_in_progress; split; [left; reflexivity|split; reflexivity]|].
  split.
  { split.
    - exists ivanov. split; [left; reflexivity|reflexivity].
    - intros e _. apply Nat.le_0_l. }
  split; [reflexivity|].
  split; [vm_compute; reflexivity|].
  intros H. vm_compute in H. destruct H as [H|[]]. discriminate.
Qed.

End PotentialEmployees.

(** ** The test-suite, evaluated on the model *)

Section Tests.

Import TestData.

(** [test_busy_employees_list] *)
Example test_busy_employees_list :
  BusyEmployeesListAPIView.get_queryset busy_db = Ok [anna; ivan; petr]
  /\ option_map (map BusyEmployeeSerializer.active_task_count)
       (match BusyEmployeesList.list busy_db with Ok l => Some l | Raise _ => None end)
     = Some [2; 2; 1].
Proof. split; vm_compute; reflexivity. Qed.

(** [test_no_active_tasks] *)
Example test_no_active_tasks :
  BusyEmployeesListAPIView.get_queryset (MkDB [ivan; petr; anna] []) = Ok [ivan; petr; anna].
Proof. vm_compute; reflexivity. Qed.

(** [test_employees_with_equal_tasks] *)
Example test_employees_with_equal_tasks :
  BusyEmployeesListAPIView.get_queryset equal_tasks_db = Ok [anna; ivan; petr].
Proof. vm_compute; reflexivity. Qed.

(** [test_important_tasks_list] and [test_no_employees_available] *)
Example test_important_tasks_list :
  map Task.name (ImportantTasksListAPIView.get_queryset important_db) = [u "Важная задача"]
  /\ map ImportantTaskSerializer.potential_employees
         (ImportantTasksListAPIView.list important_db)
     = [[u "Иванов Иван . ID:1"]]
  /\ map ImportantTaskSerializer.potential_employees
         (ImportantTasksListAPIView.list (MkDB [] (tasks important_db)))
     = [[]].
Proof. repeat split; vm_compute; reflexivity. Qed.

(** [test_task_list_with_subtasks_filter_true] and
    [test_task_list_with_has_parent_filter_true] *)
Example test_task_list_filters :
  TaskListAPIView.get_queryset keep_case subtask_db [(u "subtasks", u "true")]
  = Ok [parent_row]
  /\ TaskListAPIView.get_queryset keep_case subtask_db [(u "has_parent", u "true")]
     = Ok [subtask_row]
  /\ TaskListAPIView.get_queryset keep_case subtask_db [(u "subtasks", u "True")]
     = Ok [parent_row].
Proof. repeat split; vm_compute; reflexivity. Qed.

(** [test_employee_invalid_first_name] and [test_employee_create] *)
Example test_employee_first_name :
  EmployeeSerializer.validate_first_name cyrillic_alpha (u "1234")
  = Raise (ValidationError (Messages [u "Имя должно содержать только буквы."]))
  /\ EmployeeSerializer.validate_first_name cyrillic_alpha (u "Алексей") = Ok (u "Алексей").
Proof. split; vm_compute; reflexivity. Qed.

(** [test_employee_create] and the four tests of an invalid field, on the
    form-encoded bodies the test client sends. *)
Example test_employee_validation :
  let run := EmployeeSerializer.to_internal_value
               cyrillic_alpha TestData.today no_errors TestData.parse_date true false in
  run (employee_request "Алексей" "Сидоров" "Игоревич" "Менеджер" "Маркетинг" "2022-02-01")
  = Ok (EmployeeSerializer.Validated.Make
          (Some (Some (u "Сидоров"))) (Some (Some (u "Алексей")))
          (Some (Some (u "Игоревич"))) (Some (Some (u "Менеджер")))
          (Some (Some (u "Маркетинг"))) (Some (Some (Date 2022 2 1))))
  /\ run (employee_request "1234" "Иванов" "Иванович" "Менеджер" "Маркетинг" "2022-02-01")
     = Raise (ValidationError
                (Fields [(u "first_name", Messages [u "Имя должно содержать только буквы."])]))
  /\ run (employee_request "Иван" "1234" "Иванович" "Менеджер" "Маркетинг" "2022-02-01")
     = Raise (ValidationError
                (Fields [(u "last_name",
                          Messages [u "Фамилия должна содержать только буквы."])]))
  /\ run (employee_request "Иван" "Иванов" "1234" "Менеджер" "Маркетинг" "2022-02-01")
     = Raise (ValidationError
                (Fields [(u "middle_name",
                          Messages [u "Отчество должно содержать только буквы."])]))
  /\ run (employee_request "Иван" "Иванов" "Иванович" "Менеджер" "Маркетинг" "2024-08-21")
     = Raise (ValidationError
                (Fields [(u "hired_date",
                          Messages [u "Дата приема на работу не может быть в будущем."])])).
Proof. cbv zeta. repeat split; vm_compute; reflexivity. Qed.

(** The checks of the framework on an employee: a blank first name, a body
    without fields, a PATCH without fields, a name of 32 letters, and the
    empty strings of a form for the middle name and the department. *)
Example employee_framework_checks :
  let run := EmployeeSerializer.to_internal_value
               cyrillic_alpha TestData.today no_errors TestData.parse_date in
  run false false
      (employee_request "" "Сидоров" "Игоревич" "Менеджер" "Маркетинг" "2022-02-01")
  = Raise (ValidationError
             (Fields [(u "first_name", Messages [u "This field may not be blank."])]))
  /\ run false false (EmployeeSerializer.Data None None None None None None)
     = Raise (ValidationError
                (Fields [(u "last_name", Messages [u "This field is required."]);
                         (u "first_name", Messages [u "This field is required."]);
                         (u "position", Messages [u "This field is required."])]))
  /\ run false true (EmployeeSerializer.Data None None None None None None)
     = Ok (EmployeeSerializer.Validated.Make None None None None None None)
  /\ run false false
         (employee_request "Алексей" "Абвгдежзийклмнопрстуфхцчшщъыьэюя" "Игоревич"
                           "Менеджер" "Маркетинг" "2022-02-01")
     = Raise (ValidationError
                (Fields [(u "last_name",
                          Messages [u "Ensure this field has no more than 30 characters."])]))
  /\ run true false
         (employee_request "Алексей" "Сидоров" "" "Менеджер" "" "2022-02-01")
     = Raise (ValidationError
                (Fields [(u "middle_name",
                          Messages [u "Отчество должно содержать только буквы."])])).
Proof. cbv zeta. repeat split; vm_compute; reflexivity. Qed.

(** [test_task_create] and [test_task_invalid_due_date], and a task body
    without the required fields. *)
Example test_task_validation :
  let run := TaskSerializer.to_internal_value
               TestData.today no_errors TestData.parse_date
               (get_row [1; 2]) (get_row [1]) true false in
  run (task_request "Тестовая задача" "Описание задачи" "1" "2024-09-15" "new")
  = Ok (TaskSerializer.Validated.Make
          (Some (Some (u "Тестовая задача"))) (Some (Some (u "Описание задачи")))
          None (Some (Some 1)) (Some (Some (Date 2024 9 15))) (Some (Some (u "new"))))
  /\ run (task_request "Тестовая задача" "Описание задачи" "1" "2024-08-19" "new")
     = Raise (ValidationError
                (Fields [(u "due_date",
                          Messages [u "Срок выполнения задачи не может быть в прошлом."])]))
  /\ run (TaskSerializer.Data None None None None None None)
     = Raise (ValidationError
                (Fields [(u "name", Messages [u "This field is required."]);
                         (u "due_date", Messages [u "This field is required."])])).
Proof. cbv zeta. repeat split; vm_compute; reflexivity. Qed.

End Tests.

(** ** Instances *)

(** Deleting Petr in the data of the busy-employees tests. *)
Lemma delete_employee_keeps_tasks_witness :
  In TestData.petr (employees TestData.busy_db)
  /\ In (TestData.task 3 "Задача 3" None None (Date 2024 9 15) "new")
        (tasks (snd (EmployeeDestroyAPIView.destroy 2 TestData.busy_db)))
  /\ map Task.id (tasks (snd (EmployeeDestroyAPIView.destroy 2 TestData.busy_db)))
     = [1; 2; 3; 4; 5].
Proof.
  assert (He : In TestData.petr (employees TestData.busy_db))
    by (right; left; reflexivity).
  split; [exact He|].
  destruct (@delete_employee_keeps_tasks TestData.busy_db TestData.petr
              (TestData.task 3 "Задача 3" None (Some 2) (Date 2024 9 15) "new") He)
    as (H1 & H2 & _).
  - right; right; left; reflexivity.
  - reflexivity.
  - split; [exact H1|exact H2].
Defined.

(** Deleting the parent task in the data of the subtask-filter tests. *)
Lemma delete_task_keeps_subtasks_witness :
  Task.parent_task TestData.subtask_row = Some (Task.id TestData.parent_row)
  /\ In (TestData.task 2 "Подзадача" None (Some 1) (Date 2024 9 2) "new")
        (tasks (snd (TaskDestroyAPIView.destroy 1 TestData.subtask_db)))
  /\ map Task.id (tasks (snd (TaskDestroyAPIView.destroy 1 TestData.subtask_db))) = [2].
Proof.
  split; [reflexivity|].
  destruct (@delete_task_keeps_subtasks TestData.subtask_db TestData.parent_row
              TestData.subtask_row)
    as (H1 & H2 & _).
  - left; reflexivity.
  - right; left; reflexivity.
  - reflexivity.
  - simpl. discriminate.
  - split; [exact H1|exact H2].
Defined.

(** The query [subtasks=true] on the data of the subtask-filter tests. *)
Lemma task_list_boolean_parameters_witness :
  TaskListAPIView.get_queryset TestData.keep_case TestData.subtask_db
    [(u "subtasks", u "true")] = Ok [TestData.parent_row]
  /\ forall x,
       In x [TestData.parent_row]
       <-> In x (tasks TestData.subtask_db)
           /\ has_children TestData.subtask_db x
           /\ has_parent_restriction TestData.keep_case [(u "subtasks", u "true")] x.
Proof.
  assert (H : TaskListAPIView.get_queryset TestData.keep_case TestData.subtask_db
                [(u "subtasks", u "true")] = Ok [TestData.parent_row])
    by (vm_compute; reflexivity).
  split; [exact H|].
  apply (@task_list_boolean_parameters TestData.keep_case TestData.subtask_db
           [(u "subtasks", u "true")] [TestData.parent_row] H).
  exists (u "true"). split; [reflexivity|left; reflexivity].
Defined.

(** The body of [test_employee_invalid_first_name], sent as JSON. *)
Lemma field_validation_gates_writes_witness :
  no_null false
          (TestData.employee_request "1234" "Иванов" "Иванович" "Менеджер" "Маркетинг"
                                     "2022-02-01")
  /\ write_gated
       (employee_report TestData.cyrillic_alpha TestData.today TestData.no_errors
                        TestData.parse_date false false
                        (TestData.employee_request "1234" "Иванов" "Иванович" "Менеджер"
                                                   "Маркетинг" "2022-02-01"))
       (employee_validated TestData.no_errors TestData.parse_date false false
                           (TestData.employee_request "1234" "Иванов" "Иванович" "Менеджер"
                                                      "Маркетинг" "2022-02-01"))
       TestData.insert_employee TestData.busy_db
       (EmployeeCreateAPIView_create
          TestData.cyrillic_alpha TestData.today TestData.no_errors TestData.parse_date
          TestData.insert_employee false
          (TestData.employee_request "1234" "Иванов" "Иванович" "Менеджер" "Маркетинг"
                                     "2022-02-01")
          TestData.busy_db).
Proof.
  assert (H : no_null false
                      (TestData.employee_request "1234" "Иванов" "Иванович" "Менеджер"
                                                 "Маркетинг" "2022-02-01"))
    by (split; [discriminate|split; [discriminate|intros [H _]; discriminate]]).
  split; [exact H|].
  exact (proj1 (@field_validation_gates_writes
                  TestData.cyrillic_alpha TestData.today TestData.no_errors
                  TestData.parse_date (TestData.get_row []) (TestData.get_row [])
                  TestData.insert_employee TestData.update_employee
                  (fun _ db => db) (fun _ _ db => db) TestData.busy_db)
               false _ H).
Defined.

(* ================================================================== *)
(** * Further properties *)

(** ** The list of potential employees *)

Section PotentialEmployeesList.

Import ImportantTaskSerializer.

Lemma select_loop_NoDup db task m es acc :
  NoDup acc -> NoDup (select_loop db task m es acc).
Proof.
  revert acc; induction es as [|e es IH]; intros acc Hacc; simpl; [exact Hacc|].
  apply IH. destruct (suitable db task m e); [|exact Hacc].
  destruct (str_in (employee_name e) acc) eqn:I; simpl; [exact Hacc|].
  apply str_in_not_In in I.
  apply NoDup_app; [exact Hacc|constructor; [intros []|constructor]|].
  intros a Ha [<-|[]]. exact (I Ha).
Qed.

Lemma employee_names_distinct es :
  unique_ids Employee.id es -> NoDup (map employee_name es).
Proof.
  unfold unique_ids. induction es as [|e es IH]; simpl; intros H; [constructor|].
  inversion H as [|? ? Hnot Hrest]; subst. constructor; [|apply IH; exact Hrest].
  intros Hin. apply in_map_iff in Hin. destruct Hin as (e' & E & He').
  apply employee_name_inj in E. apply Hnot. rewrite <- E. apply in_map; exact He'.
Qed.

Lemma select_loop_exact db task m es acc :
  NoDup (map employee_name es) ->
  (forall e, In e es -> ~ In (employee_name e) acc) ->
  select_loop db task m es acc
  = acc ++ map employee_name (filter (suitable db task m) es).
Proof.
  revert acc; induction es as [|e es IH]; intros acc Hnd Hacc; simpl.
  - rewrite app_nil_r. reflexivity.
  - inversion Hnd as [|? ? Hnot Hrest]; subst.
    destruct (suitable db task m e) eqn:S.
    + assert (I : str_in (employee_name e) acc = false)
        by (apply str_in_not_In, Hacc; left; reflexivity).
      rewrite I. simpl. rewrite IH; [rewrite <- app_assoc; reflexivity|exact Hrest|].
      intros e' He' Hin. apply in_app_or in Hin. destruct Hin as [Hin|[E|[]]].
      * apply (Hacc e'); [right; exact He'|exact Hin].
      * apply Hnot. rewrite E. apply in_map; exact He'.
    + apply IH; [exact Hrest|]. intros e' He'. apply Hacc. right; exact He'.
Qed.

Lemma get_potential_employees_select db task :
  employees db <> [] ->
  exists m,
    is_min_task_count db (employees db) m
    /\ get_potential_employees db task = select_loop db task m (employees db) [].
Proof.
  intros Hne. destruct (min_loop_is_min db Hne) as (m & Hm & Hmin).
  exists m. split; [exact Hmin|].
  unfold get_potential_employees. destruct (employees db); [congruence|].
  rewrite Hm. reflexivity.
Qed.

(** X2: the list of potential employees never holds a label twice, and it
    is empty exactly when there is no employee: whenever there is an employee,
    at least one is proposed. *)
Theorem potential_employees_distinct_nonempty (db : DB) (task : Task.t) :
  NoDup (get_potential_employees db task)
  /\ (get_potential_employees db task = [] <-> employees db = []).
Proof.
  split.
  - unfold get_potential_employees. destruct (employees db) as [|e es]; [constructor|].
    destruct (min_loop db (e :: es) None); [|constructor].
    apply select_loop_NoDup. constructor.
  - split.
    + intros Hout. destruct (employees db) as [|e0 es] eqn:E; [reflexivity|]. exfalso.
      assert (Hne : employees db <> []) by (rewrite E; discriminate).
      destruct (get_potential_employees_select db task Hne)
        as (m & ((e & He & Hm) & _) & Hsel).
      assert (Hin : In (employee_name e) (get_potential_employees db task)).
      { rewrite Hsel. apply select_loop_In. right. exists e.
        split; [exact He|]. split; [|reflexivity].
        unfold suitable. rewrite Hm, Nat.eqb_refl. reflexivity. }
      rewrite Hout in Hin. destruct Hin.
    + intros E. unfold get_potential_employees. rewrite E. reflexivity.
Qed.

(** X3: when the employees have pairwise different identities, the list of
    potential employees is the list of the labels of the suitable employees,
    in the order of the table: no suitable employee is left out. *)
Theorem potential_employees_in_table_order (db : DB) (task : Task.t) :
  unique_ids Employee.id (employees db) ->
  employees db <> [] ->
  exists m,
    is_min_task_count db (employees db) m
    /\ get_potential_employees db task
       = map employee_name (filter (suitable db task m) (employees db)).
Proof.
  intros Hu Hne.
  destruct (get_potential_employees_select db task Hne) as (m & Hmin & Hsel).
  exists m. split; [exact Hmin|]. rewrite Hsel.
  rewrite select_loop_exact; [reflexivity|apply employee_names_distinct; exact Hu|].
  intros e _ [].
Qed.

End PotentialEmployeesList.

(** ** The task list: acceptance, order and spelling of the parameters *)

Section TaskListResult.

Variable unicode_lower : str -> nat -> str.

(** X4: the task list accepts a query exactly when every key of the query
    is [subtasks], [has_parent] or one of [filterset_fields]; the only
    exception it raises is a [ValidationError] with one message. *)
Theorem task_list_accepts_iff (db : DB) (q : query_params) :
  ((exists out, TaskListAPIView.get_queryset unicode_lower db q = Ok out)
   <-> forall k, ~ offending q k)
  /\ (forall e, TaskListAPIView.get_queryset unicode_lower db q = Raise e ->
                exists msg, e = ValidationError (Messages [msg])).
Proof.
  assert (Hoff : forall k, offending q k <->
            In k (QueryParams.difference
                    (QueryParams.difference (QueryParams.keys q) [u "subtasks"; u "has_parent"])
                    (QueryParams.to_set TaskListAPIView.filterset_fields))).
  { intros k. unfold offending, QueryParams.keys.
    rewrite !difference_In, !to_set_In. tauto. }
  unfold TaskListAPIView.get_queryset.
  destruct (QueryParams.difference (QueryParams.difference _ _) _) as [|i invalid].
  - split.
    + split; [|eexists; reflexivity]. intros _ k Hk. apply Hoff in Hk. destruct Hk.
    + intros e H. discriminate.
  - split.
    + split.
      * intros (out & H). discriminate.
      * intros H. exfalso. apply (H i). apply Hoff. left; reflexivity.
    + intros e H. injection H as <-. eexists; reflexivity.
Qed.

Lemma insert_by_id_perm x l : Permutation (x :: l) (TaskListAPIView.insert_by_id x l).
Proof.
  induction l as [|y l IH]; simpl; [apply Permutation_refl|].
  destruct (Task.id y <? Task.id x); [|apply Permutation_refl].
  eapply perm_trans; [apply perm_swap|]. apply perm_skip, IH.
Qed.

Lemma order_by_id_perm l : Permutation l (TaskListAPIView.order_by_id l).
Proof.
  unfold TaskListAPIView.order_by_id. induction l as [|x l IH]; simpl; [constructor|].
  eapply perm_trans; [apply perm_skip, IH|apply insert_by_id_perm].
Qed.

Lemma insert_by_id_sorted x l :
  StronglySorted id_le l -> StronglySorted id_le (TaskListAPIView.insert_by_id x l).
Proof.
  induction 1 as [|y l Hs IH Hall]; simpl.
  - constructor; constructor.
  - destruct (Nat.ltb_spec (Task.id y) (Task.id x)) as [L|L].
    + constructor; [exact IH|].
      eapply Permutation_Forall; [apply insert_by_id_perm|].
      constructor; [unfold id_le; lia|exact Hall].
    + constructor; [constructor; assumption|].
      constructor; [exact L|].
      eapply Forall_impl; [|exact Hall]. unfold id_le. intros z Hz. lia.
Qed.

Lemma order_by_id_sorted l : StronglySorted id_le (TaskListAPIView.order_by_id l).
Proof.
  unfold TaskListAPIView.order_by_id. induction l as [|x l IH]; simpl; [constructor|].
  apply insert_by_id_sorted, IH.
Qed.

Lemma sorted_filter {A} (R : A -> A -> Prop) (f : A -> bool) l :
  StronglySorted R l -> StronglySorted R (filter f l).
Proof.
  induction 1 as [|x l Hs IH Hall]; simpl; [constructor|].
  destruct (f x); [|exact IH]. constructor; [exact IH|].
  rewrite Forall_forall in *. intros y Hy. apply filter_In in Hy. apply Hall, Hy.
Qed.

Lemma sorted_app {A} (R : A -> A -> Prop) l1 l2 :
  StronglySorted R l1 -> StronglySorted R l2 ->
  (forall a b, In a l1 -> In b l2 -> R a b) -> StronglySorted R (l1 ++ l2).
Proof.
  induction 1 as [|x l1 Hs IH Hall]; simpl; intros H2 H12; [exact H2|].
  constructor.
  - apply IH; [exact H2|]. intros a b Ha Hb. apply H12; [right; exact Ha|exact Hb].
  - apply Forall_app. split; [exact Hall|].
    rewrite Forall_forall. intros b Hb. apply H12; [left; reflexivity|exact Hb].
Qed.

Lemma sorted_strict l :
  StronglySorted id_le l -> unique_ids Task.id l -> StronglySorted id_lt l.
Proof.
  unfold unique_ids. induction 1 as [|x l Hs IH Hall]; simpl; intros Hu; [constructor|].
  inversion Hu as [|? ? Hnot Hrest]; subst. constructor; [apply IH; exact Hrest|].
  rewrite Forall_forall in *. intros y Hy.
  assert (Task.id x <> Task.id y).
  { intros E. apply Hnot. rewrite E. apply in_map; exact Hy. }
  specialize (Hall y Hy). unfold id_le, id_lt in *. lia.
Qed.

Lemma ids_determine_rows (rows : list Task.t) a b :
  unique_ids Task.id rows -> In a rows -> In b rows -> Task.id a = Task.id b -> a = b.
Proof.
  unfold unique_ids. induction rows as [|x rows IH]; simpl; intros Hu Ha Hb E; [destruct Ha|].
  inversion Hu as [|? ? Hnot Hrest]; subst.
  destruct Ha as [->|Ha], Hb as [->|Hb]; auto.
  - exfalso. apply Hnot. rewrite E. apply in_map; exact Hb.
  - exfalso. apply Hnot. rewrite <- E. apply in_map; exact Ha.
Qed.

Lemma row_eqb_refl a : TaskListAPIView.row_eqb a a = true.
Proof.
  unfold TaskListAPIView.row_eqb.
  rewrite Nat.eqb_refl, !str_eqb_refl. simpl.
  assert (H1 : TaskListAPIView.opt_eqb str_eqb (Task.description a) (Task.description a) = true)
    by (destruct (Task.description a); simpl; auto using str_eqb_refl).
  assert (H2 : forall o, opt_nat_eqb o o = true) by (intros o; apply opt_nat_eqb_eq; reflexivity).
  assert (H3 : date_eqb (Task.due_date a) (Task.due_date a) = true)
    by (apply date_eqb_eq; reflexivity).
  rewrite H1, !H2, H3. reflexivity.
Qed.

Lemma distinct_strict l :
  StronglySorted id_le l ->
  (forall a b, In a l -> In b l -> Task.id a = Task.id b -> a = b) ->
  StronglySorted id_lt (TaskListAPIView.distinct l).
Proof.
  induction 1 as [|x l Hs IH Hall]; simpl; intros Hrows; [constructor|].
  constructor.
  - apply sorted_filter. apply IH. intros a b Ha Hb. apply Hrows; right; assumption.
  - rewrite Forall_forall in *. intros y Hy. apply filter_In in Hy. destruct Hy as [Hy Hne].
    apply (proj1 (distinct_In y l)) in Hy. specialize (Hall y Hy).
    assert (Task.id x <> Task.id y).
    { intros E. assert (x = y) by (apply Hrows; [left; reflexivity|right; exact Hy|exact E]).
      subst y. rewrite row_eqb_refl in Hne. discriminate. }
    unfold id_le, id_lt in *. lia.
Qed.

Lemma copies_sorted (g : Task.t -> list Task.t) qs :
  StronglySorted id_le qs ->
  StronglySorted id_le (flat_map (fun x => map (fun _ => x) (g x)) qs).
Proof.
  induction 1 as [|x qs Hs IH Hall]; simpl; [constructor|].
  apply sorted_app; [|exact IH|].
  - induction (g x) as [|c cs IHc]; simpl; constructor; [exact IHc|].
    rewrite Forall_map. rewrite Forall_forall. intros _ _. unfold id_le. lia.
  - intros a b Ha Hb. apply in_map_iff in Ha. destruct Ha as (_ & <- & _).
    apply in_flat_map in Hb. destruct Hb as (y & Hy & Hb).
    apply in_map_iff in Hb. destruct Hb as (_ & <- & _).
    rewrite Forall_forall in Hall. apply Hall, Hy.
Qed.

Lemma subtasks_step_strict db isnull qs :
  StronglySorted id_le qs ->
  (forall a b, In a qs -> In b qs -> Task.id a = Task.id b -> a = b) ->
  StronglySorted id_lt
    (TaskListAPIView.distinct (TaskListAPIView.filter_subtasks_isnull db isnull qs)).
Proof.
  intros Hs Hrows. apply distinct_strict.
  - unfold TaskListAPIView.filter_subtasks_isnull. destruct isnull.
    + apply sorted_filter, Hs.
    + apply copies_sorted, Hs.
  - intros a b Ha Hb.
    apply filter_subtasks_isnull_In in Ha. apply filter_subtasks_isnull_In in Hb.
    apply Hrows; tauto.
Qed.

(** X5: when the tasks have pairwise different identities, the queryset of
    an accepted task-list query is in strictly ascending order of identity:
    the rows are ordered and no row is listed twice, also a task with several
    subtasks under [subtasks=true]. *)
Theorem task_list_strictly_ascending (db : DB) (q : query_params) (out : list Task.t) :
  unique_ids Task.id (tasks db) ->
  TaskListAPIView.get_queryset unicode_lower db q = Ok out ->
  StronglySorted (fun a b => Task.id a < Task.id b) out.
Proof.
  intros Hu. unfold TaskListAPIView.get_queryset.
  destruct (QueryParams.difference _ _); [|discriminate].
  intros H. apply Ok_inj in H. subst out.
  pose proof (order_by_id_sorted (tasks db)) as Hs.
  assert (Hrows : forall a b, In a (TaskListAPIView.order_by_id (tasks db)) ->
                              In b (TaskListAPIView.order_by_id (tasks db)) ->
                              Task.id a = Task.id b -> a = b).
  { intros a b Ha Hb. apply (proj1 (order_by_id_In _ _)) in Ha.
    apply (proj1 (order_by_id_In _ _)) in Hb.
    apply ids_determine_rows with (tasks db); assumption. }
  assert (Hbase : StronglySorted id_lt (TaskListAPIView.order_by_id (tasks db))).
  { apply sorted_strict; [exact Hs|]. unfold unique_ids in *.
    eapply Permutation_NoDup; [|exact Hu]. apply Permutation_map, order_by_id_perm. }
  change (fun a b => Task.id a < Task.id b) with id_lt.
  destruct (QueryParams.get (u "has_parent") q) as [hp|];
    destruct (QueryParams.get (u "subtasks") q) as [st|];
    try destruct (str_in (lower unicode_lower hp) [u "true"; u "1"]);
    try destruct (str_in (lower unicode_lower hp) [u "false"; u "0"]);
    try destruct (str_in (lower unicode_lower st) [u "true"; u "1"]);
    try destruct (str_in (lower unicode_lower st) [u "false"; u "0"]);
    unfold TaskListAPIView.filter_parent_task_isnull;
    try apply sorted_filter;
    first [exact Hbase | apply subtasks_step_strict; [exact Hs|exact Hrows]].
Qed.

Lemma lower_from_ascii whole i s :
  is_ascii s -> lower_from unicode_lower whole i s = ascii_lower s.
Proof.
  unfold is_ascii. revert i; induction s as [|c s IH]; intros i H; simpl; [reflexivity|].
  inversion H as [|? ? Hc Hs]; subst.
  apply N.ltb_lt in Hc. rewrite Hc. simpl. rewrite IH by exact Hs. reflexivity.
Qed.

Lemma flag_ascii v :
  (forall s, v = Some s -> is_ascii s) -> flag unicode_lower v = ascii_flag v.
Proof.
  destruct v as [s|]; [|reflexivity]. intros H. unfold flag, ascii_flag, lower.
  rewrite lower_from_ascii by (apply H; reflexivity). reflexivity.
Qed.

(** X6: when the values of [subtasks] and [has_parent] are ASCII strings,
    the queryset of an accepted query does not depend on the Unicode tables:
    a value is read without regard to the case of its letters, as true when
    it spells true or 1, as false when it spells false or 0, and any other
    value restricts nothing and is not refused. *)
Theorem task_list_boolean_spelling (db : DB) (q : query_params) (out : list Task.t) :
  TaskListAPIView.get_queryset unicode_lower db q = Ok out ->
  (forall s, QueryParams.get (u "subtasks") q = Some s -> is_ascii s) ->
  (forall s, QueryParams.get (u "has_parent") q = Some s -> is_ascii s) ->
  forall x,
    In x out
    <-> In x (tasks db)
        /\ asks (ascii_flag (QueryParams.get (u "subtasks") q)) (has_children db x)
        /\ asks (ascii_flag (QueryParams.get (u "has_parent") q)) (Task.parent_task x <> None).
Proof.
  intros Hq Hs Hp x. rewrite (@get_queryset_In unicode_lower db q out x Hq).
  unfold subtasks_restriction, has_parent_restriction.
  rewrite (flag_ascii Hs), (flag_ascii Hp).
  destruct (ascii_flag (QueryParams.get (u "subtasks") q)) as [[|]|];
    destruct (ascii_flag (QueryParams.get (u "has_parent") q)) as [[|]|];
    simpl; destruct (Task.parent_task x); intuition congruence.
Qed.

End TaskListResult.

(** ** The busy-employees listing: ties, earliest dates and the response *)

Section SortStable.

Variables (A K : Type).
Variable key : A -> K.
Variable lt : K -> K -> result bool.
Variable P : A -> Prop.

(** [tie] selects elements of which none is strictly before another. *)
Variable tie : A -> bool.
Hypothesis tie_not_lt :
  forall x y, P x -> P y -> tie x = true -> tie y = true -> lt (key y) (key x) <> Ok true.

Lemma insert_tie x l r :
  decorated key P x -> Forall (decorated key P) l ->
  PySort.insert lt x l = Ok r ->
  filter (fun p => tie (snd p)) r = filter (fun p => tie (snd p)) (x :: l).
Proof.
  intros [Hx Px]. revert r; induction l as [|y l IH]; simpl; intros r Hl H.
  - injection H as <-. reflexivity.
  - inversion Hl as [|? ? [Hy Py] Hl']; subst.
    rewrite Hy, Hx in H.
    destruct (lt (key (snd y)) (key (snd x))) as [[|]|] eqn:E; simpl in H; try discriminate.
    + destruct (PySort.insert lt x l) as [r'|] eqn:E'; simpl in H; try discriminate.
      injection H as <-. simpl. rewrite (IH r' Hl' eq_refl). simpl.
      destruct (tie (snd x)) eqn:Tx, (tie (snd y)) eqn:Ty; try reflexivity.
      exfalso. exact (tie_not_lt Px Py Tx Ty E).
    + injection H as <-. reflexivity.
Qed.

Lemma sort_tie l r :
  Forall (decorated key P) l -> PySort.sort lt l = Ok r ->
  filter (fun p => tie (snd p)) r = filter (fun p => tie (snd p)) l.
Proof.
  revert r; induction l as [|x l IH]; simpl; intros r Hl H.
  - injection H as <-. reflexivity.
  - inversion Hl as [|? ? Hx Hl']; subst.
    destruct (PySort.sort lt l) as [s|] eqn:E; simpl in H; try discriminate.
    assert (Hs : Forall (decorated key P) s)
      by (eapply Permutation_Forall; [apply (sort_perm lt); exact E|exact Hl']).
    rewrite (insert_tie Hx Hs H). simpl. rewrite (IH s Hl' eq_refl). reflexivity.
Qed.

Lemma sorted_tie l r :
  Forall P l -> PySort.sorted key lt l = Ok r -> filter tie r = filter tie l.
Proof.
  unfold PySort.sorted. intros Hl H.
  destruct (PySort.sort lt _) as [s|] eqn:E; simpl in H; try discriminate.
  injection H as <-.
  apply sort_tie in E; [|apply decorate_all; exact Hl].
  rewrite filter_map_swap, E, <- filter_map_swap, map_map. simpl. rewrite map_id.
  reflexivity.
Qed.

End SortStable.

Section RankingMore.

Import BusyEmployeesListAPIView.

Lemma date_eqb_refl d : date_eqb d d = true.
Proof. apply date_eqb_eq; reflexivity. Qed.

Lemma opt_date_eqb_eq a b : opt_date_eqb a b = true -> a = b.
Proof.
  destruct a, b; simpl; try discriminate; auto.
  intros H. apply date_eqb_eq in H. congruence.
Qed.

Lemma key_lt_irrefl k : key_lt k k = Ok false.
Proof.
  unfold key_lt. rewrite Z.eqb_refl.
  destruct (snd k) as [d|s]; simpl; [rewrite date_eqb_refl|rewrite str_eqb_refl]; reflexivity.
Qed.

Lemma same_rank_key db e0 x y :
  entry_ok db x -> entry_ok db y ->
  same_rank db e0 (employee x) = true -> same_rank db e0 (employee y) = true ->
  key_lt (sort_key y) (sort_key x) <> Ok true.
Proof.
  intros Hx Hy Tx Ty. unfold same_rank in Tx, Ty.
  apply andb_true_iff in Tx. destruct Tx as [Cx Dx].
  apply andb_true_iff in Ty. destruct Ty as [Cy Dy].
  apply Nat.eqb_eq in Cx, Cy. apply opt_date_eqb_eq in Dx, Dy.
  rewrite <- Hx in Cx, Dx. rewrite <- Hy in Cy, Dy.
  assert (E : sort_key y = sort_key x).
  { unfold sort_key. rewrite <- Cx, <- Cy, <- Dx, <- Dy. reflexivity. }
  rewrite E, key_lt_irrefl. discriminate.
Qed.

Lemma filter_all {A} (p : A -> bool) l : (forall x, In x l -> p x = true) -> filter p l = l.
Proof.
  induction l as [|x l IH]; simpl; intros H; [reflexivity|].
  rewrite (H x (or_introl eq_refl)), IH; [reflexivity|]. intros y Hy. apply H. right; exact Hy.
Qed.

Lemma no_active_tasks db e :
  (forall x, In x (tasks db) -> ~ is_active e x) -> Objects.active db e = [].
Proof.
  intros H. destruct (Objects.active db e) as [|x l] eqn:E; [reflexivity|]. exfalso.
  assert (Hx : In x (Objects.active db e)) by (rewrite E; left; reflexivity).
  apply active_In in Hx. destruct Hx as [Hx Ha]. exact (H x Hx Ha).
Qed.

(** X7: the busy-employees listing keeps the employees that have the same
    number of active tasks and the same earliest due date in the order of
    the table; when no employee has an active task, the listing is the table
    in its order. *)
Theorem busy_employees_ties_keep_order (db : DB) :
  exists out,
    get_queryset db = Ok out
    /\ (forall e0, filter (same_rank db e0) out = filter (same_rank db e0) (employees db))
    /\ ((forall e x, In e (employees db) -> In x (tasks db) -> ~ is_active e x) ->
        out = employees db).
Proof.
  destruct (sorted_employee_data db) as (s & Hs & Hp & _).
  exists (map employee s). split; [|split].
  - unfold get_queryset. rewrite Hs. reflexivity.
  - intros e0.
    pose proof (@sorted_tie _ _ sort_key key_lt (entry_ok db)
                  (fun x => same_rank db e0 (employee x))
                  (fun x y Px Py => @same_rank_key db e0 x y Px Py)
                  _ _ (employee_task_data_ok db (employees db)) Hs) as H.
    rewrite filter_map_swap, H, <- filter_map_swap, map_map. simpl. rewrite map_id.
    reflexivity.
  - intros Hnone.
    assert (Hperm : Permutation (employees db) (map employee s)).
    { apply (Permutation_map employee) in Hp. rewrite map_map in Hp. simpl in Hp.
      rewrite map_id in Hp. exact Hp. }
    assert (Hsame : forall e0 e, In e0 (employees db) -> In e (employees db) ->
                                 same_rank db e0 e = true).
    { intros e0 e H0 He. unfold same_rank, make_entry. simpl.
      rewrite (@no_active_tasks db e0), (@no_active_tasks db e); auto. }
    destruct (employees db) as [|e0 es] eqn:E.
    + apply Permutation_nil in Hperm. exact Hperm.
    + pose proof (@sorted_tie _ _ sort_key key_lt (entry_ok db)
                    (fun x => same_rank db e0 (employee x))
                    (fun x y Px Py => @same_rank_key db e0 x y Px Py)
                    _ _ (employee_task_data_ok db (e0 :: es)) Hs) as H.
      rewrite <- E in *.
      assert (H' : filter (same_rank db e0) (map employee s)
                   = filter (same_rank db e0) (employees db)).
      { rewrite filter_map_swap, H, <- filter_map_swap, map_map. simpl. rewrite map_id.
        reflexivity. }
      assert (H0 : In e0 (employees db)) by (rewrite E; left; reflexivity).
      rewrite !filter_all in H'; [exact H'| |].
      * intros e He. apply Hsame; assumption.
      * intros e He. apply Hsame; [assumption|].
        eapply Permutation_in; [apply Permutation_sym; exact Hperm|exact He].
Qed.

Lemma date_le_antisym a b : date_le a b -> date_le b a -> a = b.
Proof.
  destruct a as [y1 m1 d1], b as [y2 m2 d2]. unfold date_le, date_lt; simpl.
  intros H1 H2. assert (y1 = y2 /\ m1 = m2 /\ d1 = d2) as (-> & -> & ->) by lia.
  reflexivity.
Qed.

(** X8: the earliest due date that the view computes for an employee is
    the least due date of the employee's active tasks: it is [d] exactly when
    an active task of the employee is due on [d] and none is due before. *)
Theorem earliest_due_date_is_least (db : DB) (e : Employee.t) (d : date) :
  earliest_due_date (make_entry db e) = Some d
  <-> (exists x, In x (tasks db) /\ is_active e x /\ Task.due_date x = d)
      /\ (forall x, In x (tasks db) -> is_active e x -> date_le d (Task.due_date x)).
Proof.
  simpl. pose proof (earliest_loop_is_earliest (Objects.active db e)) as H.
  split.
  - intros E. rewrite E in H. destruct H as [(x & Hx & Hd) Hall].
    apply active_In in Hx. split; [exists x; tauto|].
    intros y Hy Ha. apply Hall. apply active_In. tauto.
  - intros [(x & Hx & Ha & Hd) Hall].
    destruct (earliest_loop (Objects.active db e) None) as [d'|].
    + destruct H as [(y & Hy & Hd') Hall']. f_equal.
      apply date_le_antisym.
      * rewrite <- Hd. apply Hall'. apply active_In. tauto.
      * rewrite <- Hd'. apply active_In in Hy. apply Hall; tauto.
    + simpl in H. assert (Hin : In x (Objects.active db e)) by (apply active_In; tauto).
      rewrite H in Hin. destruct Hin.
Qed.

End RankingMore.

Section BusyResponse.

Import BusyEmployeesListAPIView.

Lemma sorted_map {A B} (R : A -> A -> Prop) (R' : B -> B -> Prop) (f : A -> B) l :
  (forall a b, R a b -> R' (f a) (f b)) ->
  StronglySorted R l -> StronglySorted R' (map f l).
Proof.
  intros H. induction 1 as [|x l Hs IH Hall]; simpl; constructor; [exact IH|].
  rewrite Forall_map. eapply Forall_impl; [|exact Hall]. intros b. apply H.
Qed.

Lemma ranked_repr_before db a b :
  ranked_before db a b ->
  repr_before (BusyEmployeeSerializer.to_representation db a)
              (BusyEmployeeSerializer.to_representation db b).
Proof.
  intros [Hc Hd]. unfold repr_before. simpl.
  unfold BusyEmployeeSerializer.get_active_task_count, BusyEmployeeSerializer.get_tasks.
  unfold active_count in *. split; [exact Hc|].
  intros E t2 Ht2. apply in_map_iff in Ht2. destruct Ht2 as (x2 & <- & Hx2).
  specialize (Hd E _ _ (earliest_loop_is_earliest (Objects.active db a))
                 (earliest_loop_is_earliest (Objects.active db b))).
  pose proof (earliest_loop_is_earliest (Objects.active db a)) as Ha.
  pose proof (earliest_loop_is_earliest (Objects.active db b)) as Hb.
  destruct (earliest_loop (Objects.active db b) None) as [d2|].
  - destruct (earliest_loop (Objects.active db a) None) as [d1|]; [|destruct Hd].
    destruct Ha as [(x1 & Hx1 & Hd1) _]. destruct Hb as [_ Hall].
    exists (TaskSummarySerializer.to_representation db x1). split.
    + apply in_map; exact Hx1.
    + simpl. rewrite Hd1. eapply date_le_trans; [exact Hd|]. apply Hall; exact Hx2.
  - simpl in Hb. rewrite Hb in Hx2. destruct Hx2.
Qed.

(** X9: in the busy-employees response the reported numbers of active tasks
    never increase, and of two entries that report the same number every
    task of the later entry is due no earlier than some task of the earlier
    one; each entry reports as many active tasks as it lists, and every
    listed task is "new" or "in_progress". *)
Theorem busy_response_ordered (db : DB) :
  exists out,
    BusyEmployeesList.list db = Ok out
    /\ StronglySorted repr_before out
    /\ Forall (fun r =>
                 BusyEmployeeSerializer.active_task_count r
                 = List.length (BusyEmployeeSerializer.tasks r)
                 /\ forall t, In t (BusyEmployeeSerializer.tasks r) ->
                      TaskSummarySerializer.status t = u "new"
                      \/ TaskSummarySerializer.status t = u "in_progress") out.
Proof.
  destruct (sorted_employee_data db) as (s & Hs & Hp & Hsorted).
  exists (map (BusyEmployeeSerializer.to_representation db) (map employee s)).
  unfold BusyEmployeesList.list, get_queryset. rewrite Hs. simpl.
  split; [reflexivity|]. split.
  - apply sorted_map with (R := ranked_before db); [apply ranked_repr_before|].
    apply sorted_map_employee; [|exact Hsorted].
    eapply Permutation_Forall; [exact Hp|apply employee_task_data_ok].
  - rewrite Forall_map. rewrite Forall_forall. intros e _. simpl.
    unfold BusyEmployeeSerializer.get_active_task_count, BusyEmployeeSerializer.get_tasks.
    split; [rewrite length_map; reflexivity|].
    intros t Ht. apply in_map_iff in Ht. destruct Ht as (x & <- & Hx).
    apply active_In in Hx. destruct Hx as [_ [_ Hst]]. exact Hst.
Qed.

End BusyResponse.

(** ** The parent of a task *)

Lemma filter_by_id_unique (rows : list Task.t) (p : Task.t) :
  unique_ids Task.id rows -> In p rows ->
  filter (fun y => Task.id y =? Task.id p) rows = [p].
Proof.
  unfold unique_ids. induction rows as [|x rows IH]; simpl; intros Hu Hp; [destruct Hp|].
  inversion Hu as [|? ? Hnot Hrest]; subst.
  destruct Hp as [->|Hp].
  - rewrite Nat.eqb_refl. f_equal.
    destruct (filter (fun y => Task.id y =? Task.id p) rows) as [|y l] eqn:E; [reflexivity|].
    exfalso. assert (Hy : In y (filter (fun y => Task.id y =? Task.id p) rows))
      by (rewrite E; left; reflexivity).
    apply filter_In in Hy. destruct Hy as [Hy Ey]. apply Nat.eqb_eq in Ey.
    apply Hnot. rewrite <- Ey. apply in_map; exact Hy.
  - destruct (Nat.eqb_spec (Task.id x) (Task.id p)) as [E|E]; [|apply IH; assumption].
    exfalso. apply Hnot. rewrite E. apply in_map; exact Hp.
Qed.

(** X10: when the tasks have pairwise different identities, the summary of
    a task shows as parent the identity, name and due date of the row the
    task refers to; it shows no parent exactly when no row of the table is
    the one the task refers to. *)
Theorem summary_shows_parent_row (db : DB) (x : Task.t) :
  unique_ids Task.id (tasks db) ->
  (forall p, In p (tasks db) -> Task.parent_task x = Some (Task.id p) ->
     TaskSummarySerializer.get_parent_task db x
     = Some (TaskSummarySerializer.ParentRepr (Task.id p) (Task.name p) (Task.due_date p)))
  /\ (TaskSummarySerializer.get_parent_task db x = None
      <-> forall p, In p (tasks db) -> Task.parent_task x <> Some (Task.id p)).
Proof.
  intros Hu. split.
  - intros p Hp E. unfold TaskSummarySerializer.get_parent_task, Objects.parents.
    rewrite E, (@filter_by_id_unique (tasks db) p Hu Hp). reflexivity.
  - unfold TaskSummarySerializer.get_parent_task.
    destruct (Objects.parents db x) as [|p l] eqn:E.
    + split; [|reflexivity]. intros _ p Hp Hpar.
      assert (H : In p (Objects.parents db x)) by (apply parents_In; auto).
      rewrite E in H. destruct H.
    + split; [discriminate|]. intros H. exfalso.
      assert (Hp : In p (Objects.parents db x)) by (rewrite E; left; reflexivity).
      apply parents_In in Hp. destruct Hp as [Hp Hpar]. exact (H p Hp Hpar).
Qed.

(** ** Important tasks: rows listed once, and deletions *)

Lemma important_queryset_In db x :
  In x (ImportantTasksListAPIView.get_queryset db)
  <-> In x (tasks db)
      /\ Task.status x = u "new"
      /\ exists p, In p (tasks db)
                   /\ Task.parent_task x = Some (Task.id p)
                   /\ Task.status p = u "in_progress".
Proof.
  unfold ImportantTasksListAPIView.get_queryset. rewrite in_flat_map. split.
  - intros (y & Hy & Hx). apply filter_In in Hy. destruct Hy as [Hy Hs].
    apply in_map_iff in Hx. destruct Hx as (p & -> & Hp).
    apply filter_In in Hp. destruct Hp as [Hp Hps].
    apply parents_In in Hp. destruct Hp as [Hp Hpar].
    apply str_eqb_eq in Hs. apply str_eqb_eq in Hps.
    split; [exact Hy|]. split; [exact Hs|]. exists p. auto.
  - intros (Hx & Hs & p & Hp & Hpar & Hps). exists x. split.
    + apply filter_In. split; [exact Hx|]. apply str_eqb_eq; exact Hs.
    + apply in_map_iff. exists p. split; [reflexivity|].
      apply filter_In. split; [apply parents_In; auto|]. apply str_eqb_eq; exact Hps.
Qed.

Lemma join_row_once db x :
  unique_ids Task.id (tasks db) ->
  map (fun _ : Task.t => x)
      (filter (fun p => str_eqb (Task.status p) (u "in_progress")) (Objects.parents db x))
  = if existsb (fun p => opt_nat_eqb (Task.parent_task x) (Some (Task.id p))
                         && str_eqb (Task.status p) (u "in_progress")) (tasks db)
    then [x] else [].
Proof.
  intros Hu.
  destruct (existsb _ (tasks db)) eqn:Ex.
  - apply existsb_exists in Ex. destruct Ex as (p & Hp & H).
    apply andb_true_iff in H. destruct H as [Hpar Hs]. apply opt_nat_eqb_eq in Hpar.
    unfold Objects.parents. rewrite Hpar, (@filter_by_id_unique (tasks db) p Hu Hp).
    simpl. rewrite Hs. reflexivity.
  - destruct (Objects.parents db x) as [|p l] eqn:E; [reflexivity|].
    assert (Hp : In p (Objects.parents db x)) by (rewrite E; left; reflexivity).
    apply parents_In in Hp. destruct Hp as [Hp Hpar].
    assert (E' : Objects.parents db x = [p]).
    { unfold Objects.parents. rewrite Hpar. apply filter_by_id_unique; assumption. }
    rewrite E' in E. injection E as <-. simpl.
    destruct (str_eqb (Task.status p) (u "in_progress")) eqn:Hs; [|reflexivity].
    exfalso.
    assert (H : existsb (fun p => opt_nat_eqb (Task.parent_task x) (Some (Task.id p))
                                  && str_eqb (Task.status p) (u "in_progress"))
                        (tasks db) = true).
    { apply existsb_exists. exists p. split; [exact Hp|].
      rewrite Hpar, Hs. simpl. rewrite Nat.eqb_refl. reflexivity. }
    congruence.
Qed.

Lemma flat_map_if {A} (b : A -> bool) l :
  flat_map (fun x => if b x then [x] else []) l = filter b l.
Proof.
  induction l as [|x l IH]; simpl; [reflexivity|].
  rewrite IH. destruct (b x); reflexivity.
Qed.

Lemma filter_both {A} (f g : A -> bool) l :
  filter g (filter f l) = filter (fun x => f x && g x) l.
Proof.
  induction l as [|x l IH]; simpl; [reflexivity|].
  destruct (f x); simpl; [destruct (g x)|]; rewrite IH; reflexivity.
Qed.

(** X11: when the tasks have pairwise different identities, the queryset of
    important tasks is the table restricted to the important tasks: every
    important task is listed once, in the order of the table. *)
Theorem important_tasks_listed_once (db : DB) :
  unique_ids Task.id (tasks db) ->
  ImportantTasksListAPIView.get_queryset db = filter (is_important db) (tasks db).
Proof.
  intros Hu. unfold ImportantTasksListAPIView.get_queryset.
  rewrite (flat_map_ext _ _ (fun x => @join_row_once db x Hu)).
  rewrite flat_map_if, filter_both. reflexivity.
Qed.

Lemma clear_assignee_fields pk x :
  Task.id (clear_assignee pk x) = Task.id x
  /\ Task.status (clear_assignee pk x) = Task.status x
  /\ Task.parent_task (clear_assignee pk x) = Task.parent_task x.
Proof.
  unfold clear_assignee. destruct (opt_nat_eqb _ _); simpl; auto.
Qed.

Lemma parents_after_delete_employee pk db x :
  Objects.parents (Objects.delete_employee pk db) (clear_assignee pk x)
  = map (clear_assignee pk) (Objects.parents db x).
Proof.
  unfold Objects.parents.
  destruct (clear_assignee_fields pk x) as (_ & _ & ->).
  destruct (Task.parent_task x) as [pid|]; [|reflexivity].
  simpl. fold (clear_assignee pk). rewrite filter_map_swap.
  f_equal. apply filter_ext. intros a.
  destruct (clear_assignee_fields pk a) as (-> & _ & _). reflexivity.
Qed.

(** X12: deleting an employee changes neither which tasks are important nor
    their order: the queryset of important tasks after the deletion is the
    one before it, with [assigned_to] cleared on the tasks of the deleted
    employee. *)
Theorem important_tasks_after_delete_employee (pk : nat) (db : DB) :
  ImportantTasksListAPIView.get_queryset (Objects.delete_employee pk db)
  = map (clear_assignee pk) (ImportantTasksListAPIView.get_queryset db).
Proof.
  unfold ImportantTasksListAPIView.get_queryset.
  change (tasks (Objects.delete_employee pk db)) with (map (clear_assignee pk) (tasks db)).
  rewrite filter_map_swap.
  rewrite (filter_ext (fun a => str_eqb (Task.status (clear_assignee pk a)) (u "new"))
                      (fun a => str_eqb (Task.status a) (u "new")))
    by (intros a; destruct (clear_assignee_fields pk a) as (_ & -> & _); reflexivity).
  induction (filter (fun a => str_eqb (Task.status a) (u "new")) (tasks db)) as [|x l IH];
    simpl; [reflexivity|].
  rewrite map_app, IH. f_equal.
  rewrite parents_after_delete_employee, filter_map_swap, !map_map.
  rewrite (filter_ext (fun a => str_eqb (Task.status (clear_assignee pk a)) (u "in_progress"))
                      (fun a => str_eqb (Task.status a) (u "in_progress")))
    by (intros a; destruct (clear_assignee_fields pk a) as (_ & -> & _); reflexivity).
  reflexivity.
Qed.

(** X13: after a task is deleted, the important tasks are the tasks that
    were important before, except the deleted task and the tasks that had it
    as parent. *)
Theorem important_tasks_after_delete_task (pk : nat) (db : DB) (x : Task.t) :
  In x (ImportantTasksListAPIView.get_queryset (Objects.delete_task pk db))
  <-> In x (ImportantTasksListAPIView.get_queryset db)
      /\ Task.parent_task x <> Some pk
      /\ Task.id x <> pk.
Proof.
  set (g := fun y => if opt_nat_eqb (Task.parent_task y) (Some pk)
                     then Task.set_parent_task None y else y).
  assert (Hg : forall y, Task.id (g y) = Task.id y /\ Task.status (g y) = Task.status y).
  { intros y. unfold g. destruct (opt_nat_eqb _ _); simpl; auto. }
  assert (Hkeep : forall y, Task.parent_task y <> Some pk -> g y = y).
  { intros y H. unfold g. destruct (opt_nat_eqb _ _) eqn:E; [|reflexivity].
    apply opt_nat_eqb_eq in E. contradiction. }
  assert (Hrows : forall y, In y (tasks (Objects.delete_task pk db))
                            <-> exists y0, In y0 (tasks db) /\ g y0 = y /\ Task.id y0 <> pk).
  { intros y. simpl. fold g. rewrite filter_In, in_map_iff, negb_true_iff, Nat.eqb_neq.
    split.
    - intros [(y0 & E & H0) Hne]. exists y0. rewrite <- E in Hne.
      destruct (Hg y0) as [Hid _]. rewrite Hid in Hne. auto.
    - intros (y0 & H0 & E & Hne). split; [eauto|].
      rewrite <- E. destruct (Hg y0) as [-> _]. exact Hne. }
  rewrite !important_queryset_In. split.
  - intros (Hx & Hs & p & Hp & Hpar & Hps).
    apply Hrows in Hx. destruct Hx as (x0 & Hx0 & Ex & Hne).
    apply Hrows in Hp. destruct Hp as (p0 & Hp0 & Ep & Hnp).
    assert (Hx0par : Task.parent_task x0 <> Some pk).
    { intros E. rewrite <- Ex in Hpar. unfold g in Hpar. rewrite E in Hpar.
      simpl in Hpar. rewrite Nat.eqb_refl in Hpar. simpl in Hpar. discriminate. }
    rewrite (Hkeep x0 Hx0par) in Ex. subst x0.
    destruct (Hg p0) as [Hid Hst]. rewrite Ep in Hid, Hst.
    split; [|split; assumption].
    split; [exact Hx0|]. split; [exact Hs|].
    exists p0. split; [exact Hp0|]. split; congruence.
  - intros ((Hx & Hs & p & Hp & Hpar & Hps) & Hnpar & Hne).
    split; [|split; [exact Hs|]].
    + apply Hrows. exists x. split; [exact Hx|]. split; [apply Hkeep; exact Hnpar|exact Hne].
    + destruct (Hg p) as [Hid Hst].
      exists (g p). split; [|split; congruence].
      apply Hrows. exists p. split; [exact Hp|]. split; [reflexivity|].
      intros E. apply Hnpar. rewrite Hpar, E. reflexivity.
Qed.

(** ** Deleting rows: references and repeated deletion *)

Lemma has_employee_iff db i :
  has_employee i db = true <-> exists e, In e (employees db) /\ Employee.id e = i.
Proof.
  unfold has_employee. rewrite existsb_exists.
  split; intros (e & He & H); exists e; split; try exact He; apply Nat.eqb_eq; exact H.
Qed.

Lemma has_task_iff db j :
  has_task j db = true <-> exists x, In x (tasks db) /\ Task.id x = j.
Proof.
  unfold has_task. rewrite existsb_exists.
  split; intros (x & Hx & H); exists x; split; try exact Hx; apply Nat.eqb_eq; exact H.
Qed.

(** X14: deleting an employee or a task keeps the references of the state
    sound: when every [assigned_to] and every [parent_task] points to a row
    before the deletion, so does each of them after it. *)
Theorem deletion_keeps_references (pk : nat) (db : DB) :
  refs_ok db ->
  refs_ok (Objects.delete_employee pk db) /\ refs_ok (Objects.delete_task pk db).
Proof.
  intros Hok. split.
  - intros x Hx. simpl in Hx. apply in_map_iff in Hx. destruct Hx as (x0 & <- & Hx0).
    destruct (Hok x0 Hx0) as [Ha Hp]. split.
    + intros i Hi.
      destruct (opt_nat_eqb (Task.assigned_to x0) (Some pk)) eqn:E; [discriminate|].
      assert (Hne : i <> pk).
      { intros ->. rewrite Hi in E. simpl in E. rewrite Nat.eqb_refl in E. discriminate. }
      apply has_employee_iff. apply Ha in Hi. apply has_employee_iff in Hi.
      destruct Hi as (e & He & Hid). exists e. split; [|exact Hid].
      simpl. apply filter_In. split; [exact He|].
      apply negb_true_iff, Nat.eqb_neq. congruence.
    + intros j Hj.
      assert (Hj0 : Task.parent_task x0 = Some j)
        by (destruct (opt_nat_eqb _ _); exact Hj).
      apply has_task_iff. apply Hp in Hj0. apply has_task_iff in Hj0.
      destruct Hj0 as (y & Hy & Hid).
      exists (if opt_nat_eqb (Task.assigned_to y) (Some pk)
              then Task.set_assigned_to None y else y).
      split; [simpl; apply in_map_iff; exists y; auto|].
      destruct (opt_nat_eqb (Task.assigned_to y) (Some pk)); exact Hid.
  - intros x Hx. simpl in Hx. apply filter_In in Hx. destruct Hx as [Hx Hne].
    apply in_map_iff in Hx. destruct Hx as (x0 & <- & Hx0).
    destruct (Hok x0 Hx0) as [Ha Hp]. split.
    + intros i Hi. apply has_employee_iff.
      assert (Hi0 : Task.assigned_to x0 = Some i)
        by (destruct (opt_nat_eqb _ _); exact Hi).
      apply Ha in Hi0. apply has_employee_iff in Hi0. exact Hi0.
    + intros j Hj.
      destruct (opt_nat_eqb (Task.parent_task x0) (Some pk)) eqn:E; [discriminate|].
      assert (Hnj : j <> pk).
      { intros ->. rewrite Hj in E. simpl in E. rewrite Nat.eqb_refl in E. discriminate. }
      apply has_task_iff. apply Hp in Hj. apply has_task_iff in Hj.
      destruct Hj as (y & Hy & Hid).
      exists (if opt_nat_eqb (Task.parent_task y) (Some pk)
              then Task.set_parent_task None y else y).
      assert (Hid' : Task.id (if opt_nat_eqb (Task.parent_task y) (Some pk)
                              then Task.set_parent_task None y else y) = j)
        by (destruct (opt_nat_eqb (Task.parent_task y) (Some pk)); exact Hid).
      split; [|exact Hid'].
      simpl. apply filter_In. split; [apply in_map_iff; exists y; auto|].
      rewrite Hid'. apply negb_true_iff, Nat.eqb_neq. exact Hnj.
Qed.

Lemma has_employee_after_delete pk db :
  has_employee pk (Objects.delete_employee pk db) = false.
Proof.
  destruct (has_employee pk (Objects.delete_employee pk db)) eqn:E; [|reflexivity].
  apply has_employee_iff in E. destruct E as (e & He & Hid).
  simpl in He. apply filter_In in He. destruct He as [_ Hne].
  apply negb_true_iff, Nat.eqb_neq in Hne. contradiction.
Qed.

Lemma has_task_after_delete pk db : has_task pk (Objects.delete_task pk db) = false.
Proof.
  destruct (has_task pk (Objects.delete_task pk db)) eqn:E; [|reflexivity].
  apply has_task_iff in E. destruct E as (x & Hx & Hid).
  simpl in Hx. apply filter_In in Hx. destruct Hx as [_ Hne].
  apply negb_true_iff, Nat.eqb_neq in Hne. contradiction.
Qed.

(** X15: an employee or a task can be destroyed once: whatever the first
    call of the destroy view did, a second call for the same identity raises
    [Http404] and leaves the state as the first call left it; and a call for
    an identity that no row has changes nothing. *)
Theorem destroy_only_once (pk : nat) (db : DB) :
  (let db' := snd (EmployeeDestroyAPIView.destroy pk db) in
   EmployeeDestroyAPIView.destroy pk db' = (Raise Http404, db'))
  /\ (let db' := snd (TaskDestroyAPIView.destroy pk db) in
      TaskDestroyAPIView.destroy pk db' = (Raise Http404, db'))
  /\ (has_employee pk db = false ->
      EmployeeDestroyAPIView.destroy pk db = (Raise Http404, db))
  /\ (has_task pk db = false -> TaskDestroyAPIView.destroy pk db = (Raise Http404, db)).
Proof.
  unfold EmployeeDestroyAPIView.destroy, TaskDestroyAPIView.destroy, Generic.destroy.
  split; [|split; [|split]].
  - destruct (has_employee pk db) eqn:E; simpl.
    + rewrite has_employee_after_delete. reflexivity.
    + rewrite E. reflexivity.
  - destruct (has_task pk db) eqn:E; simpl.
    + rewrite has_task_after_delete. reflexivity.
    + rewrite E. reflexivity.
  - intros ->. reflexivity.
  - intros ->. reflexivity.
Qed.

(** ** Names *)

(** X16: the three name validators refuse the empty string and every string
    that holds an ASCII character other than a letter (a space, a hyphen, a
    digit, an apostrophe), whatever the Unicode tables say. *)
Theorem names_with_other_ascii_refused (unicode_alpha : char -> bool) (value : str) :
  value = []
  \/ (exists c, In c value /\ (c < 128)%N /\ is_upper_ascii c || is_lower_ascii c = false) ->
  EmployeeSerializer.validate_first_name unicode_alpha value
  = Raise (ValidationError (Messages [u "Имя должно содержать только буквы."]))
  /\ EmployeeSerializer.validate_last_name unicode_alpha value
     = Raise (ValidationError (Messages [u "Фамилия должна содержать только буквы."]))
  /\ EmployeeSerializer.validate_middle_name unicode_alpha value
     = Raise (ValidationError (Messages [u "Отчество должно содержать только буквы."])).
Proof.
  intros H.
  assert (E : isalpha unicode_alpha value = false).
  { destruct H as [->|(c & Hc & Hlt & Hl)]; [reflexivity|].
    destruct (isalpha unicode_alpha value) eqn:E; [|reflexivity]. exfalso.
    unfold isalpha in E. destruct value as [|c0 rest]; [destruct Hc|].
    rewrite forallb_forall in E. specialize (E c Hc). unfold isalpha_char in E.
    apply N.ltb_lt in Hlt. rewrite Hlt in E. congruence. }
  unfold EmployeeSerializer.validate_first_name, EmployeeSerializer.validate_last_name,
    EmployeeSerializer.validate_middle_name.
  rewrite E. simpl. repeat split; reflexivity.
Qed.

(** ** Null for a field with a validator *)

(** X18: a create or update request for an employee whose middle name is
    null is not answered with a validation error: [validate_middle_name]
    raises [AttributeError], whatever the other fields are, and nothing is
    written.  When the middle name is not null and the hire date is null (a
    JSON null, or the empty string of a form), [validate_hired_date] raises
    [TypeError] in the same way. *)
Theorem explicit_null_raises
        (unicode_alpha : char -> bool) (today : date)
        (validators : str -> str -> list str) (parse_date : str -> option date)
        (save_new_employee : EmployeeSerializer.Validated.t -> DB -> DB)
        (save_employee : nat -> EmployeeSerializer.Validated.t -> DB -> DB)
        (html partial : bool) (d : EmployeeSerializer.data) (pk : nat) (db : DB) :
  (EmployeeSerializer.middle_name d = Some JNull ->
   EmployeeCreateAPIView_create unicode_alpha today validators parse_date
                                save_new_employee html d db
   = (Raise AttributeError, db)
   /\ (has_employee pk db = true ->
       EmployeeUpdateAPIView_update unicode_alpha today validators parse_date
                                    save_employee pk html partial d db
       = (Raise AttributeError, db)))
  /\ (EmployeeSerializer.middle_name d <> Some JNull ->
      EmployeeSerializer.hired_date d = Some JNull
      \/ (html = true /\ EmployeeSerializer.hired_date d = Some (JString [])) ->
      EmployeeCreateAPIView_create unicode_alpha today validators parse_date
                                   save_new_employee html d db
      = (Raise TypeError, db)
      /\ (has_employee pk db = true ->
          EmployeeUpdateAPIView_update unicode_alpha today validators parse_date
                                       save_employee pk html partial d db
          = (Raise TypeError, db))).
Proof.
  unfold EmployeeCreateAPIView_create, EmployeeUpdateAPIView_update,
    Generic.create, Generic.update.
  split.
  - intros Hm. split; [|intros ->];
      rewrite null_middle_name_raises
        by (apply middle_name_field_null; exact Hm); reflexivity.
  - intros Hm Hh. split; [|intros ->];
      rewrite null_hired_date_raises
        by (try (apply hired_date_field_null; exact Hh);
            rewrite middle_name_field_null; exact Hm); reflexivity.
Qed.

(** ** Sorting a part of a list *)

Section SortFilter.

Variables (A K : Type).
Variable key : A -> K.
Variable lt : K -> K -> result bool.
Variable P : A -> Prop.
Variable R : A -> A -> Prop.

Hypothesis lt_total : forall a b, P a -> P b -> exists c, lt (key a) (key b) = Ok c.
Hypothesis lt_true : forall a b, P a -> P b -> lt (key a) (key b) = Ok true -> R a b.
Hypothesis lt_false : forall a b, P a -> P b -> lt (key a) (key b) = Ok false -> R b a.
Hypothesis lt_strict : forall a b, P a -> P b -> lt (key a) (key b) = Ok true -> ~ R b a.
Hypothesis R_trans : forall a b c, R a b -> R b c -> R a c.

Variable p : A -> bool.

Lemma insert_front x s :
  decorated key P x -> Forall (decorated key P) s -> Forall (decorated_before R x) s ->
  PySort.insert lt x s = Ok (x :: s).
Proof.
  intros [Hx Px] Hs Hall. destruct s as [|z s]; simpl; [reflexivity|].
  inversion Hs as [|? ? [Hz Pz] _]; subst. inversion Hall as [|? ? Hxz _]; subst.
  rewrite Hz, Hx. destruct (lt_total Pz Px) as [[|] Hc]; rewrite Hc; simpl; [|reflexivity].
  exfalso. exact (lt_strict Pz Px Hc Hxz).
Qed.

Lemma insert_filter x s r :
  decorated key P x -> Forall (decorated key P) s ->
  StronglySorted (decorated_before R) s ->
  PySort.insert lt x s = Ok r ->
  if p (snd x)
  then PySort.insert lt x (filter (fun q => p (snd q)) s) = Ok (filter (fun q => p (snd q)) r)
  else filter (fun q => p (snd q)) r = filter (fun q => p (snd q)) s.
Proof.
  intros Dx. pose proof Dx as [Hx Px].
  revert r; induction s as [|y s IH]; simpl; intros r Hs Hsorted H.
  - injection H as <-. simpl. destruct (p (snd x)); reflexivity.
  - inversion Hs as [|? ? Dy Hs']; subst. pose proof Dy as [Hy Py].
    inversion Hsorted as [|? ? Hsorted' Hall]; subst.
    rewrite Hy, Hx in H.
    destruct (lt (key (snd y)) (key (snd x))) as [[|]|] eqn:E; simpl in H; try discriminate.
    + destruct (PySort.insert lt x s) as [r'|] eqn:E'; simpl in H; try discriminate.
      injection H as <-. specialize (IH r' Hs' Hsorted' eq_refl). simpl.
      destruct (p (snd x)), (p (snd y)); simpl; rewrite ?Hy, ?Hx, ?E, ?IH; reflexivity.
    + injection H as <-. simpl.
      destruct (p (snd x)) eqn:Tx; [|reflexivity].
      destruct (p (snd y)) eqn:Ty; simpl.
      * rewrite Hy, Hx, E. reflexivity.
      * apply insert_front; [exact Dx| |].
        -- rewrite Forall_forall in *. intros q Hq. apply filter_In in Hq. apply Hs', Hq.
        -- rewrite Forall_forall in *. intros q Hq. apply filter_In in Hq.
           destruct Hq as [Hq _]. unfold decorated_before in *.
           eapply R_trans; [apply (lt_false Py Px E)|apply Hall, Hq].
Qed.

Lemma sort_filter l s :
  Forall (decorated key P) l -> PySort.sort lt l = Ok s ->
  PySort.sort lt (filter (fun q => p (snd q)) l) = Ok (filter (fun q => p (snd q)) s).
Proof.
  revert s; induction l as [|x l IH]; simpl; intros s Hl H.
  - injection H as <-. reflexivity.
  - inversion Hl as [|? ? Dx Hl']; subst.
    destruct (PySort.sort lt l) as [s'|] eqn:E; simpl in H; try discriminate.
    specialize (IH s' Hl' eq_refl).
    assert (Hs' : Forall (decorated key P) s')
      by (eapply Permutation_Forall; [apply (sort_perm lt); exact E|exact Hl']).
    pose proof (@sort_sorted _ _ key lt P R lt_true lt_false R_trans _ _ Hl' E) as Hsorted.
    pose proof (insert_filter Dx Hs' Hsorted H) as Hins.
    destruct (p (snd x)); simpl; rewrite IH; simpl; [exact Hins|f_equal; symmetry; exact Hins].
Qed.

Lemma sorted_of_filter l r :
  Forall P l -> PySort.sorted key lt l = Ok r ->
  PySort.sorted key lt (filter p l) = Ok (filter p r).
Proof.
  unfold PySort.sorted. intros Hl H.
  destruct (PySort.sort lt (map (fun a => (key a, a)) l)) as [s|] eqn:E; simpl in H;
    try discriminate.
  injection H as <-.
  apply sort_filter in E; [|apply decorate_all; exact Hl].
  rewrite filter_map_swap in E.
  assert (E' : PySort.sort lt (map (fun a => (key a, a)) (filter p l))
               = Ok (filter (fun q => p (snd q)) s)) by exact E.
  rewrite E'. simpl. rewrite filter_map_swap. reflexivity.
Qed.

End SortFilter.

(** ** The busy-employees listing after a deletion *)

Section BusyAfterDelete.

Import BusyEmployeesListAPIView.

Lemma key_lt_strict db a b :
  entry_ok db a -> entry_ok db b ->
  key_lt (sort_key a) (sort_key b) = Ok true -> ~ entry_before b a.
Proof.
  intros _ _. unfold key_lt, sort_key, entry_before; simpl.
  destruct (Z.eqb_spec (- Z.of_nat (active_task_count a)) (- Z.of_nat (active_task_count b)))
    as [E|E].
  - destruct (dos_eqb _ _) eqn:Q; [discriminate|].
    destruct (earliest_due_date a), (earliest_due_date b); simpl in *; try discriminate.
    intros [= H] [_ Hd]. apply date_ltb_lt in H. apply Hd; [lia|exact H].
  - intros [= H] [Hc _]. apply Z.ltb_lt in H. lia.
Qed.

Lemma map_id_on {A} (f : A -> A) l : (forall x, In x l -> f x = x) -> map f l = l.
Proof.
  induction l as [|x l IH]; simpl; intros H; [reflexivity|].
  rewrite (H x (or_introl eq_refl)), IH; [reflexivity|]. intros y Hy. apply H. right; exact Hy.
Qed.

Lemma active_after_delete_employee pk db e :
  Employee.id e <> pk ->
  Objects.active (Objects.delete_employee pk db) e = Objects.active db e.
Proof.
  intros Hne. unfold Objects.active, Objects.assigned. f_equal.
  change (tasks (Objects.delete_employee pk db)) with (map (clear_assignee pk) (tasks db)).
  rewrite filter_map_swap.
  rewrite (filter_ext
             (fun a => opt_nat_eqb (Task.assigned_to (clear_assignee pk a))
                                   (Some (Employee.id e)))
             (fun a => opt_nat_eqb (Task.assigned_to a) (Some (Employee.id e)))).
  - apply map_id_on. intros x Hx. apply filter_In in Hx. destruct Hx as [_ Hx].
    apply opt_nat_eqb_eq in Hx. unfold clear_assignee. rewrite Hx. simpl.
    destruct (Nat.eqb_spec (Employee.id e) pk); [contradiction|reflexivity].
  - intros a. unfold clear_assignee.
    destruct (opt_nat_eqb (Task.assigned_to a) (Some pk)) eqn:E; [|reflexivity].
    apply opt_nat_eqb_eq in E. rewrite E. simpl.
    destruct (Nat.eqb_spec pk (Employee.id e)); [congruence|reflexivity].
Qed.

(** X17: deleting an employee takes the employee out of the busy-employees
    listing and changes nothing else in it: the listing after the deletion is
    the listing before it without the deleted employee, the others in the
    same order. *)
Theorem busy_employees_after_delete_employee (pk : nat) (db : DB) :
  exists out,
    get_queryset db = Ok out
    /\ get_queryset (Objects.delete_employee pk db)
       = Ok (filter (fun e => negb (Employee.id e =? pk)) out).
Proof.
  destruct (sorted_employee_data db) as (s & Hs & _ & _).
  exists (map employee s). split; [unfold get_queryset; rewrite Hs; reflexivity|].
  unfold get_queryset.
  change (employees (Objects.delete_employee pk db))
    with (filter (fun e => negb (Employee.id e =? pk)) (employees db)).
  assert (Hentries :
            map (make_entry (Objects.delete_employee pk db))
                (filter (fun e => negb (Employee.id e =? pk)) (employees db))
            = filter (fun x => negb (Employee.id (employee x) =? pk))
                     (map (make_entry db) (employees db))).
  { rewrite filter_map_swap. simpl. apply map_ext_in. intros e He.
    apply filter_In in He. destruct He as [_ Hne].
    apply negb_true_iff, Nat.eqb_neq in Hne.
    unfold make_entry. rewrite (@active_after_delete_employee pk db e Hne). reflexivity. }
  rewrite Hentries.
  rewrite (@sorted_of_filter _ _ sort_key key_lt (entry_ok db) entry_before
             (@key_lt_total db) (@key_lt_true db) (@key_lt_false db) (@key_lt_strict db)
             entry_before_trans (fun x => negb (Employee.id (employee x) =? pk))
             _ _ (employee_task_data_ok db (employees db)) Hs).
  simpl. rewrite filter_map_swap. reflexivity.
Qed.

End BusyAfterDelete.

(** ** The string forms of the test-suite *)

(** [EmployeeModelTest.test_employee_str] and [TaskModelTest.test_task_str] *)
Example test_model_str :
  Display.Employee__str__
    (Employee.Make 1 (u "Иванов") (u "Иван") (Some (u "Сидорович")) (u "Разработчик")
                   (Some (u "IT")) None)
  = u "Иванов Иван Сидорович - Разработчик"
  /\ Display.Task__str__
       (TestData.task 1 "Тестовая задача" None (Some 1) (Date 2024 9 1) "in_progress")
     = u "Тестовая задача - В работе".
Proof. split; vm_compute; reflexivity. Qed.

(** ** Instances of the further properties *)

Ltac distinct_ids :=
  unfold unique_ids; vm_compute;
  repeat (constructor; [cbn [In]; intuition discriminate|]); constructor.

(** Ivanov in the scenario of the parent's assignee. *)
Lemma potential_employee_iff_witness :
  In ivanov (employees parent_assignee_db)
  /\ exists m,
       is_min_task_count parent_assignee_db (employees parent_assignee_db) m
       /\ (In (ImportantTaskSerializer.employee_name ivanov)
              (ImportantTaskSerializer.get_potential_employees parent_assignee_db
                 important_task)
           <-> ImportantTaskSerializer.task_count parent_assignee_db ivanov = m
               \/ (assigned_subtask_of parent_assignee_db important_task ivanov
                   /\ ImportantTaskSerializer.task_count parent_assignee_db ivanov <= m + 2)).
Proof.
  assert (H : In ivanov (employees parent_assignee_db)) by (left; reflexivity).
  split; [exact H|]. exact (@potential_employee_iff parent_assignee_db important_task ivanov H).
Defined.

(** The potential employees in the scenario of the parent's assignee. *)
Lemma potential_employees_in_table_order_witness :
  unique_ids Employee.id (employees parent_assignee_db)
  /\ exists m,
       is_min_task_count parent_assignee_db (employees parent_assignee_db) m
       /\ ImportantTaskSerializer.get_potential_employees parent_assignee_db important_task
          = map ImportantTaskSerializer.employee_name
                (filter (ImportantTaskSerializer.suitable parent_assignee_db important_task m)
                        (employees parent_assignee_db)).
Proof.
  assert (H : unique_ids Employee.id (employees parent_assignee_db)) by distinct_ids.
  split; [exact H|].
  apply (@potential_employees_in_table_order parent_assignee_db important_task H).
  discriminate.
Defined.

(** The query [subtasks=true] on the data of the subtask-filter tests. *)
Lemma task_list_strictly_ascending_witness :
  unique_ids Task.id (tasks TestData.subtask_db)
  /\ StronglySorted (fun a b => Task.id a < Task.id b) [TestData.parent_row].
Proof.
  assert (H : unique_ids Task.id (tasks TestData.subtask_db)) by distinct_ids.
  split; [exact H|].
  apply (@task_list_strictly_ascending TestData.keep_case TestData.subtask_db
           [(u "subtasks", u "true")] [TestData.parent_row] H).
  vm_compute; reflexivity.
Defined.

(** The query [subtasks=True] on the data of the subtask-filter tests. *)
Lemma task_list_boolean_spelling_witness :
  TaskListAPIView.get_queryset TestData.keep_case TestData.subtask_db
    [(u "subtasks", u "True")] = Ok [TestData.parent_row]
  /\ forall x,
       In x [TestData.parent_row]
       <-> In x (tasks TestData.subtask_db)
           /\ asks (ascii_flag (QueryParams.get (u "subtasks") [(u "subtasks", u "True")]))
                   (has_children TestData.subtask_db x)
           /\ asks (ascii_flag (QueryParams.get (u "has_parent") [(u "subtasks", u "True")]))
                   (Task.parent_task x <> None).
Proof.
  assert (H : TaskListAPIView.get_queryset TestData.keep_case TestData.subtask_db
                [(u "subtasks", u "True")] = Ok [TestData.parent_row])
    by (vm_compute; reflexivity).
  split; [exact H|].
  apply (@task_list_boolean_spelling TestData.keep_case TestData.subtask_db
           [(u "subtasks", u "True")] [TestData.parent_row] H).
  - intros s E. vm_compute in E. injection E as <-.
    unfold is_ascii. repeat constructor.
  - intros s E. vm_compute in E. discriminate.
Defined.

(** The subtask of the data of the subtask-filter tests. *)
Lemma summary_shows_parent_row_witness :
  unique_ids Task.id (tasks TestData.subtask_db)
  /\ TaskSummarySerializer.get_parent_task TestData.subtask_db TestData.subtask_row
     = Some (TaskSummarySerializer.ParentRepr (Task.id TestData.parent_row)
               (Task.name TestData.parent_row) (Task.due_date TestData.parent_row)).
Proof.
  assert (H : unique_ids Task.id (tasks TestData.subtask_db)) by distinct_ids.
  split; [exact H|].
  exact (proj1 (@summary_shows_parent_row TestData.subtask_db TestData.subtask_row H)
           TestData.parent_row (or_introl eq_refl) eq_refl).
Defined.

(** The data of the important-tasks tests. *)
Lemma important_tasks_listed_once_witness :
  unique_ids Task.id (tasks TestData.important_db)
  /\ ImportantTasksListAPIView.get_queryset TestData.important_db
     = filter (is_important TestData.important_db) (tasks TestData.important_db).
Proof.
  assert (H : unique_ids Task.id (tasks TestData.important_db)) by distinct_ids.
  split; [exact H|]. exact (@important_tasks_listed_once TestData.important_db H).
Defined.

(** Deleting in the data of the subtask-filter tests. *)
Lemma deletion_keeps_references_witness :
  refs_ok TestData.subtask_db
  /\ refs_ok (Objects.delete_employee 1 TestData.subtask_db)
  /\ refs_ok (Objects.delete_task 1 TestData.subtask_db).
Proof.
  assert (H : refs_ok TestData.subtask_db).
  { intros x [<-|[<-|[]]]; split; intros i E; vm_compute in E; try discriminate;
      injection E as <-; vm_compute; reflexivity. }
  split; [exact H|]. exact (@deletion_keeps_references 1 TestData.subtask_db H).
Defined.

(** A name with a hyphen. *)
Lemma names_with_other_ascii_refused_witness :
  In 45%N (u "Анна-Мария")
  /\ EmployeeSerializer.validate_first_name TestData.cyrillic_alpha (u "Анна-Мария")
     = Raise (ValidationError (Messages [u "Имя должно содержать только буквы."])).
Proof.
  assert (H : In 45%N (u "Анна-Мария"))
    by (vm_compute; right; right; right; right; left; reflexivity).
  split; [exact H|].
  assert (H' : u "Анна-Мария" = []
               \/ exists c, In c (u "Анна-Мария") /\ (c < 128)%N
                            /\ is_upper_ascii c || is_lower_ascii c = false).
  { right. exists 45%N. split; [exact H|]. split; reflexivity. }
  exact (proj1 (@names_with_other_ascii_refused TestData.cyrillic_alpha (u "Анна-Мария") H')).
Defined.

(** A JSON body with a null middle name. *)
Lemma explicit_null_raises_witness :
  EmployeeSerializer.middle_name TestData.null_middle_name = Some JNull
  /\ EmployeeCreateAPIView_create
       TestData.cyrillic_alpha TestData.today TestData.no_errors TestData.parse_date
       TestData.insert_employee false TestData.null_middle_name TestData.busy_db
     = (Raise AttributeError, TestData.busy_db).
Proof.
  split; [reflexivity|].
  exact (proj1 (proj1 (@explicit_null_raises
                         TestData.cyrillic_alpha TestData.today TestData.no_errors
                         TestData.parse_date TestData.insert_employee
                         TestData.update_employee false false TestData.null_middle_name
                         1 TestData.busy_db)
                      eq_refl)).
Defined.
